(** * Episode processing and digest delivery pipeline

    A shallow embedding of the backend of the repository:
    - [api/routes/episodes.py]   URL normalisation, one-off submission,
                                 the reprocess action;
    - [services/summarization.py] transcript capping and digest synthesis;
    - [services/transcription.py] the URL classifiers and the YouTube
                                 caption path;
    - [workers/tasks.py]         the episode processor, the subscriber
                                 fan-out and the per-user digest dispatch.

    Python [str] values are modelled as [string] (one [ascii] per
    character), database ids and integers as [Z], nullable columns as
    [option], tables as lists of rows in insertion order.  The outside
    world (caption service, language model, Telegram, e-mail, clock) is an
    [Env] record of deterministic oracles; every call made to it is
    recorded in a trace of [Event]s. *)

From Stdlib Require Import String Ascii List ZArith Bool Lia DecimalString.
Import ListNotations.

Local Open Scope list_scope.
Local Open Scope string_scope.
Local Open Scope Z_scope.

(** ** Python string primitives *)

Module PyStr.

(** [len(s)] *)
Definition len (s : string) : Z := Z.of_nat (String.length s).

(** [needle in hay] *)
Fixpoint contains (needle hay : string) : bool :=
  String.prefix needle hay ||
  match hay with
  | EmptyString => false
  | String _ rest => contains needle rest
  end.

(** Reversal of an accumulator of characters into a string. *)
Fixpoint of_rev (acc : list ascii) (tail : string) : string :=
  match acc with
  | [] => tail
  | c :: acc' => of_rev acc' (String c tail)
  end.

(** [s.split(sep)] for a non-empty separator: left-to-right,
    non-overlapping occurrences.  [skip] counts the characters of the
    separator still to be consumed after an occurrence was found, [cur]
    holds the current piece in reverse. *)
Fixpoint split_aux (sep : string) (skip : nat) (cur : list ascii) (s : string)
  : list string :=
  match s with
  | EmptyString => [of_rev cur EmptyString]
  | String c rest =>
      match skip with
      | S k => split_aux sep k cur rest
      | O =>
          if String.prefix sep s
          then of_rev cur EmptyString
                 :: split_aux sep (Nat.pred (String.length sep)) [] rest
          else split_aux sep O (c :: cur) rest
      end
  end.

Definition split (sep s : string) : list string := split_aux sep O [] s.

(** [l[0]] and [l[-1]]; the results of [split] are never empty, so the
    default is not reached there. *)
Definition first (l : list string) : string := List.hd EmptyString l.
Definition last (l : list string) : string := List.last l EmptyString.

(** [s[:n]] with Python's treatment of a negative bound. *)
Definition slice_to (s : string) (n : Z) : string :=
  if 0 <=? n
  then String.substring 0 (Z.to_nat n) s
  else String.substring 0 (Z.to_nat (len s + n)) s.

(** Truthiness of an optional string: [None] and the empty string are
    falsy. *)
Definition truthy (o : option string) : bool :=
  match o with
  | Some (String _ _) => true
  | _ => false
  end.

(** Truthiness of an optional integer: [None] and [0] are falsy. *)
Definition truthy_int (o : option Z) : bool :=
  match o with
  | Some n => negb (n =? 0)
  | None => false
  end.

(** [f"{x}"] for an optional string. *)
Definition fmt (o : option string) : string :=
  match o with
  | Some s => s
  | None => "None"
  end.

(** [sep.join(l)] *)
Fixpoint join (sep : string) (l : list string) : string :=
  match l with
  | [] => EmptyString
  | [x] => x
  | x :: rest => x ++ sep ++ join sep rest
  end.

(** The character [\n]. *)
Definition nl : string := String (ascii_of_nat 10) EmptyString.

End PyStr.

(** ** models/schemas.py: the persisted entities *)

Module Schema.

Inductive EpisodeStatus : Type := PENDING | PROCESSING | COMPLETED | FAILED.

Definition status_eqb (a b : EpisodeStatus) : bool :=
  match a, b with
  | PENDING, PENDING | PROCESSING, PROCESSING
  | COMPLETED, COMPLETED | FAILED, FAILED => true
  | _, _ => false
  end.

(** [EpisodeStatus.value] *)
Definition status_value (s : EpisodeStatus) : string :=
  match s with
  | PENDING => "pending"
  | PROCESSING => "processing"
  | COMPLETED => "completed"
  | FAILED => "failed"
  end.

(** The [created_at] and [date_added] columns are write-only defaults that
    no modelled code reads; they are left out of the rows. *)
Record Source : Type := mkSource {
  src_id : Z;
  src_url : string;
  src_name : option string;
  src_source_type : option string;
  src_last_checked_at : option Z
}.

Record Episode : Type := mkEpisode {
  ep_id : Z;
  ep_source_id : option Z;
  ep_unique_id : string;
  ep_title : option string;
  ep_url : string;
  ep_audio_url : option string;
  ep_transcript : option string;
  ep_summary : option string;
  ep_status : EpisodeStatus;
  ep_error_message : option string;
  ep_published_at : option Z;
  ep_processed_at : option Z
}.

Record User : Type := mkUser {
  usr_id : Z;
  usr_email : option string;
  usr_telegram_chat_id : option string;
  usr_preferred_digest_time : string;
  usr_timezone : string
}.

Record Subscription : Type := mkSubscription {
  sub_id : Z;
  sub_user_id : Z;
  sub_source_id : Z
}.

Record DailyDigestQueue : Type := mkQueueItem {
  dq_id : Z;
  dq_user_id : Z;
  dq_episode_id : Z
}.

(** The database: one list of rows per table, in insertion order. *)
Record DB : Type := mkDB {
  sources : list Source;
  episodes : list Episode;
  users : list User;
  subscriptions : list Subscription;
  digest_queue : list DailyDigestQueue
}.

(** Field updates of an episode row (attribute assignment on the ORM
    object). *)
Definition set_status (v : EpisodeStatus) (e : Episode) : Episode :=
  mkEpisode (ep_id e) (ep_source_id e) (ep_unique_id e) (ep_title e) (ep_url e)
    (ep_audio_url e) (ep_transcript e) (ep_summary e) v (ep_error_message e)
    (ep_published_at e) (ep_processed_at e).

Definition set_error_message (v : option string) (e : Episode) : Episode :=
  mkEpisode (ep_id e) (ep_source_id e) (ep_unique_id e) (ep_title e) (ep_url e)
    (ep_audio_url e) (ep_transcript e) (ep_summary e) (ep_status e) v
    (ep_published_at e) (ep_processed_at e).

Definition set_title (v : option string) (e : Episode) : Episode :=
  mkEpisode (ep_id e) (ep_source_id e) (ep_unique_id e) v (ep_url e)
    (ep_audio_url e) (ep_transcript e) (ep_summary e) (ep_status e)
    (ep_error_message e) (ep_published_at e) (ep_processed_at e).

Definition set_url (v : string) (e : Episode) : Episode :=
  mkEpisode (ep_id e) (ep_source_id e) (ep_unique_id e) (ep_title e) v
    (ep_audio_url e) (ep_transcript e) (ep_summary e) (ep_status e)
    (ep_error_message e) (ep_published_at e) (ep_processed_at e).

Definition set_transcript (v : option string) (e : Episode) : Episode :=
  mkEpisode (ep_id e) (ep_source_id e) (ep_unique_id e) (ep_title e) (ep_url e)
    (ep_audio_url e) v (ep_summary e) (ep_status e) (ep_error_message e)
    (ep_published_at e) (ep_processed_at e).

Definition set_summary (v : option string) (e : Episode) : Episode :=
  mkEpisode (ep_id e) (ep_source_id e) (ep_unique_id e) (ep_title e) (ep_url e)
    (ep_audio_url e) (ep_transcript e) v (ep_status e) (ep_error_message e)
    (ep_published_at e) (ep_processed_at e).

Definition set_processed_at (v : option Z) (e : Episode) : Episode :=
  mkEpisode (ep_id e) (ep_source_id e) (ep_unique_id e) (ep_title e) (ep_url e)
    (ep_audio_url e) (ep_transcript e) (ep_summary e) (ep_status e)
    (ep_error_message e) (ep_published_at e) v.

(** Table updates. *)
Definition with_episodes (l : list Episode) (d : DB) : DB :=
  mkDB (sources d) l (users d) (subscriptions d) (digest_queue d).

Definition with_digest_queue (l : list DailyDigestQueue) (d : DB) : DB :=
  mkDB (sources d) (episodes d) (users d) (subscriptions d) l.

(** [query(T).filter(p).first()] *)
Definition first_where {A : Type} (p : A -> bool) (l : list A) : option A :=
  List.find p l.

Definition find_episode (id : Z) (d : DB) : option Episode :=
  first_where (fun e => ep_id e =? id) (episodes d).

Definition find_episode_by_unique_id (uid : string) (d : DB) : option Episode :=
  first_where (fun e => String.eqb (ep_unique_id e) uid) (episodes d).

Definition find_source (id : Z) (d : DB) : option Source :=
  first_where (fun s => src_id s =? id) (sources d).

Definition find_user (id : Z) (d : DB) : option User :=
  first_where (fun u => usr_id u =? id) (users d).

(** Assignment to the attributes of the episode row with primary key [id]. *)
Definition update_episode (id : Z) (f : Episode -> Episode) (d : DB) : DB :=
  with_episodes
    (List.map (fun e => if ep_id e =? id then f e else e) (episodes d)) d.

(** The primary key given to a new row: one more than the largest in use. *)
Definition next_id (ids : list Z) : Z := 1 + List.fold_right Z.max 0 ids.

(** The pairs (user, episode) present in the digest queue. *)
Definition queue_pairs (d : DB) : list (Z * Z) :=
  List.map (fun q => (dq_user_id q, dq_episode_id q)) (digest_queue d).

(** The queue rows of one user. *)
Definition queue_of (user_id : Z) (d : DB) : list DailyDigestQueue :=
  List.filter (fun q => dq_user_id q =? user_id) (digest_queue d).

End Schema.

(** ** Sessions, exceptions and the outside world *)

Module Effects.
Import Schema.

Inductive Exn : Type :=
| NoCaptionsError (msg : string)
| ValueError (msg : string)
| Exception (msg : string)
| ExternalError                      (* raised inside a collaborator *)
| HTTPException (status_code : Z) (detail : string)
| Retry (countdown : Z).             (* celery.exceptions.Retry *)

(** Background jobs that can be sent to the broker. *)
Inductive Job : Type :=
| ProcessEpisode (episode_id : Z)
| SendUserDigest (user_id : Z)
| SendImmediateDigest (user_id episode_id : Z).

(** Calls that leave the process. *)
Inductive Event : Type :=
| GetVideoTitle (url : string)
| FetchCaptions (video_id : string)
| TranscribeSpaces (url : string)
| TranscribePodcast (audio_url : string)
| ChatCompletion (prompt : string) (max_tokens : Z)
| SendTelegram (chat_id message : string)
| SendEmail (to subject html : string)
| Enqueue (job : Job) (countdown : Z) (retries : nat).

(** The collaborators.  An oracle that answers [None] (or [false]) stands
    for a call that raised.  [autoflush] is the setting of [SessionLocal]
    (models/database.py); the four prompt fields are the text of
    [SUMMARY_PROMPT] and [DIGEST_SYNTHESIS_PROMPT] before and after their
    placeholder. *)
Record Env : Type := mkEnv {
  autoflush : bool;
  sha256_hexdigest : string -> string;
  get_video_title : string -> option string;
  get_youtube_transcript : string -> option string;
  process_x_spaces : string -> option string;
  process_podcast_episode : string -> option string;
  chat_completion : string -> Z -> option string;
  telegram_send : string -> string -> bool;
  email_send : string -> string -> string -> bool;
  markdown_to_html : string -> string;
  utcnow : Z;
  utcnow_month_day : string;
  summary_prompt_head : string;
  summary_prompt_tail : string;
  digest_prompt_head : string;
  digest_prompt_tail : string
}.

(** A database session: [view] is what queries see, [pending] the queue
    rows added but not yet flushed, [saved] the last committed state, and
    [trace] the calls made so far, oldest first. *)
Record Session : Type := mkSession {
  view : DB;
  pending : list (Z * Z);
  saved : DB;
  trace : list Event
}.

Definition M (A : Type) : Type := Session -> (Exn + A) * Session.

Definition ret {A : Type} (a : A) : M A := fun s => (inr a, s).

Definition bind {A B : Type} (c : M A) (k : A -> M B) : M B :=
  fun s =>
    match c s with
    | (inr a, s') => k a s'
    | (inl e, s') => (inl e, s')
    end.

Definition raise {A : Type} (e : Exn) : M A := fun s => (inl e, s).

(** [try: c  except Exception as e: h e] *)
Definition try_except {A : Type} (c : M A) (h : Exn -> M A) : M A :=
  fun s =>
    match c s with
    | (inr a, s') => (inr a, s')
    | (inl e, s') => h e s'
    end.

Definition emit (ev : Event) : M unit :=
  fun s => (inr tt, mkSession (view s) (pending s) (saved s) (trace s ++ [ev])).

Definition read {A : Type} (f : DB -> A) : M A := fun s => (inr (f (view s)), s).

Definition write (f : DB -> DB) : M unit :=
  fun s => (inr tt, mkSession (f (view s)) (pending s) (saved s) (trace s)).

(** Insertion of the pending queue rows, each with a fresh primary key. *)
Fixpoint insert_rows (rows : list (Z * Z)) (q : list DailyDigestQueue)
  : list DailyDigestQueue :=
  match rows with
  | [] => q
  | (u, e) :: rest =>
      insert_rows rest (q ++ [mkQueueItem (next_id (List.map dq_id q)) u e])
  end.

Definition flush : M unit :=
  fun s =>
    (inr tt,
     mkSession (with_digest_queue (insert_rows (pending s) (digest_queue (view s))) (view s))
       [] (saved s) (trace s)).

(** [db.commit()] *)
Definition commit : M unit :=
  bind flush (fun _ s => (inr tt, mkSession (view s) [] (view s) (trace s))).

(** [db.rollback()] *)
Definition rollback : M unit :=
  fun s => (inr tt, mkSession (saved s) [] (saved s) (trace s)).

(** [db.add(DailyDigestQueue(user_id=u, episode_id=e))] *)
Definition add_queue_item (u e : Z) : M unit :=
  fun s => (inr tt, mkSession (view s) (pending s ++ [(u, e)]) (saved s) (trace s)).

(** Outcome of a request or of a job once its session is closed: the
    result or exception, the committed database and the calls made. *)
Definition run {A : Type} (c : M A) (d : DB) : (Exn + A) * DB * list Event :=
  let '(r, s) := c (mkSession d [] d []) in (r, saved s, trace s).

Definition result_of {A : Type} (o : (Exn + A) * DB * list Event) : Exn + A :=
  fst (fst o).
Definition db_of {A : Type} (o : (Exn + A) * DB * list Event) : DB :=
  snd (fst o).
Definition trace_of {A : Type} (o : (Exn + A) * DB * list Event) : list Event :=
  snd o.

(** [for x in l: body x] *)
Fixpoint for_each {A : Type} (l : list A) (body : A -> M unit) : M unit :=
  match l with
  | [] => ret tt
  | x :: rest => bind (body x) (fun _ => for_each rest body)
  end.

(** A query: the session flushes first when [autoflush] is on. *)
Definition query (env : Env) {A : Type} (f : DB -> A) : M A :=
  bind (if autoflush env then flush else ret tt) (fun _ => read f).

(** [task.delay(...)] *)
Definition delay (job : Job) : M unit := emit (Enqueue job 0 O).

(** [self.retry(exc=exc, countdown=countdown)] of a task declared with
    [max_retries], running as attempt number [retries]: the job is sent
    again and [Retry] raised, unless the budget is spent, in which case
    [exc] itself is raised. *)
Definition retry {A : Type} (job : Job) (max_retries retries : nat)
  (exc : Exn) (countdown : Z) : M A :=
  if (max_retries <? S retries)%nat then raise exc
  else bind (emit (Enqueue job countdown (S retries)))
         (fun _ => raise (Retry countdown)).

End Effects.

Declare Scope py_scope.
Notation "x <- c ;; k" := (Effects.bind c (fun x => k))
  (at level 61, c at next level, right associativity) : py_scope.
Notation "c ;; k" := (Effects.bind c (fun _ => k))
  (at level 61, right associativity) : py_scope.
Local Open Scope py_scope.

(** ** services/transcription.py: URL classifiers and transcript sources *)

Module Transcription.

Definition is_alnum (c : ascii) : bool :=
  let n := nat_of_ascii c in
  ((48 <=? n) && (n <=? 57) || (65 <=? n) && (n <=? 90)
   || (97 <=? n) && (n <=? 122))%nat.

(** Longest run of [[a-zA-Z0-9]] at the head of [s]. *)
Fixpoint alnum_run (s : string) : string :=
  match s with
  | String c rest => if is_alnum c then String c (alnum_run rest) else EmptyString
  | EmptyString => EmptyString
  end.

(** [s] with the prefix [p] removed, when [p] is a prefix. *)
Fixpoint strip_prefix (p s : string) : option string :=
  match p, s with
  | EmptyString, _ => Some s
  | String a p', String b s' => if Ascii.eqb a b then strip_prefix p' s' else None
  | String _ _, EmptyString => None
  end.

(** The pattern [(twitter\.com|x\.com)/i/spaces/([a-zA-Z0-9]+)] anchored at
    the head of [s]; the result is the id group. *)
Definition spaces_at (s : string) : option string :=
  let after :=
    match strip_prefix "twitter.com/i/spaces/" s with
    | Some r => Some r
    | None => strip_prefix "x.com/i/spaces/" s
    end in
  match after with
  | Some r =>
      match alnum_run r with
      | EmptyString => None
      | id => Some id
      end
  | None => None
  end.

(** [re.search] of that pattern: leftmost match. *)
Fixpoint search_spaces (s : string) : option string :=
  match spaces_at s with
  | Some id => Some id
  | None =>
      match s with
      | EmptyString => None
      | String _ rest => search_spaces rest
      end
  end.

Definition is_x_spaces_url (url : string) : bool :=
  match search_spaces url with
  | Some _ => true
  | None => false
  end.

(** The id pattern [[a-zA-Z0-9_-]{11}]. *)
Definition is_id_char (c : ascii) : bool :=
  is_alnum c || Ascii.eqb c "_" || Ascii.eqb c "-".

Fixpoint take_id (n : nat) (s : string) : option string :=
  match n with
  | O => Some EmptyString
  | S k =>
      match s with
      | String c rest =>
          if is_id_char c then option_map (String c) (take_id k rest) else None
      | EmptyString => None
      end
  end.

(** One alternative of a pattern: the literal [lit] followed by an id. *)
Definition id_after (lit s : string) : option string :=
  match strip_prefix lit s with
  | Some r => take_id 11 r
  | None => None
  end.

Definition first_some (a b : option string) : option string :=
  match a with
  | Some _ => a
  | None => b
  end.

(** [re.search] of a pattern given as its alternatives. *)
Fixpoint search_id (lits : list string) (s : string) : option string :=
  match List.fold_right (fun lit acc => first_some (id_after lit s) acc) None lits with
  | Some id => Some id
  | None =>
      match s with
      | EmptyString => None
      | String _ rest => search_id lits rest
      end
  end.

(** [None] stands for the [ValueError] of the source. *)
Definition extract_youtube_video_id (url : string) : option string :=
  first_some
    (search_id ["youtube.com/watch?v="; "youtu.be/"; "youtube.com/embed/"] url)
    (search_id ["v="] url).

Section WithEnv.

Variable env : Effects.Env.

Definition process_youtube_episode (url : string) : Effects.M string :=
  match extract_youtube_video_id url with
  | None => Effects.raise (Effects.ValueError ("Could not extract video ID from URL: " ++ url))
  | Some video_id =>
      Effects.emit (Effects.FetchCaptions video_id) ;;
      match Effects.get_youtube_transcript env video_id with
      | Some transcript => Effects.ret transcript
      | None =>
          Effects.raise
            (Effects.NoCaptionsError "This video doesn't have captions available.")
      end
  end.

Definition process_x_spaces (url : string) : Effects.M string :=
  Effects.emit (Effects.TranscribeSpaces url) ;;
  match Effects.process_x_spaces env url with
  | Some transcript => Effects.ret transcript
  | None => Effects.raise Effects.ExternalError
  end.

Definition process_podcast_episode (audio_url : string) : Effects.M string :=
  Effects.emit (Effects.TranscribePodcast audio_url) ;;
  match Effects.process_podcast_episode env audio_url with
  | Some transcript => Effects.ret transcript
  | None => Effects.raise Effects.ExternalError
  end.

Definition get_video_title (url : string) : Effects.M (option string) :=
  Effects.emit (Effects.GetVideoTitle url) ;;
  Effects.ret (Effects.get_video_title env url).

End WithEnv.

End Transcription.


(** ** api/routes/episodes.py: identity of a submitted URL *)

Module Identity.

Definition normalize_url (url : string) : string :=
  if PyStr.contains "youtube.com" url || PyStr.contains "youtu.be" url then
    let video_id :=
      if PyStr.contains "youtu.be/" url
      then PyStr.first (PyStr.split "?" (PyStr.last (PyStr.split "youtu.be/" url)))
      else if PyStr.contains "v=" url
      then PyStr.first (PyStr.split "&" (PyStr.last (PyStr.split "v=" url)))
      else url in
    "https://youtube.com/watch?v=" ++ video_id
  else
    match
      (if Transcription.is_x_spaces_url url
       then Transcription.search_spaces url else None)
    with
    | Some id => "https://x.com/i/spaces/" ++ id
    | None => PyStr.first (PyStr.split "?" url)
    end.

Section Hash.

(** [hashlib.sha256(s.encode()).hexdigest()], kept abstract. *)
Variable sha256_hexdigest : string -> string.

Definition get_url_hash (url : string) : string :=
  let normalized := normalize_url url in
  PyStr.slice_to (sha256_hexdigest normalized) 32.

End Hash.

End Identity.

(** ** services/summarization.py *)

Module Summarization.
Import Effects.

Definition truncation_marker : string :=
  PyStr.nl ++ PyStr.nl ++ "[Transcript truncated due to length...]".

(** The transcript as [summarize_transcript] rebinds it before the prompt
    is built. *)
Definition capped_transcript (transcript : string) (max_chars : Z) : string :=
  if max_chars <? PyStr.len transcript
  then PyStr.slice_to transcript max_chars ++ truncation_marker
  else transcript.

Section WithEnv.

Variable env : Env.

(** [client.chat.completions.create(...).choices[0].message.content] *)
Definition chat (prompt : string) (max_tokens : Z) : M string :=
  emit (ChatCompletion prompt max_tokens) ;;
  match chat_completion env prompt max_tokens with
  | Some content => ret content
  | None => raise ExternalError
  end.

Definition summarize_transcript (transcript : string) (max_chars : Z) : M string :=
  let transcript := capped_transcript transcript max_chars in
  chat (summary_prompt_head env ++ transcript ++ summary_prompt_tail env) 2000.

(** The default of the [max_chars] argument. *)
Definition default_max_chars : Z := 100000.

(** One entry of [summaries]: the [title] and [summary] keys. *)
Definition format_entry (s : option string * string) : string :=
  "**" ++ PyStr.fmt (fst s) ++ "**" ++ PyStr.nl ++ PyStr.nl ++ snd s.

Definition synthesize_digest (summaries : list (option string * string)) : M string :=
  match summaries with
  | [] => ret "No new content to summarize today."
  | [s] => ret ("# " ++ PyStr.fmt (fst s) ++ PyStr.nl ++ PyStr.nl ++ snd s)
  | _ =>
      let formatted :=
        PyStr.join (PyStr.nl ++ PyStr.nl ++ "---" ++ PyStr.nl ++ PyStr.nl)
          (List.map format_entry summaries) in
      chat (digest_prompt_head env ++ formatted ++ digest_prompt_tail env) 3000
  end.

End WithEnv.

End Summarization.

(** ** workers/tasks.py *)

Module Tasks.
Import Schema Effects.

(** The dictionaries returned by the tasks. *)
Inductive Result : Type :=
| EpisodeNotFound
| AlreadyCompleted
| Completed (episode_id : Z)
| FailedNoCaptions (error : string)
| UserNotFound
| NoPendingItems
| NoCompletedSummaries
| Delivered (items_count : Z).

Definition str_eq (o : option string) (s : string) : bool :=
  match o with
  | Some x => String.eqb x s
  | None => false
  end.

(** [str(n)] *)
Definition str_int (n : Z) : string := NilZero.string_of_int (Z.to_int n).

Section WithEnv.

Variable env : Env.

Definition queue_for_subscribers (episode : Episode) : M unit :=
  subs <- query env (fun d =>
            List.filter
              (fun sub =>
                 match ep_source_id episode with
                 | Some sid => sub_source_id sub =? sid
                 | None => false
                 end)
              (subscriptions d)) ;;
  for_each subs (fun sub =>
    existing <- query env (fun d =>
                  first_where
                    (fun q => (dq_user_id q =? sub_user_id sub)
                              && (dq_episode_id q =? ep_id episode))
                    (digest_queue d)) ;;
    match existing with
    | Some _ => ret tt
    | None => add_queue_item (sub_user_id sub) (ep_id episode)
    end) ;;
  commit.

(** The source type of an episode: that of its source when it has one,
    otherwise the shape of its URL. *)
Definition determine_source_type (episode_id : Z) (episode : Episode)
  : M (option string) :=
  source <- (if PyStr.truthy_int (ep_source_id episode)
             then query env (fun d =>
                    match ep_source_id episode with
                    | Some sid => find_source sid d
                    | None => None
                    end)
             else ret None) ;;
  match source with
  | Some s => ret (src_source_type s)
  | None =>
      if PyStr.contains "youtube.com" (ep_url episode)
         || PyStr.contains "youtu.be" (ep_url episode)
      then ret (Some "youtube")
      else if Transcription.is_x_spaces_url (ep_url episode)
      then ret (Some "x_spaces")
      else if PyStr.truthy (ep_audio_url episode)
      then ret (Some "podcast")
      else raise (ValueError ("Cannot determine source type for episode "
                              ++ str_int episode_id))
  end.

(** Fetch of the title of a video or recording that has none yet. *)
Definition fill_title (episode_id : Z) (episode : Episode) : M unit :=
  if PyStr.truthy (ep_title episode) then ret tt
  else
    title <- Transcription.get_video_title env (ep_url episode) ;;
    if PyStr.truthy title
    then write (update_episode episode_id (set_title title)) ;; commit
    else ret tt.

Definition transcribe (episode_id : Z) (episode : Episode)
  (source_type : option string) : M string :=
  if str_eq source_type "youtube" then
    fill_title episode_id episode ;;
    Transcription.process_youtube_episode env (ep_url episode)
  else if str_eq source_type "x_spaces" then
    fill_title episode_id episode ;;
    Transcription.process_x_spaces env (ep_url episode)
  else
    match ep_audio_url episode with
    | Some (String c rest) =>
        Transcription.process_podcast_episode env (String c rest)
    | _ => raise (ValueError "No audio URL for podcast episode")
    end.

(** The [try] block of [process_episode_task]. *)
Definition process_episode_try (episode_id : Z) : M Result :=
  found <- query env (find_episode episode_id) ;;
  match found with
  | None => ret EpisodeNotFound
  | Some episode =>
      if status_eqb (ep_status episode) COMPLETED then ret AlreadyCompleted
      else
        write (update_episode episode_id (set_status PROCESSING)) ;;
        commit ;;
        source_type <- determine_source_type episode_id episode ;;
        transcript <- transcribe episode_id episode source_type ;;
        write (update_episode episode_id (set_transcript (Some transcript))) ;;
        summary <- Summarization.summarize_transcript env transcript
                     Summarization.default_max_chars ;;
        write (update_episode episode_id
                 (fun e => set_processed_at (Some (utcnow env))
                             (set_status COMPLETED (set_summary (Some summary) e)))) ;;
        commit ;;
        queue_for_subscribers episode ;;
        ret (Completed episode_id)
  end.

(** [max_retries] of the [@celery_app.task] decorators. *)
Definition max_retries : nat := 3.

(** Marks the episode failed after a rollback, when it still exists. *)
Definition mark_failed (episode_id : Z) (f : Episode -> Episode) : M unit :=
  rollback ;;
  found <- query env (find_episode episode_id) ;;
  match found with
  | Some _ => write (update_episode episode_id f) ;; commit
  | None => ret tt
  end.

Definition process_episode_task (retries : nat) (episode_id : Z) : M Result :=
  try_except (process_episode_try episode_id)
    (fun e =>
       match e with
       | NoCaptionsError msg =>
           mark_failed episode_id
             (fun ep => set_error_message (Some msg) (set_status FAILED ep)) ;;
           ret (FailedNoCaptions msg)
       | _ =>
           mark_failed episode_id (set_status FAILED) ;;
           retry (ProcessEpisode episode_id) max_retries retries e
             (60 * 2 ^ Z.of_nat retries)
       end).

(** What one queue row contributes to [summaries]: the title and summary
    of its episode when that episode exists, has a non-empty summary and is
    COMPLETED. *)
Definition qualifying (found : option Episode) : list (option string * string) :=
  match found with
  | Some episode =>
      match ep_summary episode with
      | Some (String c s) =>
          if status_eqb (ep_status episode) COMPLETED
          then [(ep_title episode, String c s)]
          else []
      | _ => []
      end
  | None => []
  end.

(** The loop that gathers the summaries of a user's queue rows, in queue
    order, appending to [summaries]. *)
Fixpoint gather_summaries (queue_items : list DailyDigestQueue)
  (summaries : list (option string * string))
  : M (list (option string * string)) :=
  match queue_items with
  | [] => ret summaries
  | item :: rest =>
      found <- query env (find_episode (dq_episode_id item)) ;;
      gather_summaries rest (summaries ++ qualifying found)
  end.

(** [db.delete(item)] *)
Definition delete_queue_item (item : DailyDigestQueue) : M unit :=
  write (fun d =>
    with_digest_queue
      (List.filter (fun q => negb (dq_id q =? dq_id item)) (digest_queue d)) d).

(** One channel of delivery inside its own [try]: [true] when the send
    went through. *)
Definition try_telegram (chat_id digest : string) : M bool :=
  emit (SendTelegram chat_id digest) ;;
  ret (telegram_send env chat_id digest).

Definition try_email (to digest : string) : M bool :=
  let html_digest := markdown_to_html env digest in
  let subject := "Your Daily Knowledge Digest - " ++ utcnow_month_day env in
  emit (SendEmail to subject html_digest) ;;
  ret (email_send env to subject html_digest).

(** The [try] block of [send_user_digest_task]. *)
Definition send_user_digest_try (user_id : Z) : M Result :=
  found <- query env (find_user user_id) ;;
  match found with
  | None => ret UserNotFound
  | Some user =>
      queue_items <- query env (queue_of user_id) ;;
      match queue_items with
      | [] => ret NoPendingItems
      | _ =>
          summaries <- gather_summaries queue_items [] ;;
          match summaries with
          | [] => ret NoCompletedSummaries
          | _ =>
              digest <- Summarization.synthesize_digest env summaries ;;
              delivered <- ret false ;;
              delivered <- match usr_telegram_chat_id user with
                           | Some (String c s) =>
                               ok <- try_telegram (String c s) digest ;;
                               ret (if ok then true else delivered)
                           | _ => ret delivered
                           end ;;
              delivered <- match usr_email user with
                           | Some (String c s) =>
                               ok <- try_email (String c s) digest ;;
                               ret (if ok then true else delivered)
                           | _ => ret delivered
                           end ;;
              if delivered then
                for_each queue_items delete_queue_item ;;
                commit ;;
                ret (Delivered (Z.of_nat (List.length summaries)))
              else raise (Exception "No delivery channel succeeded")
          end
      end
  end.

Definition send_user_digest_task (retries : nat) (user_id : Z) : M Result :=
  try_except (send_user_digest_try user_id)
    (fun e => retry (SendUserDigest user_id) max_retries retries e 300).

End WithEnv.

(** A worker consuming the attempts of one [ProcessEpisode] job: attempt
    [retries] runs against the world [envs retries]; a [Retry] leads to
    the next attempt.  The result is the database after the last attempt,
    the number of attempts made and the last outcome. *)
Fixpoint process_episode_job (fuel : nat) (envs : nat -> Env) (retries : nat)
  (episode_id : Z) (d : DB) : DB * nat * (Exn + Result) :=
  let o := run (process_episode_task (envs retries) retries episode_id) d in
  match result_of o, fuel with
  | inl (Retry _), S fuel' =>
      process_episode_job fuel' envs (S retries) episode_id (db_of o)
  | r, _ => (db_of o, S retries, r)
  end.

End Tasks.

(** ** api/routes/episodes.py: submission and reprocessing *)

Module Routes.
Import Schema Effects.

Record EpisodeSubmit : Type := mkSubmit {
  url : string;
  user_id : option Z
}.

(** The JSON bodies returned by the two routes. *)
Inductive Response : Type :=
| Accepted (message : string) (episode_id : Z) (status : string)
| Message (message : string).

Section WithEnv.

Variable env : Env.

Definition get_url_hash (u : string) : string :=
  Identity.get_url_hash (sha256_hexdigest env) u.

(** [Episode(unique_id=..., url=..., audio_url=..., status=PENDING)]
    followed by [db.add], [db.commit] and [db.refresh]. *)
Definition add_episode (unique_id u : string) (audio_url : option string) : M Z :=
  new_id <- read (fun d => next_id (List.map ep_id (episodes d))) ;;
  write (fun d =>
    with_episodes
      (episodes d ++
         [mkEpisode new_id None unique_id None u audio_url None None PENDING
            None None None]) d) ;;
  commit ;;
  ret new_id.

Definition submit_url (submission : EpisodeSubmit) : M Response :=
  let url_hash := get_url_hash (url submission) in
  let normalized_url := Identity.normalize_url (url submission) in
  existing <- query env (find_episode_by_unique_id url_hash) ;;
  match existing with
  | Some ex =>
      if status_eqb (ep_status ex) COMPLETED && PyStr.truthy_int (user_id submission)
      then
        match user_id submission with
        | Some uid => delay (SendImmediateDigest uid (ep_id ex))
        | None => ret tt
        end ;;
        ret (Accepted "Summary already available, sending now" (ep_id ex)
               (status_value (ep_status ex)))
      else if status_eqb (ep_status ex) FAILED
      then
        write (update_episode (ep_id ex)
                 (fun e => set_url (Identity.normalize_url (url submission))
                             (set_error_message None (set_status PENDING e)))) ;;
        commit ;;
        delay (ProcessEpisode (ep_id ex)) ;;
        ret (Accepted "Retrying failed episode" (ep_id ex) "pending")
      else
        (if PyStr.truthy_int (user_id submission)
         then
           match user_id submission with
           | Some uid => add_queue_item uid (ep_id ex) ;; commit
           | None => ret tt
           end
         else ret tt) ;;
        ret (Accepted "Already processing" (ep_id ex)
               (status_value (ep_status ex)))
  | None =>
      let source_type :=
        if PyStr.contains "youtube.com" normalized_url
           || PyStr.contains "youtu.be" normalized_url
        then "youtube"
        else if Transcription.is_x_spaces_url normalized_url
        then "x_spaces"
        else "podcast" in
      new_id <- add_episode url_hash normalized_url
                  (if String.eqb source_type "podcast"
                   then Some (url submission) else None) ;;
      (if PyStr.truthy_int (user_id submission)
       then
         match user_id submission with
         | Some uid => add_queue_item uid new_id ;; commit
         | None => ret tt
         end
       else ret tt) ;;
      delay (ProcessEpisode new_id) ;;
      ret (Accepted "Processing started" new_id "pending")
  end.

Definition reprocess_episode (episode_id : Z) : M Response :=
  found <- query env (find_episode episode_id) ;;
  match found with
  | None => raise (HTTPException 404 "Episode not found")
  | Some episode =>
      if status_eqb (ep_status episode) PROCESSING
      then ret (Message "Already processing")
      else
        write (update_episode episode_id (set_status PENDING)) ;;
        commit ;;
        delay (ProcessEpisode episode_id) ;;
        ret (Message "Reprocessing started")
  end.

End WithEnv.

End Routes.

(** ** Vocabulary for the properties *)

Module Observe.
Import Schema Effects.

(** The summaries that the gathering loop of the digest dispatch collects
    for a user, read off the database. *)
Definition qualifying_items (user_id : Z) (d : DB) : list (option string * string) :=
  List.flat_map
    (fun item => Tasks.qualifying (find_episode (dq_episode_id item) d))
    (queue_of user_id d).

(** The rows of the queue left after [db.delete] of each of [items]. *)
Definition delete_all (items : list DailyDigestQueue) (d : DB) : DB :=
  with_digest_queue
    (List.filter
       (fun q => negb (List.existsb (fun i => dq_id q =? dq_id i) items))
       (digest_queue d)) d.

(** Calls that transcribe or summarise. *)
Definition is_cycle_call (ev : Event) : bool :=
  match ev with
  | FetchCaptions _ | TranscribeSpaces _ | TranscribePodcast _
  | ChatCompletion _ _ => true
  | _ => false
  end.

(** Calls that deliver to a channel. *)
Definition is_send (ev : Event) : bool :=
  match ev with
  | SendTelegram _ _ | SendEmail _ _ _ => true
  | _ => false
  end.

Definition is_enqueue (ev : Event) : bool :=
  match ev with
  | Enqueue _ _ _ => true
  | _ => false
  end.

(** The prompt of the synthesis call over [summaries]. *)
Definition synthesis_prompt (env : Env) (summaries : list (option string * string))
  : string :=
  digest_prompt_head env
    ++ PyStr.join (PyStr.nl ++ PyStr.nl ++ "---" ++ PyStr.nl ++ PyStr.nl)
         (List.map Summarization.format_entry summaries)
    ++ digest_prompt_tail env.

(** The message of a single entry: its title as a heading, a blank line,
    its summary. *)
Definition single_message (s : option string * string) : string :=
  "# " ++ PyStr.fmt (fst s) ++ PyStr.nl ++ PyStr.nl ++ snd s.

(** The digest compiled from [summaries], [None] when the language model
    fails, and the calls made to compile it. *)
Definition digest_text (env : Env) (summaries : list (option string * string))
  : option string :=
  match summaries with
  | [] => Some "No new content to summarize today."
  | [s] => Some (single_message s)
  | _ => chat_completion env (synthesis_prompt env summaries) 3000
  end.

Definition synthesis_calls (env : Env) (summaries : list (option string * string))
  : list Event :=
  match summaries with
  | _ :: _ :: _ => [ChatCompletion (synthesis_prompt env summaries) 3000]
  | _ => []
  end.

(** The attempt made on each channel, and whether it goes through. *)
Definition telegram_attempt (user : User) (digest : string) : list Event :=
  match usr_telegram_chat_id user with
  | Some (String c s) => [SendTelegram (String c s) digest]
  | _ => []
  end.

Definition email_subject (env : Env) : string :=
  "Your Daily Knowledge Digest - " ++ utcnow_month_day env.

Definition email_attempt (env : Env) (user : User) (digest : string) : list Event :=
  match usr_email user with
  | Some (String c s) =>
      [SendEmail (String c s) (email_subject env) (markdown_to_html env digest)]
  | _ => []
  end.

Definition telegram_ok (env : Env) (user : User) (digest : string) : bool :=
  match usr_telegram_chat_id user with
  | Some (String c s) => telegram_send env (String c s) digest
  | _ => false
  end.

Definition email_ok (env : Env) (user : User) (digest : string) : bool :=
  match usr_email user with
  | Some (String c s) =>
      email_send env (String c s) (email_subject env) (markdown_to_html env digest)
  | _ => false
  end.

(** The session a request or job starts with. *)
Definition start (d : DB) : Session := mkSession d [] d [].

(** The statuses of an episode after an operation. *)
Definition status_in (episode_id : Z) (d : DB) : option EpisodeStatus :=
  option_map ep_status (find_episode episode_id d).

(** The primary keys of the episode table. *)
Definition episode_ids (d : DB) : list Z := List.map ep_id (episodes d).

(** The state of a session in which the episode [episode_id] is known to
    the view and to the committed database, nothing waits for a flush and
    no job has been sent to the broker. *)
Definition Known (episode_id : Z) (s : Session) : Prop :=
  pending s = []
  /\ In episode_id (episode_ids (view s))
  /\ In episode_id (episode_ids (saved s))
  /\ List.filter is_enqueue (trace s) = [].

Definition is_retry (e : Exn) : bool :=
  match e with
  | Retry _ => true
  | _ => false
  end.

(** Triples over the session monad: from a session in [P], the computation
    ends in [Q] when it returns and in [E] when it raises. *)
Definition hoare {A : Type} (P : Session -> Prop) (c : M A)
  (Q : A -> Session -> Prop) (E : Exn -> Session -> Prop) : Prop :=
  forall s, P s ->
    match c s with
    | (inr a, s') => Q a s'
    | (inl e, s') => E e s'
    end.

(** A computation that keeps [I] whether it returns or raises, and never
    raises [Retry]. *)
Definition keeps {A : Type} (I : Session -> Prop) (c : M A) : Prop :=
  hoare I c (fun _ => I) (fun e s => I s /\ is_retry e = false).



(** The check and insertion made for one subscriber. *)
Definition fan_out_body (env : Env) (episode : Episode) (sub : Subscription) : M unit :=
  bind
    (query env (fun d =>
       first_where
         (fun x => (dq_user_id x =? sub_user_id sub)
                   && (dq_episode_id x =? ep_id episode))
         (digest_queue d)))
    (fun existing =>
       match existing with
       | Some _ => ret tt
       | None => add_queue_item (sub_user_id sub) (ep_id episode)
       end).

(** Occurrence of a character in a string, and strings made of characters
    that satisfy a test. *)
Fixpoint occurs (c : ascii) (s : string) : bool :=
  match s with
  | EmptyString => false
  | String x rest => Ascii.eqb c x || occurs c rest
  end.

Fixpoint all_chars (p : ascii -> bool) (s : string) : bool :=
  match s with
  | EmptyString => true
  | String x rest => p x && all_chars p rest
  end.

(** Calls that fetch or make a transcript. *)
Definition is_transcription (ev : Event) : bool :=
  match ev with
  | FetchCaptions _ | TranscribeSpaces _ | TranscribePodcast _ => true
  | _ => false
  end.

(** The transcription and summarisation calls of a trace. *)
Definition cycle_calls (t : list Event) : list Event := List.filter is_cycle_call t.

(** A computation that makes no call. *)
Definition silent {A : Type} (c : M A) : Prop :=
  forall s, trace (snd (c s)) = trace s.

End Observe.

(** ** Sample worlds and databases *)

Module Fixtures.
Import Schema Effects.

(** A world in which captions, the language model and Telegram answer and
    every other collaborator fails. *)
Definition env_ok : Env :=
  mkEnv true (fun s => s)
    (fun _ => Some "Video title") (fun _ => Some "transcript text")
    (fun _ => None) (fun _ => None)
    (fun _ _ => Some "summary text")
    (fun _ _ => true) (fun _ _ _ => false) (fun s => s)
    1000 "November 04" "<summary prompt>" "</summary prompt>"
    "<digest prompt>" "</digest prompt>".


(** The same world with captions but a language model that is down. *)
Definition env_llm_down : Env :=
  mkEnv true (fun s => s)
    (fun _ => Some "Video title") (fun _ => Some "transcript text")
    (fun _ => None) (fun _ => None)
    (fun _ _ => None)
    (fun _ _ => true) (fun _ _ _ => false) (fun s => s)
    1000 "November 04" "<summary prompt>" "</summary prompt>"
    "<digest prompt>" "</digest prompt>".

(** The same world with both delivery channels down. *)
Definition env_no_delivery : Env :=
  mkEnv true (fun s => s)
    (fun _ => Some "Video title") (fun _ => Some "transcript text")
    (fun _ => None) (fun _ => None)
    (fun _ _ => Some "summary text")
    (fun _ _ => false) (fun _ _ _ => false) (fun s => s)
    1000 "November 04" "<summary prompt>" "</summary prompt>"
    "<digest prompt>" "</digest prompt>".

Definition ep_done : Episode :=
  mkEpisode 1 None "h1" (Some "T1") "https://youtube.com/watch?v=abc12345678"
    None (Some "tr") (Some "S1") COMPLETED None None (Some 5).

Definition ep_running : Episode :=
  mkEpisode 2 None "h2" None "https://youtube.com/watch?v=xyz12345678"
    None None None PROCESSING None None None.

Definition ep_failed : Episode :=
  mkEpisode 3 None "https://youtube.com/watch?v=def1" (Some "T3")
    "https://youtube.com/watch?v=def12345678"
    None None None FAILED (Some "This video doesn't have captions available.")
    None None.

Definition ep_done' : Episode :=
  mkEpisode 4 None "h4" (Some "T4") "https://pod.example/ep4.mp3"
    (Some "https://pod.example/ep4.mp3?x=1") (Some "tr4") (Some "S4") COMPLETED
    None None (Some 6).

(** User 1 has a Telegram chat only, user 2 both channels. *)
Definition user1 : User := mkUser 1 None (Some "chat1") "08:00" "UTC".
Definition user2 : User := mkUser 2 (Some "u2@example.org") (Some "chat2") "09:00" "UTC".

(** User 1 waits for a finished and for a running episode; user 2 waits for
    two finished episodes. *)
Definition db_mixed : DB :=
  mkDB [] [ep_done; ep_running; ep_failed; ep_done'] [user1; user2] []
    [mkQueueItem 1 1 1; mkQueueItem 2 1 2; mkQueueItem 3 2 1; mkQueueItem 4 2 4].

Definition db_empty : DB := mkDB [] [] [user1] [] [].

End Fixtures.

(** ** More Python string primitives *)

Module PyText.

(** [s[:n]] and [s[n:]] for a natural [n]. *)
Fixpoint take (n : nat) (s : string) : string :=
  match n, s with
  | S k, String c rest => String c (take k rest)
  | _, _ => EmptyString
  end.

Fixpoint drop (n : nat) (s : string) : string :=
  match n, s with
  | S k, String c rest => drop k rest
  | _, _ => s
  end.

(** [[s[i:i+n] for i in range(0, len(s), n)]] for a step [n] of at least
    one; [fuel] bounds the number of slices. *)
Fixpoint slices_aux (fuel n : nat) (s : string) : list string :=
  match fuel with
  | O => []
  | S fuel' =>
      match s with
      | EmptyString => []
      | String _ _ => take n s :: slices_aux fuel' n (drop n s)
      end
  end.

Definition slices (n : nat) (s : string) : list string :=
  slices_aux (String.length s) n s.

(** [c.isspace()] on the characters below 256. *)
Definition is_space (c : ascii) : bool :=
  let n := nat_of_ascii c in
  ((9 <=? n) && (n <=? 13) || (28 <=? n) && (n <=? 32)
   || (n =? 133) || (n =? 160))%nat.

Fixpoint lstrip (s : string) : string :=
  match s with
  | String c rest => if is_space c then lstrip rest else s
  | EmptyString => EmptyString
  end.

Fixpoint rstrip (s : string) : string :=
  match s with
  | EmptyString => EmptyString
  | String c rest =>
      match rstrip rest with
      | EmptyString => if is_space c then EmptyString else String c EmptyString
      | kept => String c kept
      end
  end.

(** [s.strip()] *)
Definition strip (s : string) : string := lstrip (rstrip s).

(** Truthiness of a string. *)
Definition nonempty (s : string) : bool :=
  match s with
  | EmptyString => false
  | String _ _ => true
  end.

End PyText.

(** ** services/delivery.py: splitting of long messages *)

Module Delivery.

Definition TELEGRAM_MAX_LENGTH : Z := 4096.

(** [[para[i:i+max_length] for i in range(0, len(para), max_length)]]:
    [None] stands for the [ValueError] of a zero step, a negative step
    gives an empty range. *)
Definition force_split (para : string) (max_length : Z) : option (list string) :=
  if max_length =? 0 then None
  else if max_length <? 0 then Some []
  else Some (PyText.slices (Z.to_nat max_length) para).

(** The loop of [split_message] over the paragraphs, with the chunks made
    so far and the chunk being filled. *)
Fixpoint split_loop (paragraphs : list string) (max_length : Z)
  (chunks : list string) (current_chunk : string)
  : option (list string * string) :=
  match paragraphs with
  | [] => Some (chunks, current_chunk)
  | para :: rest =>
      if PyStr.len current_chunk + PyStr.len para + 2 <=? max_length
      then split_loop rest max_length chunks
             (current_chunk ++ para ++ PyStr.nl ++ PyStr.nl)
      else
        let chunks :=
          if PyText.nonempty current_chunk
          then (chunks ++ [PyText.strip current_chunk])%list
          else chunks in
        if max_length <? PyStr.len para
        then
          match force_split para max_length with
          | Some pieces => split_loop rest max_length (chunks ++ pieces)%list EmptyString
          | None => None
          end
        else split_loop rest max_length chunks (para ++ PyStr.nl ++ PyStr.nl)
  end.

Definition split_message (message : string) (max_length : Z) : option (list string) :=
  if PyStr.len message <=? max_length then Some [message]
  else
    match split_loop (PyStr.split (PyStr.nl ++ PyStr.nl) message) max_length
            [] EmptyString with
    | Some (chunks, current_chunk) =>
        Some (if PyText.nonempty (PyText.strip current_chunk)
              then (chunks ++ [PyText.strip current_chunk])%list
              else chunks)
    | None => None
    end.

(** The texts that [send_telegram] hands to [bot.send_message], in order. *)
Definition telegram_texts (message : string) : option (list string) :=
  if PyStr.len message <=? TELEGRAM_MAX_LENGTH then Some [message]
  else split_message message TELEGRAM_MAX_LENGTH.

End Delivery.

(** ** services/poller.py: channel identity *)

Module Poller.


Definition extract_youtube_channel_id (url : string) : string :=
  if PyStr.contains "channel_id=" url
  then PyStr.first (PyStr.split "&" (PyStr.last (PyStr.split "channel_id=" url)))
  else if PyStr.contains "/channel/" url
  then PyStr.first
         (PyStr.split "?"
            (PyStr.first (PyStr.split "/" (PyStr.last (PyStr.split "/channel/" url)))))
  else url.

End Poller.

(** ** bot/telegram_bot.py: identity of a pasted URL, long replies *)

Module Bot.

(** [inl] carries the [ValueError] of [extract_youtube_video_id]. *)
Definition normalize_url (url : string) : Effects.Exn + string :=
  if Transcription.is_x_spaces_url url then
    match Transcription.search_spaces url with
    | Some id => inr ("https://x.com/i/spaces/" ++ id)
    | None => inr url
    end
  else
    match Transcription.extract_youtube_video_id url with
    | Some video_id => inr ("https://youtube.com/watch?v=" ++ video_id)
    | None =>
        inl (Effects.ValueError ("Could not extract video ID from URL: " ++ url))
    end.

Definition get_url_hash (sha256_hexdigest : string -> string) (url : string)
  : Effects.Exn + string :=
  match normalize_url url with
  | inr normalized => inr (PyStr.slice_to (sha256_hexdigest normalized) 32)
  | inl e => inl e
  end.


Definition with_users (l : list Schema.User) (d : Schema.DB) : Schema.DB :=
  Schema.mkDB (Schema.sources d) (Schema.episodes d) l (Schema.subscriptions d)
    (Schema.digest_queue d).

(** [db.query(User).filter(User.telegram_chat_id == str(chat_id)).first()] *)
Definition find_user_by_chat (chat_id : string) (d : Schema.DB) : option Schema.User :=
  Schema.first_where
    (fun u => Tasks.str_eq (Schema.usr_telegram_chat_id u) chat_id) (Schema.users d).

(** [chat_id] is the text of the chat id, [str(chat_id)]. *)
Definition get_or_create_user (env : Effects.Env) (chat_id : string)
  : Effects.M Schema.User :=
  user <- Effects.query env (find_user_by_chat chat_id) ;;
  match user with
  | Some found => Effects.ret found
  | None =>
      new_id <- Effects.read
                  (fun d => Schema.next_id (List.map Schema.usr_id (Schema.users d))) ;;
      let created := Schema.mkUser new_id None (Some chat_id) "08:00" "UTC" in
      Effects.write (fun d => with_users (Schema.users d ++ [created]) d) ;;
      Effects.commit ;;
      Effects.ret created
  end.

End Bot.

(** ** api/routes/episodes.py: reading an episode *)

Module Details.
Import Schema Effects.

(** The JSON bodies of [get_episode] and [get_episode_status]. *)
Record EpisodeDetails : Type := mkDetails {
  det_id : Z;
  det_title : option string;
  det_url : string;
  det_status : string;
  det_summary : option string;
  det_published_at : option Z;
  det_processed_at : option Z
}.

Record EpisodeState : Type := mkState {
  st_episode_id : Z;
  st_status : string;
  st_has_summary : bool
}.

Section WithEnv.

Variable env : Env.

Definition get_episode (episode_id : Z) : M EpisodeDetails :=
  found <- query env (find_episode episode_id) ;;
  match found with
  | None => raise (HTTPException 404 "Episode not found")
  | Some episode =>
      ret (mkDetails (ep_id episode) (ep_title episode) (ep_url episode)
             (status_value (ep_status episode))
             (if status_eqb (ep_status episode) COMPLETED
              then ep_summary episode else None)
             (ep_published_at episode) (ep_processed_at episode))
  end.

Definition get_episode_status (episode_id : Z) : M EpisodeState :=
  found <- query env (find_episode episode_id) ;;
  match found with
  | None => raise (HTTPException 404 "Episode not found")
  | Some episode =>
      ret (mkState (ep_id episode) (status_value (ep_status episode))
             (match ep_summary episode with
              | Some _ => true
              | None => false
              end))
  end.

End WithEnv.

End Details.

(** ** api/routes/users.py: subscriptions *)

Module Users.
Import Schema Effects.

Definition with_subscriptions (l : list Subscription) (d : DB) : DB :=
  mkDB (sources d) (episodes d) (users d) l (digest_queue d).

Definition find_subscription (user_id source_id : Z) (d : DB) : option Subscription :=
  first_where
    (fun s => (sub_user_id s =? user_id) && (sub_source_id s =? source_id))
    (subscriptions d).

(** The pairs (user, source) present in the subscription table. *)
Definition subscription_pairs (d : DB) : list (Z * Z) :=
  List.map (fun s => (sub_user_id s, sub_source_id s)) (subscriptions d).

(** The JSON bodies returned by the two routes. *)
Inductive Reply : Type :=
| AlreadySubscribed (subscription_id : Z)
| Subscribed (subscription_id : Z)
| Unsubscribed.

Section WithEnv.

Variable env : Env.

Definition subscribe_to_source (user_id source_id : Z) : M Reply :=
  user <- query env (find_user user_id) ;;
  match user with
  | None => raise (HTTPException 404 "User not found")
  | Some _ =>
      source <- query env (find_source source_id) ;;
      match source with
      | None => raise (HTTPException 404 "Source not found")
      | Some _ =>
          existing <- query env (find_subscription user_id source_id) ;;
          match existing with
          | Some ex => ret (AlreadySubscribed (sub_id ex))
          | None =>
              new_id <- read (fun d => next_id (List.map sub_id (subscriptions d))) ;;
              write (fun d =>
                with_subscriptions
                  (subscriptions d ++ [mkSubscription new_id user_id source_id]) d) ;;
              commit ;;
              ret (Subscribed new_id)
          end
      end
  end.

Definition unsubscribe_from_source (user_id source_id : Z) : M Reply :=
  subscription <- query env (find_subscription user_id source_id) ;;
  match subscription with
  | None => raise (HTTPException 404 "Subscription not found")
  | Some found =>
      write (fun d =>
        with_subscriptions
          (List.filter (fun s => negb (sub_id s =? sub_id found)) (subscriptions d))
          d) ;;
      commit ;;
      ret Unsubscribed
  end.

End WithEnv.

End Users.

(** ** workers/tasks.py: scheduled and immediate digests *)

Module Digests.
Import Schema Effects.

Inductive Outcome : Type :=
| UsersQueued (users_queued : Z)
| UserOrEpisodeNotFound
| NotYetProcessed
| Sent.

(** [User.preferred_digest_time.like(f"{current_hour}:%")], for the two
    digits that [strftime("%H")] gives. *)
Definition wants_digest_at (current_hour : string) (user : User) : bool :=
  String.prefix (current_hour ++ ":") (usr_preferred_digest_time user).

Section WithEnv.

Variable env : Env.

(** [current_hour] is [datetime.utcnow().strftime("%H")]. *)
Definition send_scheduled_digests (current_hour : string) : M Outcome :=
  users <- query env (fun d => List.filter (wants_digest_at current_hour) (users d)) ;;
  for_each users (fun user => delay (SendUserDigest (usr_id user))) ;;
  ret (UsersQueued (Z.of_nat (List.length users))).

(** A send outside any [try]: a failure of the channel is raised. *)
Definition send_telegram (chat_id message : string) : M unit :=
  emit (SendTelegram chat_id message) ;;
  if telegram_send env chat_id message then ret tt else raise ExternalError.

Definition send_email (to subject html : string) : M unit :=
  emit (SendEmail to subject html) ;;
  if email_send env to subject html then ret tt else raise ExternalError.

Definition send_immediate_digest (user_id episode_id : Z) : M Outcome :=
  user <- query env (find_user user_id) ;;
  episode <- query env (find_episode episode_id) ;;
  match user, episode with
  | Some user, Some episode =>
      if negb (status_eqb (ep_status episode) COMPLETED) then ret NotYetProcessed
      else
        let message :=
          "# " ++ PyStr.fmt (ep_title episode) ++ PyStr.nl ++ PyStr.nl
            ++ PyStr.fmt (ep_summary episode) in
        match usr_telegram_chat_id user with
        | Some (String c s) => send_telegram (String c s) message
        | _ => ret tt
        end ;;
        match usr_email user with
        | Some (String c s) =>
            let html := markdown_to_html env message in
            send_email (String c s) ("Summary: " ++ PyStr.fmt (ep_title episode)) html
        | _ => ret tt
        end ;;
        ret Sent
  | _, _ => ret UserOrEpisodeNotFound
  end.

End WithEnv.

End Digests.

(** ** workers/tasks.py: polling a source *)

Module Polling.
Import Schema Effects.

(** One entry of a parsed feed. *)
Record EpisodeData : Type := mkEpisodeData {
  ed_unique_id : string;
  ed_title : string;
  ed_url : string;
  ed_audio_url : option string;
  ed_published_at : option Z
}.

(** The two feed readers of services/poller.py; [None] stands for a fetch
    or a parse that raised. *)
Record Feeds : Type := mkFeeds {
  fetch_youtube_feed : string -> option (list EpisodeData);
  fetch_podcast_feed : string -> option (list EpisodeData)
}.

Inductive Outcome : Type :=
| SourceNotFound
| Polled (source_id new_episodes : Z).

Definition with_sources (l : list Source) (d : DB) : DB :=
  mkDB l (episodes d) (users d) (subscriptions d) (digest_queue d).

Definition set_last_checked_at (v : option Z) (s : Source) : Source :=
  mkSource (src_id s) (src_url s) (src_name s) (src_source_type s) v.

(** Assignment to the attributes of the source row with primary key [id]. *)
Definition update_source (id : Z) (f : Source -> Source) (d : DB) : DB :=
  with_sources (List.map (fun s => if src_id s =? id then f s else s) (sources d)) d.

(** The row that [poll_source_task] builds for a feed entry. *)
Definition new_episode (new_id : Z) (source : Source) (ep_data : EpisodeData)
  : Episode :=
  mkEpisode new_id (Some (src_id source)) (ed_unique_id ep_data)
    (Some (ed_title ep_data)) (ed_url ep_data) (ed_audio_url ep_data) None None
    PENDING None (ed_published_at ep_data) None.

Section WithEnv.

Variable env : Env.
Variable feeds : Feeds.

(** [db.add(episode)], [db.commit()] and [db.refresh(episode)]. *)
Definition add_episode (source : Source) (ep_data : EpisodeData) : M Z :=
  new_id <- read (fun d => next_id (List.map ep_id (episodes d))) ;;
  write (fun d =>
    with_episodes (episodes d ++ [new_episode new_id source ep_data]) d) ;;
  commit ;;
  ret new_id.

(** The loop over the entries of the feed, with the count of new episodes
    so far. *)
Fixpoint poll_loop (source : Source) (episodes_data : list EpisodeData)
  (new_count : Z) : M Z :=
  match episodes_data with
  | [] => ret new_count
  | ep_data :: rest =>
      existing <- query env (find_episode_by_unique_id (ed_unique_id ep_data)) ;;
      match existing with
      | Some _ => poll_loop source rest new_count
      | None =>
          new_id <- add_episode source ep_data ;;
          delay (ProcessEpisode new_id) ;;
          poll_loop source rest (new_count + 1)
      end
  end.

(** The feed that is read for a source, by its type. *)
Definition feed_of (source : Source) : option (list EpisodeData) :=
  if Tasks.str_eq (src_source_type source) "youtube"
  then fetch_youtube_feed feeds (Poller.extract_youtube_channel_id (src_url source))
  else fetch_podcast_feed feeds (src_url source).

Definition fetch (source : Source) : M (list EpisodeData) :=
  match feed_of source with
  | Some episodes_data => ret episodes_data
  | None => raise ExternalError
  end.

(** The [try] block of [poll_source_task]. *)
Definition poll_source_try (source_id : Z) : M Outcome :=
  found <- query env (find_source source_id) ;;
  match found with
  | None => ret SourceNotFound
  | Some source =>
      episodes_data <- fetch source ;;
      new_count <- poll_loop source episodes_data 0 ;;
      write (update_source source_id (set_last_checked_at (Some (utcnow env)))) ;;
      commit ;;
      ret (Polled source_id new_count)
  end.

End WithEnv.

End Polling.

(** ** What an operation leaves alone *)

Module Frames.
Import Schema Effects.

(** The columns of an episode other than its status, title and error
    message. *)
Definition content (e : Episode)
  : Z * option Z * string * string * option string * option string * option string
    * option Z * option Z :=
  (ep_id e, ep_source_id e, ep_unique_id e, ep_url e, ep_audio_url e,
   ep_transcript e, ep_summary e, ep_published_at e, ep_processed_at e).

(** [d] is [d0] up to the rows of episode [id] and to queue rows added at
    the end. *)
Definition touches_only (id : Z) (d0 d : DB) : Prop :=
  sources d = sources d0
  /\ users d = users d0
  /\ subscriptions d = subscriptions d0
  /\ Forall2 (fun e0 e => ep_id e = ep_id e0 /\ (ep_id e0 <> id -> e = e0))
       (episodes d0) (episodes d)
  /\ exists added, digest_queue d = (digest_queue d0 ++ added)%list.

(** [d] is [d0] up to the status, title and error message of episode
    [id]. *)
Definition bookkeeping_only (id : Z) (d0 d : DB) : Prop :=
  sources d = sources d0
  /\ users d = users d0
  /\ subscriptions d = subscriptions d0
  /\ Forall2 (fun e0 e => content e = content e0 /\ (ep_id e0 <> id -> e = e0))
       (episodes d0) (episodes d)
  /\ digest_queue d = digest_queue d0.

(** The primary keys of the queue rows. *)
Definition queue_ids (d : DB) : list Z := List.map dq_id (digest_queue d).

(** A session with nothing waiting for a flush, whose view is in [V] and
    whose committed state is in [S]. *)
Definition session_inv (V S : DB -> Prop) (s : Session) : Prop :=
  pending s = [] /\ V (view s) /\ S (saved s).

End Frames.

(** * Properties *)

Import Schema Effects.

(** ** The session monad *)

Lemma with_digest_queue_id (d : DB) : with_digest_queue (digest_queue d) d = d.
Proof. destruct d; reflexivity. Qed.

Lemma with_episodes_id (d : DB) : with_episodes (episodes d) d = d.
Proof. destruct d; reflexivity. Qed.

(** With nothing pending, a flush changes nothing. *)
Lemma flush_clean (s : Session) : pending s = [] -> flush s = (inr tt, s).
Proof.
  destruct s as [v p sv t]; simpl; intros ->.
  unfold flush; simpl. rewrite with_digest_queue_id. reflexivity.
Qed.

(** With nothing pending, a query reads the view whatever [autoflush] is. *)
Lemma query_clean (env : Env) {A : Type} (f : DB -> A) (s : Session) :
  pending s = [] -> query env f s = (inr (f (view s)), s).
Proof.
  intros Hp. unfold query, bind, read.
  destruct (autoflush env).
  - rewrite (flush_clean s Hp). reflexivity.
  - reflexivity.
Qed.

Lemma commit_clean (s : Session) :
  pending s = [] ->
  commit s = (inr tt, mkSession (view s) [] (view s) (trace s)).
Proof.
  intros Hp. unfold commit, bind. rewrite (flush_clean s Hp). reflexivity.
Qed.

Lemma run_eq {A : Type} (c : M A) (d : DB) (r : Exn + A) (s : Session) :
  c (mkSession d [] d []) = (r, s) -> run c d = (r, saved s, trace s).
Proof. intros H. unfold run. rewrite H. reflexivity. Qed.

Lemma run_is {A : Type} (c : M A) (d d' : DB) (r : Exn + A) (s : Session)
  (t : list Event) :
  c (mkSession d [] d []) = (r, s) -> saved s = d' -> trace s = t ->
  run c d = (r, d', t).
Proof. intros H <- <-. apply run_eq, H. Qed.

(** ** Rows and their keys *)

Lemma find_update_episode (id : Z) (f : Episode -> Episode) (d : DB) :
  (forall e, ep_id (f e) = ep_id e) ->
  find_episode id (update_episode id f d) = option_map f (find_episode id d).
Proof.
  intros Hf. unfold find_episode, update_episode, first_where; simpl.
  induction (episodes d) as [|e l IH]; simpl; [reflexivity|].
  destruct (ep_id e =? id) eqn:E.
  - rewrite Hf, E. reflexivity.
  - rewrite E. exact IH.
Qed.

Lemma find_episode_id (id : Z) (d : DB) (e : Episode) :
  find_episode id d = Some e -> ep_id e = id.
Proof.
  unfold find_episode, first_where. intros H.
  apply List.find_some in H. destruct H as [_ H]. lia.
Qed.

(** ** The reprocess action *)

(** C10.  The reprocess action, on an episode that exists: in any status
    other than PROCESSING (COMPLETED included) the episode is set to
    PENDING, the change is committed and one processing job is enqueued;
    in PROCESSING the request returns with the database untouched and
    nothing enqueued. *)
Theorem reprocess_resets_unless_processing
  (env : Env) (episode_id : Z) (d : DB) (ep : Episode) :
  find_episode episode_id d = Some ep ->
  let o := run (Routes.reprocess_episode env episode_id) d in
  (ep_status ep <> PROCESSING ->
     result_of o = inr (Routes.Message "Reprocessing started")
     /\ db_of o = update_episode episode_id (set_status PENDING) d
     /\ find_episode episode_id (db_of o) = Some (set_status PENDING ep)
     /\ trace_of o = [Enqueue (ProcessEpisode episode_id) 0 0])
  /\ (ep_status ep = PROCESSING ->
        o = (inr (Routes.Message "Already processing"), d, [])).
Proof.
  intros Hfind o.
  assert (Hq : query env (find_episode episode_id) (mkSession d [] d [])
               = (inr (Some ep), mkSession d [] d [])).
  { rewrite query_clean by reflexivity. simpl. rewrite Hfind. reflexivity. }
  split.
  - intros Hst.
    assert (Ho : o = (inr (Routes.Message "Reprocessing started"),
                      update_episode episode_id (set_status PENDING) d,
                      [Enqueue (ProcessEpisode episode_id) 0 0])).
    { subst o.
      eapply run_is;
        [unfold Routes.reprocess_episode, bind at 1; rewrite Hq;
         destruct (ep_status ep) eqn:E; try congruence; reflexivity
        | destruct d; reflexivity ..]. }
    rewrite Ho. unfold result_of, db_of, trace_of; simpl.
    repeat split.
    rewrite find_update_episode by reflexivity. rewrite Hfind. reflexivity.
  - intros Hst. subst o.
    eapply run_is;
      [unfold Routes.reprocess_episode, bind at 1; rewrite Hq, Hst; reflexivity
      | reflexivity ..].
Qed.

(** A COMPLETED episode is reset by the reprocess action. *)
Lemma reprocess_resets_unless_processing_witness :
  ep_status Fixtures.ep_done = COMPLETED
  /\ option_map ep_status
       (find_episode 1
          (db_of (run (Routes.reprocess_episode Fixtures.env_ok 1) Fixtures.db_mixed)))
     = Some PENDING
  /\ trace_of (run (Routes.reprocess_episode Fixtures.env_ok 1) Fixtures.db_mixed)
     = [Enqueue (ProcessEpisode 1) 0 0].
Proof.
  destruct (reprocess_resets_unless_processing Fixtures.env_ok 1 Fixtures.db_mixed
              Fixtures.ep_done eq_refl) as [H _].
  destruct (H ltac:(discriminate)) as (_ & _ & Hf & Ht).
  split; [reflexivity|]. split.
  - rewrite Hf. reflexivity.
  - exact Ht.
Defined.

(** C9.  The reprocess action moves a FAILED episode to PENDING and keeps
    its error message, where the retry-submission path of [submit_url]
    sets the message to [None] in the same transition. *)
Theorem reprocess_keeps_error_message :
  find_episode 3 Fixtures.db_mixed = Some Fixtures.ep_failed
  /\ ep_status Fixtures.ep_failed = FAILED
  /\ (let d' := db_of (run (Routes.reprocess_episode Fixtures.env_ok 3)
                         Fixtures.db_mixed) in
      option_map ep_status (find_episode 3 d') = Some PENDING
      /\ option_map ep_error_message (find_episode 3 d')
         = Some (Some "This video doesn't have captions available."))
  /\ (let d' := db_of (run (Routes.submit_url Fixtures.env_ok
                              (Routes.mkSubmit "https://youtu.be/def12345678" None))
                         Fixtures.db_mixed) in
      option_map ep_status (find_episode 3 d') = Some PENDING
      /\ option_map ep_error_message (find_episode 3 d') = Some None).
Proof. repeat split; reflexivity. Qed.

(** ** Identity of submitted URLs *)

(** C5.  The [watch?v=] and [youtu.be/] shapes of one video normalise to
    the canonical URL, the [/embed/] shape does not: [normalize_url] has no
    case for it and wraps the whole URL, so the text that is hashed differs,
    although [extract_youtube_video_id] finds the same id in all three. *)
Theorem embed_shape_not_normalised :
  let watch := "https://www.youtube.com/watch?v=abc12345678" in
  let short := "https://youtu.be/abc12345678?t=5" in
  let embed := "https://www.youtube.com/embed/abc12345678" in
  Identity.normalize_url watch = "https://youtube.com/watch?v=abc12345678"
  /\ Identity.normalize_url short = "https://youtube.com/watch?v=abc12345678"
  /\ Identity.normalize_url embed
     = "https://youtube.com/watch?v=https://www.youtube.com/embed/abc12345678"
  /\ Identity.normalize_url embed <> Identity.normalize_url watch
  /\ (forall sha,
        Identity.get_url_hash sha embed
        = PyStr.slice_to
            (sha "https://youtube.com/watch?v=https://www.youtube.com/embed/abc12345678")
            32
        /\ Identity.get_url_hash sha watch
           = PyStr.slice_to (sha "https://youtube.com/watch?v=abc12345678") 32)
  /\ Transcription.extract_youtube_video_id watch = Some "abc12345678"
  /\ Transcription.extract_youtube_video_id short = Some "abc12345678"
  /\ Transcription.extract_youtube_video_id embed = Some "abc12345678".
Proof.
  cbv zeta. repeat split; try reflexivity.
  intros H. vm_compute in H. discriminate H.
Qed.

Import Observe.
(** *** The two shapes that are normalised, for every id *)

Lemma prefix_empty (s : string) : String.prefix EmptyString s = true.
Proof. destruct s; reflexivity. Qed.

Lemma prefix_occurs (p s : string) (c : ascii) :
  String.prefix p s = true -> occurs c p = true -> occurs c s = true.
Proof.
  revert s. induction p as [|a p IH]; intros s Hp Hc; simpl in *.
  - discriminate Hc.
  - destruct s as [|b s]; [discriminate Hp|].
    cbn [String.prefix] in Hp.
    destruct (ascii_dec a b) as [->|]; [|discriminate Hp].
    cbn [occurs]. destruct (Ascii.eqb c b); [reflexivity|].
    simpl in *. apply IH; assumption.
Qed.

(** A separator with a character that the text lacks does not occur in it
    and does not split it. *)
Lemma contains_missing_char (sep s : string) (c : ascii) :
  occurs c sep = true -> occurs c s = false -> PyStr.contains sep s = false.
Proof.
  intros Hsep. induction s as [|x s IH]; intros Hs.
  - cbn [PyStr.contains].
    destruct (String.prefix sep EmptyString) eqn:P; [|reflexivity].
    rewrite (prefix_occurs sep EmptyString c P Hsep) in Hs. discriminate Hs.
  - cbn [PyStr.contains].
    destruct (String.prefix sep (String x s)) eqn:P.
    + rewrite (prefix_occurs sep _ c P Hsep) in Hs. discriminate Hs.
    + simpl in Hs. apply orb_false_elim in Hs. destruct Hs as [_ Hs].
      simpl. apply IH, Hs.
Qed.

Lemma split_missing_char (sep s : string) (c : ascii) :
  occurs c sep = true -> occurs c s = false ->
  forall cur, PyStr.split_aux sep O cur s = [PyStr.of_rev cur s].
Proof.
  intros Hsep. induction s as [|x s IH]; intros Hs cur.
  - reflexivity.
  - cbn [PyStr.split_aux].
    destruct (String.prefix sep (String x s)) eqn:P.
    + rewrite (prefix_occurs sep _ c P Hsep) in Hs. discriminate Hs.
    + simpl in Hs. apply orb_false_elim in Hs. destruct Hs as [_ Hs].
      rewrite IH by exact Hs. reflexivity.
Qed.

Lemma id_chars_lack (id : string) (c : ascii) :
  all_chars Transcription.is_id_char id = true ->
  Transcription.is_id_char c = false ->
  occurs c id = false.
Proof.
  intros Hid Hc. induction id as [|x id IH]; [reflexivity|].
  simpl in *. apply andb_prop in Hid. destruct Hid as [Hx Hid].
  rewrite (IH Hid), orb_false_r.
  destruct (Ascii.eqb c x) eqn:E; [|reflexivity].
  apply Ascii.eqb_eq in E. subst x. congruence.
Qed.

(** For every id made of id characters, the [watch?v=] and [youtu.be/]
    shapes normalise to the canonical URL of that id, and hash alike. *)
Lemma watch_and_short_shapes_agree (id : string) :
  all_chars Transcription.is_id_char id = true ->
  Identity.normalize_url ("https://www.youtube.com/watch?v=" ++ id)
  = "https://youtube.com/watch?v=" ++ id
  /\ Identity.normalize_url ("https://youtu.be/" ++ id)
     = "https://youtube.com/watch?v=" ++ id
  /\ forall sha,
       Identity.get_url_hash sha ("https://www.youtube.com/watch?v=" ++ id)
       = Identity.get_url_hash sha ("https://youtu.be/" ++ id).
Proof.
  intros Hid.
  pose proof (id_chars_lack id "."%char Hid eq_refl) as Hdot.
  pose proof (id_chars_lack id "/"%char Hid eq_refl) as Hslash.
  pose proof (id_chars_lack id "="%char Hid eq_refl) as Heq.
  pose proof (id_chars_lack id "&"%char Hid eq_refl) as Hamp.
  pose proof (id_chars_lack id "?"%char Hid eq_refl) as Hq.
  assert (Hwatch : Identity.normalize_url ("https://www.youtube.com/watch?v=" ++ id)
                   = "https://youtube.com/watch?v=" ++ id).
  { unfold Identity.normalize_url.
    replace (PyStr.contains "youtube.com" ("https://www.youtube.com/watch?v=" ++ id))
      with true by reflexivity.
    cbn [orb].
    replace (PyStr.contains "youtu.be/" ("https://www.youtube.com/watch?v=" ++ id))
      with false
      by (simpl; rewrite (contains_missing_char "youtu.be/" id "/"%char eq_refl Hslash);
          reflexivity).
    replace (PyStr.contains "v=" ("https://www.youtube.com/watch?v=" ++ id))
      with true by (simpl; rewrite prefix_empty; reflexivity).
    unfold PyStr.split. simpl PyStr.split_aux. rewrite prefix_empty.
    rewrite (split_missing_char "v=" id "="%char eq_refl Heq).
    cbn [PyStr.last List.last PyStr.of_rev].
    rewrite (split_missing_char "&" id "&"%char eq_refl Hamp).
    reflexivity. }
  assert (Hshort : Identity.normalize_url ("https://youtu.be/" ++ id)
                   = "https://youtube.com/watch?v=" ++ id).
  { unfold Identity.normalize_url.
    replace (PyStr.contains "youtu.be" ("https://youtu.be/" ++ id))
      with true by reflexivity.
    rewrite orb_true_r.
    replace (PyStr.contains "youtu.be/" ("https://youtu.be/" ++ id))
      with true by (simpl; rewrite prefix_empty; reflexivity).
    unfold PyStr.split. simpl PyStr.split_aux. rewrite prefix_empty.
    rewrite (split_missing_char "youtu.be/" id "/"%char eq_refl Hslash).
    cbn [PyStr.last List.last PyStr.of_rev].
    rewrite (split_missing_char "?" id "?"%char eq_refl Hq).
    reflexivity. }
  split; [exact Hwatch|]. split; [exact Hshort|].
  intros sha. unfold Identity.get_url_hash. rewrite Hwatch, Hshort. reflexivity.
Qed.

(** ** Capping of the transcript *)




(** ** Digest dispatch *)


Lemma bind_inr {A B : Type} (c : M A) (k : A -> M B) (s s' : Session) (a : A) :
  c s = (inr a, s') -> bind c k s = k a s'.
Proof. intros H. unfold bind. rewrite H. reflexivity. Qed.

Lemma bind_inl {A B : Type} (c : M A) (k : A -> M B) (s s' : Session) (e : Exn) :
  c s = (inl e, s') -> bind c k s = (inl e, s').
Proof. intros H. unfold bind. rewrite H. reflexivity. Qed.

(** The gathering loop computes [qualifying] of each row, in order. *)
Lemma gather_summaries_clean (env : Env) (items : list DailyDigestQueue) :
  forall (acc : list (option string * string)) (s : Session),
    pending s = [] ->
    Tasks.gather_summaries env items acc s
    = (inr (acc ++ List.flat_map
                     (fun item => Tasks.qualifying
                                    (find_episode (dq_episode_id item) (view s)))
                     items)%list, s).
Proof.
  induction items as [|item rest IH]; intros acc s Hp; simpl.
  - rewrite List.app_nil_r. reflexivity.
  - erewrite bind_inr by (apply query_clean; exact Hp).
    rewrite IH by exact Hp. rewrite <- List.app_assoc. reflexivity.
Qed.

Lemma synthesize_digest_eval (env : Env) (summaries : list (option string * string))
  (digest : string) (s : Session) :
  digest_text env summaries = Some digest ->
  Summarization.synthesize_digest env summaries s
  = (inr digest,
     mkSession (view s) (pending s) (saved s)
       (trace s ++ synthesis_calls env summaries)).
Proof.
  unfold digest_text, Summarization.synthesize_digest, synthesis_calls.
  destruct summaries as [|a [|b rest]]; intros H.
  - inversion H; subst. unfold ret. rewrite List.app_nil_r. destruct s; reflexivity.
  - inversion H; subst. unfold ret. rewrite List.app_nil_r. destruct s; reflexivity.
  - unfold Summarization.chat, bind, emit.
    fold (synthesis_prompt env (a :: b :: rest)). rewrite H. reflexivity.
Qed.

Lemma for_each_delete (items : list DailyDigestQueue) :
  forall s : Session,
    for_each items Tasks.delete_queue_item s
    = (inr tt, mkSession (delete_all items (view s)) (pending s) (saved s) (trace s)).
Proof.
  induction items as [|item rest IH]; intros s.
  - simpl. unfold ret, delete_all. simpl.
    rewrite (List.forallb_filter_id) by (apply List.forallb_forall; reflexivity).
    rewrite with_digest_queue_id. destruct s; reflexivity.
  - simpl. unfold bind at 1. unfold Tasks.delete_queue_item at 1, write.
    rewrite IH. simpl. f_equal. f_equal.
    unfold delete_all, with_digest_queue; simpl. f_equal.
    induction (digest_queue (view s)) as [|q l IHl]; simpl; [reflexivity|].
    destruct (dq_id q =? dq_id item); simpl.
    + exact IHl.
    + destruct (List.existsb _ rest); simpl; [exact IHl | f_equal; exact IHl].
Qed.

(** The [try] block of the dispatch, once it has something to send. *)
Lemma send_user_digest_try_eval (env : Env) (uid : Z) (d : DB) (user : User)
  (summaries : list (option string * string)) (digest : string) :
  find_user uid d = Some user ->
  qualifying_items uid d = summaries ->
  summaries <> [] ->
  digest_text env summaries = Some digest ->
  let attempts :=
    (synthesis_calls env summaries ++ telegram_attempt user digest
       ++ email_attempt env user digest)%list in
  Tasks.send_user_digest_try env uid (start d)
  = if telegram_ok env user digest || email_ok env user digest
    then (inr (Tasks.Delivered (Z.of_nat (List.length summaries))),
          mkSession (delete_all (queue_of uid d) d) []
            (delete_all (queue_of uid d) d) attempts)
    else (inl (Exception "No delivery channel succeeded"),
          mkSession d [] d attempts).
Proof.
  intros Hu Hq Hne Hd attempts. subst attempts.
  unfold Tasks.send_user_digest_try, start.
  erewrite bind_inr by (apply query_clean; reflexivity).
  cbn [view]. rewrite Hu.
  erewrite bind_inr by (apply query_clean; reflexivity).
  cbn [view].
  unfold qualifying_items in Hq.
  destruct (queue_of uid d) as [|item items] eqn:Hitems.
  { simpl in Hq. congruence. }
  cbv beta iota. remember (item :: items) as qi eqn:Hqi.
  erewrite bind_inr by (apply gather_summaries_clean; reflexivity).
  cbn [view]. rewrite List.app_nil_l, Hq.
  destruct summaries as [|s0 srest]; [congruence|].
  cbv beta iota. remember (s0 :: srest) as summaries eqn:Hsum.
  erewrite bind_inr by (apply synthesize_digest_eval; exact Hd).
  cbn [view pending saved trace]. rewrite List.app_nil_l.
  generalize (synthesis_calls env summaries); intros calls.
  unfold telegram_ok, email_ok, telegram_attempt, email_attempt,
    Tasks.try_telegram, Tasks.try_email, email_subject.
  destruct (usr_telegram_chat_id user) as [[|c1 t1]|];
    destruct (usr_email user) as [[|c2 t2]|];
    unfold bind, ret, emit, raise; cbn [view pending saved trace];
    repeat match goal with
      | |- context [telegram_send env ?a ?b] => destruct (telegram_send env a b)
      | |- context [email_send env ?a ?b ?c] => destruct (email_send env a b c)
      end;
    cbn [orb];
    rewrite ?for_each_delete; cbn [view pending saved trace];
    rewrite ?List.app_nil_r, <- ?List.app_assoc;
    try reflexivity;
    unfold commit, bind, flush; cbn [view pending saved trace insert_rows];
    rewrite ?with_digest_queue_id; reflexivity.
Qed.

(** The whole dispatch job, once it has something to send. *)
Lemma send_user_digest_outcome (env : Env) (retries : nat) (uid : Z) (d : DB)
  (user : User) (summaries : list (option string * string)) (digest : string) :
  find_user uid d = Some user ->
  qualifying_items uid d = summaries ->
  summaries <> [] ->
  digest_text env summaries = Some digest ->
  let attempts :=
    (synthesis_calls env summaries ++ telegram_attempt user digest
       ++ email_attempt env user digest)%list in
  run (Tasks.send_user_digest_task env retries uid) d
  = if telegram_ok env user digest || email_ok env user digest
    then (inr (Tasks.Delivered (Z.of_nat (List.length summaries))),
          delete_all (queue_of uid d) d, attempts)
    else if (retries <? 3)%nat
    then (inl (Retry 300), d,
          (attempts ++ [Enqueue (SendUserDigest uid) 300 (S retries)])%list)
    else (inl (Exception "No delivery channel succeeded"), d, attempts).
Proof.
  intros Hu Hq Hne Hd attempts.
  pose proof (send_user_digest_try_eval env uid d user summaries digest
                Hu Hq Hne Hd) as Htry.
  cbv zeta in Htry. fold attempts in Htry. unfold start in Htry.
  unfold run, Tasks.send_user_digest_task, try_except. rewrite Htry.
  destruct (telegram_ok env user digest || email_ok env user digest).
  - reflexivity.
  - unfold retry, Tasks.max_retries.
    destruct retries as [|[|[|r]]]; reflexivity.
Qed.

(** The dispatch job when the synthesis call fails. *)
Lemma send_user_digest_llm_down (env : Env) (retries : nat) (uid : Z) (d : DB)
  (user : User) (summaries : list (option string * string)) :
  find_user uid d = Some user ->
  qualifying_items uid d = summaries ->
  digest_text env summaries = None ->
  run (Tasks.send_user_digest_task env retries uid) d
  = if (retries <? 3)%nat
    then (inl (Retry 300), d,
          (synthesis_calls env summaries
             ++ [Enqueue (SendUserDigest uid) 300 (S retries)])%list)
    else (inl ExternalError, d, synthesis_calls env summaries).
Proof.
  intros Hu Hq Hd.
  assert (Htry : Tasks.send_user_digest_try env uid (start d)
                 = (inl ExternalError,
                    mkSession d [] d (synthesis_calls env summaries))).
  { unfold Tasks.send_user_digest_try, start.
    erewrite bind_inr by (apply query_clean; reflexivity).
    cbn [view]. rewrite Hu.
    erewrite bind_inr by (apply query_clean; reflexivity).
    cbn [view]. unfold qualifying_items in Hq.
    destruct (queue_of uid d) as [|item items] eqn:Hitems.
    { simpl in Hq. subst summaries. discriminate Hd. }
    cbv beta iota. remember (item :: items) as qi eqn:Hqi.
    erewrite bind_inr by (apply gather_summaries_clean; reflexivity).
    cbn [view]. rewrite List.app_nil_l, Hq.
    destruct summaries as [|a [|b rest]]; try discriminate Hd.
    cbv beta iota. unfold digest_text in Hd.
    unfold Summarization.synthesize_digest, Summarization.chat, synthesis_calls.
    fold (synthesis_prompt env (a :: b :: rest)).
    unfold bind, emit. rewrite Hd. reflexivity. }
  unfold start in Htry.
  unfold run, Tasks.send_user_digest_task, try_except. rewrite Htry.
  unfold retry, Tasks.max_retries.
  destruct retries as [|[|[|r]]]; reflexivity.
Qed.

Lemma queue_of_delete_all (uid : Z) (d : DB) :
  queue_of uid (delete_all (queue_of uid d) d) = [].
Proof.
  unfold queue_of, delete_all; simpl.
  set (mine := List.filter (fun q => dq_user_id q =? uid) (digest_queue d)).
  assert (Hin : forall q, In q (digest_queue d) -> (dq_user_id q =? uid) = true ->
                          List.existsb (fun i => dq_id q =? dq_id i) mine = true).
  { intros q Hq Hu. apply List.existsb_exists. exists q. split.
    - apply List.filter_In. split; assumption.
    - apply Z.eqb_refl. }
  clearbody mine.
  induction (digest_queue d) as [|q l IH]; simpl; [reflexivity|].
  destruct (List.existsb (fun i => dq_id q =? dq_id i) mine) eqn:E; simpl.
  - apply IH. intros x Hx. apply Hin. right. exact Hx.
  - destruct (dq_user_id q =? uid) eqn:U.
    + rewrite (Hin q (or_introl eq_refl) U) in E. discriminate E.
    + apply IH. intros x Hx. apply Hin. right. exact Hx.
Qed.

Lemma qualifying_items_queue (uid : Z) (d : DB) :
  qualifying_items uid d <> [] -> queue_of uid d <> [].
Proof. unfold qualifying_items. intros H E. rewrite E in H. apply H. reflexivity. Qed.

(** Filtering a trace made of the synthesis call and the channel attempts. *)
Ltac filter_attempts env user summaries :=
  rewrite ?List.filter_app;
  unfold synthesis_calls, telegram_attempt, email_attempt;
  destruct summaries as [|? [|? ?]];
  destruct (usr_telegram_chat_id user) as [[|? ?]|];
  destruct (usr_email user) as [[|? ?]|]; reflexivity.

(** C7.  When the dispatch of a user has a digest to send: every configured
    channel is attempted, whatever happens on the other one; the user's
    queue is emptied exactly when at least one attempt goes through; when
    none does, the database is left as it was and the job fails with a
    retry after 300 seconds while the retry budget lasts. *)
Theorem digest_delivery_per_channel
  (env : Env) (retries : nat) (uid : Z) (d : DB) (user : User) (digest : string) :
  find_user uid d = Some user ->
  qualifying_items uid d <> [] ->
  digest_text env (qualifying_items uid d) = Some digest ->
  let o := run (Tasks.send_user_digest_task env retries uid) d in
  let delivered := telegram_ok env user digest || email_ok env user digest in
  List.filter is_send (trace_of o)
  = (telegram_attempt user digest ++ email_attempt env user digest)%list
  /\ (queue_of uid (db_of o) = [] <-> delivered = true)
  /\ (delivered = true ->
        result_of o
        = inr (Tasks.Delivered (Z.of_nat (List.length (qualifying_items uid d)))))
  /\ (delivered = false ->
        db_of o = d
        /\ result_of o
           = (if (retries <? 3)%nat then inl (Retry 300)
              else inl (Exception "No delivery channel succeeded"))
        /\ List.filter is_enqueue (trace_of o)
           = (if (retries <? 3)%nat
              then [Enqueue (SendUserDigest uid) 300 (S retries)] else [])).
Proof.
  intros Hu Hne Hd o delivered.
  pose proof (send_user_digest_outcome env retries uid d user _ digest
                Hu eq_refl Hne Hd) as Ho.
  cbv zeta in Ho. fold o delivered in Ho.
  pose proof (qualifying_items_queue uid d Hne) as Hqueue.
  destruct delivered eqn:Hdel.
  - rewrite Ho. unfold result_of, db_of, trace_of; simpl.
    repeat split; try discriminate.
    + filter_attempts env user (qualifying_items uid d).
    + intros _. apply queue_of_delete_all.
  - destruct (retries <? 3)%nat; rewrite Ho;
      unfold result_of, db_of, trace_of; simpl;
      (repeat split; try discriminate; try congruence;
       filter_attempts env user (qualifying_items uid d)).
Qed.

(** User 2 has both channels; in [env_ok] Telegram goes through and e-mail
    fails: both are attempted and the queue of user 2 is emptied. *)
Lemma digest_delivery_per_channel_witness :
  find_user 2 Fixtures.db_mixed = Some Fixtures.user2
  /\ qualifying_items 2 Fixtures.db_mixed <> []
  /\ digest_text Fixtures.env_ok (qualifying_items 2 Fixtures.db_mixed)
     = Some "summary text"
  /\ List.filter is_send
       (trace_of (run (Tasks.send_user_digest_task Fixtures.env_ok 0 2)
                    Fixtures.db_mixed))
     = (telegram_attempt Fixtures.user2 "summary text"
          ++ email_attempt Fixtures.env_ok Fixtures.user2 "summary text")%list.
Proof.
  split; [reflexivity|]. split; [discriminate|]. split; [reflexivity|].
  exact (proj1 (digest_delivery_per_channel Fixtures.env_ok 0 2 Fixtures.db_mixed
                  Fixtures.user2 "summary text" eq_refl
                  ltac:(discriminate) eq_refl)).
Defined.

(** C1.  A dispatch that succeeds deletes every queue row of the user, the
    rows of unfinished episodes included: user 1 waits for a COMPLETED and
    for a PROCESSING episode, only the first is sent, both rows are gone. *)
Theorem digest_clears_unfinished_rows :
  let o := run (Tasks.send_user_digest_task Fixtures.env_ok 0 1) Fixtures.db_mixed in
  queue_of 1 Fixtures.db_mixed = [mkQueueItem 1 1 1; mkQueueItem 2 1 2]
  /\ status_in 1 Fixtures.db_mixed = Some COMPLETED
  /\ status_in 2 Fixtures.db_mixed = Some PROCESSING
  /\ qualifying_items 1 Fixtures.db_mixed = [(Some "T1", "S1")]
  /\ result_of o = inr (Tasks.Delivered 1)
  /\ trace_of o = [SendTelegram "chat1" ("# T1" ++ PyStr.nl ++ PyStr.nl ++ "S1")]
  /\ queue_of 1 (db_of o) = []
  /\ ~ In (mkQueueItem 2 1 2) (digest_queue (db_of o))
  /\ status_in 2 (db_of o) = Some PROCESSING.
Proof.
  cbv zeta. repeat split; try reflexivity.
  vm_compute. intros [H|[H|[]]]; discriminate H.
Qed.




(** ** Uniqueness of the queue rows *)

(** One submission of a URL by a user into a database that already holds
    the episode, still unfinished, and the row queued for that user. *)
Lemma submit_url_existing_unfinished (env : Env) (u : string) (uid : Z) (d : DB)
  (ex : Episode) :
  find_episode_by_unique_id (Routes.get_url_hash env u) d = Some ex ->
  ep_status ex <> COMPLETED ->
  ep_status ex <> FAILED ->
  uid <> 0 ->
  run (Routes.submit_url env (Routes.mkSubmit u (Some uid))) d
  = (inr (Routes.Accepted "Already processing" (ep_id ex)
            (status_value (ep_status ex))),
     with_digest_queue
       (digest_queue d ++
          [mkQueueItem (next_id (List.map dq_id (digest_queue d))) uid (ep_id ex)]) d,
     []).
Proof.
  intros Hex Hc Hf Hu.
  eapply run_is.
  - unfold Routes.submit_url. cbn [Routes.url Routes.user_id].
    erewrite bind_inr by (apply query_clean; reflexivity).
    cbn [view]. rewrite Hex.
    assert (Hc' : status_eqb (ep_status ex) COMPLETED = false)
      by (destruct (ep_status ex); try reflexivity; congruence).
    assert (Hf' : status_eqb (ep_status ex) FAILED = false)
      by (destruct (ep_status ex); try reflexivity; congruence).
    assert (Hu' : PyStr.truthy_int (Some uid) = true)
      by (simpl; apply negb_true_iff, Z.eqb_neq; exact Hu).
    rewrite Hc', Hf', Hu'. cbn [andb].
    unfold bind, add_queue_item, commit, bind, flush, ret.
    cbn [view pending saved trace List.app insert_rows]. reflexivity.
  - reflexivity.
  - reflexivity.
Qed.

Lemma find_by_unique_id_app (h : string) (l : list Episode) (e : Episode) :
  List.find (fun x => String.eqb (ep_unique_id x) h) l = None ->
  ep_unique_id e = h ->
  List.find (fun x => String.eqb (ep_unique_id x) h) (l ++ [e]) = Some e.
Proof.
  intros Hl He. induction l as [|x l IH]; simpl in *.
  - rewrite He, String.eqb_refl. reflexivity.
  - destruct (String.eqb (ep_unique_id x) h); [discriminate Hl | apply IH, Hl].
Qed.

(** The first submission of a URL by a user: one PENDING episode and one
    queue row are created. *)
Lemma submit_url_new (env : Env) (u : string) (uid : Z) (d : DB) :
  find_episode_by_unique_id (Routes.get_url_hash env u) d = None ->
  uid <> 0 ->
  let d1 := db_of (run (Routes.submit_url env (Routes.mkSubmit u (Some uid))) d) in
  exists ex,
    find_episode_by_unique_id (Routes.get_url_hash env u) d1 = Some ex
    /\ ep_id ex = next_id (List.map ep_id (episodes d))
    /\ ep_status ex = PENDING
    /\ episodes d1 = (episodes d ++ [ex])%list
    /\ queue_pairs d1 = (queue_pairs d ++ [(uid, ep_id ex)])%list.
Proof.
  intros Hnone Hu d1.
  assert (Hu' : PyStr.truthy_int (Some uid) = true)
    by (simpl; apply negb_true_iff, Z.eqb_neq; exact Hu).
  set (h := Routes.get_url_hash env u) in *.
  set (audio :=
         if String.eqb
              (if PyStr.contains "youtube.com" (Identity.normalize_url u)
                  || PyStr.contains "youtu.be" (Identity.normalize_url u)
               then "youtube"
               else if Transcription.is_x_spaces_url (Identity.normalize_url u)
               then "x_spaces" else "podcast") "podcast"
         then Some u else None).
  set (ex := mkEpisode (next_id (List.map ep_id (episodes d))) None h None
               (Identity.normalize_url u) audio None None PENDING None None None).
  assert (Hd1 : d1 = mkDB (sources d) (episodes d ++ [ex]) (users d)
                       (subscriptions d)
                       (digest_queue d ++
                          [mkQueueItem (next_id (List.map dq_id (digest_queue d)))
                             uid (ep_id ex)])).
  { subst d1. unfold db_of, run, Routes.submit_url.
    cbn [Routes.url Routes.user_id]. fold h.
    erewrite bind_inr by (apply query_clean; reflexivity).
    cbn [view]. rewrite Hnone, Hu'. fold audio.
    unfold Routes.add_episode, bind, read, write, add_queue_item, commit, bind,
      flush, ret, delay, emit.
    cbn [view pending saved trace List.app insert_rows fst snd].
    reflexivity. }
  exists ex. rewrite Hd1. repeat split.
  - unfold find_episode_by_unique_id, first_where.
    apply find_by_unique_id_app; [exact Hnone | reflexivity].
  - unfold queue_pairs. cbn [digest_queue]. rewrite List.map_app. reflexivity.
Qed.

(** Submitting again while the episode is unfinished repeats the row. *)
Lemma resubmission_repeats_row (env : Env) (u : string) (uid : Z) (d : DB) :
  find_episode_by_unique_id (Routes.get_url_hash env u) d = None ->
  uid <> 0 ->
  let submission := Routes.mkSubmit u (Some uid) in
  let d1 := db_of (run (Routes.submit_url env submission) d) in
  let d2 := db_of (run (Routes.submit_url env submission) d1) in
  exists ex,
    let episode_id := next_id (List.map ep_id (episodes d)) in
    ep_id ex = episode_id /\ ep_status ex = PENDING
    /\ episodes d1 = (episodes d ++ [ex])%list
    /\ queue_pairs d1 = (queue_pairs d ++ [(uid, episode_id)])%list
    /\ episodes d2 = episodes d1
    /\ queue_pairs d2
       = (queue_pairs d ++ [(uid, episode_id); (uid, episode_id)])%list
    /\ ~ NoDup (queue_pairs d2).
Proof.
  intros Hnone Hu submission d1 d2.
  destruct (submit_url_new env u uid d Hnone Hu)
    as (ex & Hex & Hid & Hst & Heps & Hq).
  fold submission in Hex, Heps, Hq. fold d1 in Hex, Heps, Hq.
  pose proof (submit_url_existing_unfinished env u uid d1 ex Hex
                ltac:(congruence) ltac:(congruence) Hu) as H2.
  fold submission in H2.
  assert (Hd2 : d2 = with_digest_queue
                       (digest_queue d1 ++
                          [mkQueueItem (next_id (List.map dq_id (digest_queue d1)))
                             uid (ep_id ex)]) d1).
  { subst d2. rewrite H2. reflexivity. }
  assert (Hq2 : queue_pairs d2
                = (queue_pairs d ++ [(uid, ep_id ex); (uid, ep_id ex)])%list).
  { rewrite Hd2. unfold queue_pairs in *. cbn [with_digest_queue digest_queue].
    rewrite List.map_app, Hq, <- List.app_assoc. reflexivity. }
  exists ex. cbv zeta. rewrite <- Hid. repeat split; try assumption.
  - rewrite Hd2. reflexivity.
  - rewrite Hq2. intros Hnd.
    apply List.NoDup_remove_2 in Hnd. apply Hnd.
    apply List.in_or_app. right. left. reflexivity.
Qed.

(** C3.  Two submissions of one URL by user 1 while the episode is still
    PENDING leave two queue rows for the pair (user 1, episode 1):
    [submit_url] adds the row without the existence check that
    [queue_for_subscribers] makes. *)
Theorem resubmission_duplicates_queue_row (env : Env) :
  let submission := Routes.mkSubmit "https://youtu.be/abc12345678" (Some 1) in
  let d1 := db_of (run (Routes.submit_url env submission) Fixtures.db_empty) in
  let d2 := db_of (run (Routes.submit_url env submission) d1) in
  NoDup (queue_pairs Fixtures.db_empty)
  /\ queue_pairs d1 = [(1, 1)]
  /\ status_in 1 d1 = Some PENDING
  /\ List.length (episodes d2) = 1%nat
  /\ queue_pairs d2 = [(1, 1); (1, 1)]
  /\ ~ NoDup (queue_pairs d2).
Proof.
  intros submission d1 d2.
  destruct (resubmission_repeats_row env "https://youtu.be/abc12345678" 1
              Fixtures.db_empty eq_refl ltac:(discriminate))
    as (ex & Hid & Hst & Heps & Hq1 & Heps2 & Hq2 & Hdup).
  fold submission in Heps, Hq1, Heps2, Hq2, Hdup.
  fold d1 in Heps, Hq1, Heps2, Hq2, Hdup. fold d2 in Heps2, Hq2, Hdup.
  change (next_id (List.map ep_id (episodes Fixtures.db_empty))) with 1
    in Hid, Hq1, Hq2.
  simpl in Heps, Hq1, Hq2.
  split; [constructor|]. split; [exact Hq1|]. split.
  - unfold status_in, find_episode, first_where. rewrite Heps. simpl.
    rewrite Hid. simpl. rewrite Hst. reflexivity.
  - split; [rewrite Heps2, Heps; reflexivity|].
    split; [exact Hq2 | exact Hdup].
Qed.

(** ** Triples for the episode processor *)

Lemma hoare_bind {A B : Type} (P : Session -> Prop) (c : M A) (k : A -> M B)
  (Q : A -> Session -> Prop) (R : B -> Session -> Prop)
  (E : Exn -> Session -> Prop) :
  hoare P c Q E -> (forall a, hoare (Q a) (k a) R E) -> hoare P (bind c k) R E.
Proof.
  intros Hc Hk s Hs. unfold bind. specialize (Hc s Hs).
  destruct (c s) as [[e|a] s']; [exact Hc | apply (Hk a s' Hc)].
Qed.

Lemma hoare_weaken {A : Type} (P P' : Session -> Prop) (c : M A)
  (Q Q' : A -> Session -> Prop) (E E' : Exn -> Session -> Prop) :
  hoare P' c Q' E' ->
  (forall s, P s -> P' s) ->
  (forall a s, Q' a s -> Q a s) ->
  (forall e s, E' e s -> E e s) ->
  hoare P c Q E.
Proof.
  intros H HP HQ HE s Hs. specialize (H s (HP s Hs)).
  destruct (c s) as [[e|a] s']; [apply HE | apply HQ]; exact H.
Qed.

Lemma keeps_bind {A B : Type} (I : Session -> Prop) (c : M A) (k : A -> M B) :
  keeps I c -> (forall a, keeps I (k a)) -> keeps I (bind c k).
Proof. intros Hc Hk. apply (hoare_bind I c k (fun _ => I)); assumption. Qed.

Lemma keeps_ret {A : Type} (I : Session -> Prop) (a : A) : keeps I (ret a).
Proof. intros s Hs. exact Hs. Qed.

Lemma keeps_raise {A : Type} (I : Session -> Prop) (e : Exn) :
  is_retry e = false -> keeps I (@raise A e).
Proof. intros He s Hs. split; assumption. Qed.

Lemma keeps_emit (id : Z) (ev : Event) :
  is_enqueue ev = false -> keeps (Known id) (emit ev).
Proof.
  intros Hev s (Hp & Hv & Hs & Ht). unfold emit.
  repeat split; simpl; try assumption.
  rewrite List.filter_app, Ht. simpl. rewrite Hev. reflexivity.
Qed.

Lemma keeps_query (env : Env) {A : Type} (id : Z) (f : DB -> A) :
  keeps (Known id) (query env f).
Proof.
  intros s Hs. rewrite query_clean by apply Hs. exact Hs.
Qed.

Lemma episode_ids_update (id : Z) (f : Episode -> Episode) (d : DB) :
  (forall e, ep_id (f e) = ep_id e) ->
  episode_ids (update_episode id f d) = episode_ids d.
Proof.
  intros Hf. unfold episode_ids, update_episode; simpl.
  rewrite List.map_map. apply List.map_ext.
  intros e. destruct (ep_id e =? id); [apply Hf | reflexivity].
Qed.

Lemma keeps_update (id id' : Z) (f : Episode -> Episode) :
  (forall e, ep_id (f e) = ep_id e) ->
  keeps (Known id) (write (update_episode id' f)).
Proof.
  intros Hf s (Hp & Hv & Hs & Ht). unfold write.
  repeat split; simpl; try assumption.
  rewrite episode_ids_update by exact Hf. exact Hv.
Qed.

Lemma keeps_commit (id : Z) : keeps (Known id) commit.
Proof.
  intros s (Hp & Hv & Hs & Ht). rewrite commit_clean by exact Hp.
  repeat split; simpl; assumption.
Qed.

Lemma find_episode_known (id : Z) (d : DB) :
  In id (episode_ids d) <-> exists e, find_episode id d = Some e.
Proof.
  unfold episode_ids, find_episode, first_where. split.
  - intros H. apply List.in_map_iff in H. destruct H as (e & He & Hin).
    destruct (List.find (fun x => ep_id x =? id) (episodes d)) as [x|] eqn:F.
    + exists x. reflexivity.
    + exfalso. apply (List.find_none _ _ F e) in Hin.
      rewrite He, Z.eqb_refl in Hin. discriminate Hin.
  - intros (e & He). apply List.find_some in He. destruct He as [Hin He].
    apply List.in_map_iff. exists e. split; [lia | exact Hin].
Qed.

(** *** The fan-out touches the queue only *)

Lemma with_digest_queue_twice (q1 q2 : list DailyDigestQueue) (d : DB) :
  with_digest_queue q2 (with_digest_queue q1 d) = with_digest_queue q2 d.
Proof. reflexivity. Qed.

Lemma query_queue_only (env : Env) {A : Type} (f : DB -> A) (s : Session) :
  exists a q p,
    query env f s
    = (inr a, mkSession (with_digest_queue q (view s)) p (saved s) (trace s)).
Proof.
  unfold query, bind, flush, read, ret. destruct (autoflush env); simpl.
  - eexists _, _, _. reflexivity.
  - exists (f (view s)), (digest_queue (view s)), (pending s).
    rewrite with_digest_queue_id. destruct s; reflexivity.
Qed.

Lemma fan_out_loop (env : Env) (episode : Episode) (subs : list Subscription) :
  forall s : Session,
  exists q p,
    for_each subs
      (fun sub =>
         bind
           (query env (fun d =>
              first_where
                (fun x => (dq_user_id x =? sub_user_id sub)
                          && (dq_episode_id x =? ep_id episode))
                (digest_queue d)))
           (fun existing =>
              match existing with
              | Some _ => ret tt
              | None => add_queue_item (sub_user_id sub) (ep_id episode)
              end)) s
    = (inr tt, mkSession (with_digest_queue q (view s)) p (saved s) (trace s)).
Proof.
  match goal with |- context [for_each subs ?b] => set (body := b) end.
  induction subs as [|sub rest IH]; intros s.
  - exists (digest_queue (view s)), (pending s).
    simpl. unfold ret. rewrite with_digest_queue_id. destruct s; reflexivity.
  - cbn [for_each]. unfold bind at 1. unfold body at 1. unfold bind at 1.
    match goal with
    | |- context [query env ?f s] =>
        destruct (query_queue_only env f s) as (a & q1 & p1 & Hq); rewrite Hq
    end.
    destruct a as [found|]; [unfold ret at 1 | unfold add_queue_item at 1];
      cbn [view pending saved trace];
      match goal with
      | |- context [for_each rest body ?s1] =>
          destruct (IH s1) as (q2 & p2 & H2); rewrite H2
      end;
      cbn [view pending saved trace]; rewrite with_digest_queue_twice;
      eexists _, _; reflexivity.
Qed.

Lemma queue_for_subscribers_effect (env : Env) (episode : Episode) (s : Session) :
  exists q,
    Tasks.queue_for_subscribers env episode s
    = (inr tt,
       mkSession (with_digest_queue q (view s)) []
         (with_digest_queue q (view s)) (trace s)).
Proof.
  unfold Tasks.queue_for_subscribers. unfold bind at 1.
  match goal with
  | |- context [query env ?f s] =>
      destruct (query_queue_only env f s) as (subs & q1 & p1 & Hq); rewrite Hq
  end.
  unfold bind at 1.
  match goal with
  | |- context [for_each subs ?body ?s1] =>
      destruct (fan_out_loop env episode subs s1) as (q2 & p2 & H2)
  end.
  rewrite H2. cbn [view pending saved trace]. rewrite with_digest_queue_twice.
  unfold commit, bind, flush. cbn [view pending saved trace].
  rewrite with_digest_queue_twice. eexists. reflexivity.
Qed.

Lemma keeps_queue_for_subscribers (env : Env) (id : Z) (episode : Episode) :
  keeps (Known id) (Tasks.queue_for_subscribers env episode).
Proof.
  intros s (Hp & Hv & Hs & Ht).
  destruct (queue_for_subscribers_effect env episode s) as (q & H). rewrite H.
  repeat split; simpl; assumption.
Qed.

(** *** The [try] block keeps the episode known *)

Ltac keeps_step :=
  first
    [ apply keeps_ret
    | apply keeps_raise; reflexivity
    | apply keeps_emit; reflexivity
    | apply keeps_query
    | apply keeps_commit
    | apply keeps_queue_for_subscribers
    | apply keeps_update; intro; reflexivity
    | apply keeps_bind; [|intro]
    | match goal with
      | |- keeps _ (if ?b then _ else _) => destruct b
      | |- keeps _ (match ?x with _ => _ end) => destruct x
      end ].

Lemma keeps_summarize (env : Env) (id : Z) (transcript : string) (n : Z) :
  keeps (Known id) (Summarization.summarize_transcript env transcript n).
Proof.
  unfold Summarization.summarize_transcript, Summarization.chat.
  repeat keeps_step.
Qed.

Lemma keeps_determine_source_type (env : Env) (id episode_id : Z) (ep : Episode) :
  keeps (Known id) (Tasks.determine_source_type env episode_id ep).
Proof. unfold Tasks.determine_source_type. repeat keeps_step. Qed.

Lemma keeps_transcribe (env : Env) (id episode_id : Z) (ep : Episode)
  (source_type : option string) :
  keeps (Known id) (Tasks.transcribe env episode_id ep source_type).
Proof.
  unfold Tasks.transcribe, Tasks.fill_title, Transcription.get_video_title,
    Transcription.process_youtube_episode, Transcription.process_x_spaces,
    Transcription.process_podcast_episode.
  repeat keeps_step.
Qed.

Lemma keeps_process_episode_try (env : Env) (id episode_id : Z) :
  keeps (Known id) (Tasks.process_episode_try env episode_id).
Proof.
  unfold Tasks.process_episode_try.
  repeat first
    [ apply keeps_summarize | apply keeps_determine_source_type
    | apply keeps_transcribe | keeps_step ].
Qed.

(** ** Failure handling of the episode processor *)

Lemma known_start (id : Z) (d : DB) (ep : Episode) :
  find_episode id d = Some ep -> Known id (start d).
Proof.
  intros H. assert (In id (episode_ids d))
    by (apply find_episode_known; exists ep; exact H).
  repeat split; simpl; assumption.
Qed.

(** An attempt that raises found its episode. *)
Lemma try_raises_found (env : Env) (id : Z) (d : DB) (e : Exn) (s' : Session) :
  Tasks.process_episode_try env id (start d) = (inl e, s') ->
  exists ep, find_episode id d = Some ep.
Proof.
  intros H. destruct (find_episode id d) as [ep|] eqn:F; [exists ep; reflexivity|].
  unfold Tasks.process_episode_try, start in H.
  erewrite bind_inr in H by (apply query_clean; reflexivity).
  cbn [view] in H. rewrite F in H. discriminate H.
Qed.

(** Where an attempt that raises leaves the session. *)
Lemma try_raises_known (env : Env) (id : Z) (d : DB) (e : Exn) (s' : Session) :
  Tasks.process_episode_try env id (start d) = (inl e, s') ->
  Known id s' /\ is_retry e = false.
Proof.
  intros H. destruct (try_raises_found env id d e s' H) as (ep & F).
  pose proof (keeps_process_episode_try env id id (start d) (known_start id d ep F))
    as K.
  rewrite H in K. exact K.
Qed.

Lemma mark_failed_eval (env : Env) (id : Z) (f : Episode -> Episode) (s : Session) :
  In id (episode_ids (saved s)) ->
  Tasks.mark_failed env id f s
  = (inr tt,
     mkSession (update_episode id f (saved s)) []
       (update_episode id f (saved s)) (trace s)).
Proof.
  intros Hin. apply find_episode_known in Hin. destruct Hin as (ep & F).
  unfold Tasks.mark_failed, rollback. unfold bind at 1.
  erewrite bind_inr by (apply query_clean; reflexivity).
  cbn [view]. rewrite F.
  unfold bind, write. cbn [view pending saved trace].
  rewrite commit_clean by reflexivity. reflexivity.
Qed.

(** The handlers of [process_episode_task], after an attempt that raised. *)
Lemma process_episode_task_raises (env : Env) (retries : nat) (id : Z) (d : DB)
  (e : Exn) (s' : Session) :
  Tasks.process_episode_try env id (start d) = (inl e, s') ->
  run (Tasks.process_episode_task env retries id) d
  = match e with
    | NoCaptionsError msg =>
        (inr (Tasks.FailedNoCaptions msg),
         update_episode id
           (fun ep => set_error_message (Some msg) (set_status FAILED ep)) (saved s'),
         trace s')
    | _ =>
        if (retries <? Tasks.max_retries)%nat
        then (inl (Retry (60 * 2 ^ Z.of_nat retries)),
              update_episode id (set_status FAILED) (saved s'),
              (trace s' ++
                 [Enqueue (ProcessEpisode id) (60 * 2 ^ Z.of_nat retries) (S retries)])%list)
        else (inl e, update_episode id (set_status FAILED) (saved s'), trace s')
    end.
Proof.
  intros H. destruct (try_raises_known env id d e s' H) as ((_ & _ & Hs & _) & _).
  unfold start in H.
  unfold run, Tasks.process_episode_task, try_except. rewrite H.
  assert (Hb : (Tasks.max_retries <? S retries)%nat
               = negb (retries <? Tasks.max_retries)%nat).
  { unfold Tasks.max_retries.
    destruct retries as [|[|[|r]]]; reflexivity. }
  destruct e;
    try (erewrite bind_inr by (apply mark_failed_eval; exact Hs);
         unfold retry; rewrite Hb;
         destruct (retries <? Tasks.max_retries)%nat; reflexivity).
  erewrite bind_inr by (apply mark_failed_eval; exact Hs). reflexivity.
Qed.





(** With the language model down on every attempt, the job for episode 2
    is attempted four times, with countdowns of 60, 120 and 240 seconds,
    and ends with the exception, the episode FAILED. *)
Example transient_failure_exhausts_retries :
  let '(d', attempts, r) :=
    Tasks.process_episode_job 10 (fun _ => Fixtures.env_llm_down) 0 2
      Fixtures.db_mixed in
  attempts = 4%nat /\ r = inl ExternalError /\ status_in 2 d' = Some FAILED
  /\ List.map
       (fun n => List.filter is_enqueue
                   (trace_of (run (Tasks.process_episode_task Fixtures.env_llm_down n 2)
                                Fixtures.db_mixed)))
       [0%nat; 1%nat; 2%nat; 3%nat]
     = [[Enqueue (ProcessEpisode 2) 60 1]; [Enqueue (ProcessEpisode 2) 120 2];
        [Enqueue (ProcessEpisode 2) 240 3]; []].
Proof. vm_compute. repeat split; reflexivity. Qed.

(** ** Short-circuit of the episode processor *)

Lemma keeps_hoare {A : Type} (I : Session -> Prop) (c : M A) :
  keeps I c -> hoare I c (fun _ => I) (fun _ _ => True).
Proof.
  intros K. apply (hoare_weaken I I c _ (fun _ => I) _ (fun e s => I s /\ is_retry e = false));
    auto.
Qed.

(** The last steps of a successful attempt leave the episode COMPLETED in
    the committed database. *)
Lemma completion_committed (env : Env) (id : Z) (ep : Episode) (summary : string) :
  hoare (Known id)
    (bind
       (write (update_episode id
                 (fun e => set_processed_at (Some (utcnow env))
                             (set_status COMPLETED (set_summary (Some summary) e)))))
       (fun _ => bind commit
          (fun _ => bind (Tasks.queue_for_subscribers env ep)
             (fun _ => ret (Tasks.Completed id)))))
    (fun _ s => status_in id (saved s) = Some COMPLETED)
    (fun _ _ => True).
Proof.
  intros s (Hp & Hv & Hs & Ht).
  unfold bind at 1. unfold write. unfold bind at 1.
  rewrite commit_clean by exact Hp. cbn [view pending saved trace].
  unfold bind at 1.
  match goal with
  | |- context [Tasks.queue_for_subscribers env ep ?s1] =>
      destruct (queue_for_subscribers_effect env ep s1) as (q & H); rewrite H
  end.
  unfold ret. cbn [view pending saved trace].
  apply find_episode_known in Hv. destruct Hv as (e & He).
  unfold status_in.
  change (find_episode id (with_digest_queue q ?v)) with (find_episode id v).
  rewrite find_update_episode by reflexivity. rewrite He. reflexivity.
Qed.

Lemma process_episode_try_completed (env : Env) (id : Z) :
  hoare (Known id) (Tasks.process_episode_try env id)
    (fun r s => forall i, r = Tasks.Completed i ->
                          status_in id (saved s) = Some COMPLETED)
    (fun _ _ => True).
Proof.
  unfold Tasks.process_episode_try.
  apply (hoare_bind (Known id) _ _ (fun _ => Known id));
    [apply keeps_hoare, keeps_query | intros found].
  destruct found as [episode|]; [|intros s _ i Hi; discriminate Hi].
  destruct (status_eqb (ep_status episode) COMPLETED);
    [intros s _ i Hi; discriminate Hi|].
  apply (hoare_bind (Known id) _ _ (fun _ => Known id));
    [apply keeps_hoare, keeps_update; reflexivity | intros _].
  apply (hoare_bind (Known id) _ _ (fun _ => Known id));
    [apply keeps_hoare, keeps_commit | intros _].
  apply (hoare_bind (Known id) _ _ (fun _ => Known id));
    [apply keeps_hoare, keeps_determine_source_type | intros source_type].
  apply (hoare_bind (Known id) _ _ (fun _ => Known id));
    [apply keeps_hoare, keeps_transcribe | intros transcript].
  apply (hoare_bind (Known id) _ _ (fun _ => Known id));
    [apply keeps_hoare, keeps_update; reflexivity | intros _].
  apply (hoare_bind (Known id) _ _ (fun _ => Known id));
    [apply keeps_hoare, keeps_summarize | intros summary].
  eapply hoare_weaken;
    [apply (completion_committed env id episode summary) | auto ..].
Qed.

(** *** One cycle per completed attempt *)

Lemma silent_bind {A B : Type} (c : M A) (k : A -> M B) :
  silent c -> (forall a, silent (k a)) -> silent (bind c k).
Proof.
  intros Hc Hk s. unfold bind. specialize (Hc s).
  destruct (c s) as [[e|a] s']; simpl in *; [exact Hc|].
  rewrite (Hk a s'). exact Hc.
Qed.

Lemma silent_query (env : Env) {A : Type} (f : DB -> A) : silent (query env f).
Proof.
  intros s. destruct (query_queue_only env f s) as (a & q & p & H).
  rewrite H. reflexivity.
Qed.

Lemma silent_commit : silent commit.
Proof. intros s. reflexivity. Qed.

Lemma silent_queue_for_subscribers (env : Env) (ep : Episode) :
  silent (Tasks.queue_for_subscribers env ep).
Proof.
  intros s. destruct (queue_for_subscribers_effect env ep s) as (q & H).
  rewrite H. reflexivity.
Qed.

Ltac silent_step :=
  first
    [ apply silent_query
    | apply silent_commit
    | apply silent_queue_for_subscribers
    | apply silent_bind; [|intro]
    | match goal with
      | |- silent (if ?b then _ else _) => destruct b
      | |- silent (match ?x with _ => _ end) => destruct x
      end
    | (intros ?; reflexivity) ].

Lemma silent_determine_source_type (env : Env) (id : Z) (ep : Episode) :
  silent (Tasks.determine_source_type env id ep).
Proof. unfold Tasks.determine_source_type. repeat silent_step. Qed.

Lemma hoare_silent {A : Type} (R : list Event -> Prop) (c : M A) :
  silent c ->
  hoare (fun s => R (trace s)) c (fun _ s => R (trace s)) (fun _ _ => True).
Proof.
  intros Hc s Hs. specialize (Hc s).
  destruct (c s) as [[e|a] s']; simpl in *; [exact I | rewrite Hc; exact Hs].
Qed.

(** A transcription that returns has made one transcription call. *)
Lemma transcribe_one_call (env : Env) (id : Z) (ep : Episode)
  (source_type : option string) :
  hoare (fun s => cycle_calls (trace s) = [])
    (Tasks.transcribe env id ep source_type)
    (fun _ s => exists ev, is_transcription ev = true
                           /\ cycle_calls (trace s) = [ev])
    (fun _ _ => True).
Proof.
  intros s Hs.
  unfold Tasks.transcribe, Tasks.fill_title, Transcription.get_video_title,
    Transcription.process_youtube_episode, Transcription.process_x_spaces,
    Transcription.process_podcast_episode, commit, flush, bind, emit, ret, raise,
    write.
  repeat match goal with
    | |- context [if ?b then _ else _] => destruct b
    | |- context [match ?x with _ => _ end] =>
        lazymatch x with
        | context [trace] => fail
        | _ => destruct x
        end
    end;
    cbn [view pending saved trace]; trivial;
    (eexists; split;
     [| unfold cycle_calls in *; rewrite ?List.filter_app, Hs; reflexivity];
     reflexivity).
Qed.

(** A summarisation that returns has made one call to the language model. *)
Lemma summarize_one_call (env : Env) (transcript : string) (n : Z) (ev : Event) :
  hoare (fun s => cycle_calls (trace s) = [ev])
    (Summarization.summarize_transcript env transcript n)
    (fun _ s => exists prompt,
                  cycle_calls (trace s) = [ev; ChatCompletion prompt 2000])
    (fun _ _ => True).
Proof.
  intros s Hs.
  unfold Summarization.summarize_transcript, Summarization.chat, bind, emit, ret,
    raise.
  destruct (chat_completion env _ 2000); cbn [view pending saved trace]; trivial.
  eexists. unfold cycle_calls in *. rewrite List.filter_app, Hs. reflexivity.
Qed.

(** An attempt that returns [Completed] has made exactly one transcription
    call followed by one summarisation call. *)
Lemma process_episode_try_one_cycle (env : Env) (id : Z) :
  hoare (fun s => cycle_calls (trace s) = [])
    (Tasks.process_episode_try env id)
    (fun r s => forall i, r = Tasks.Completed i ->
                          exists ev prompt,
                            is_transcription ev = true
                            /\ cycle_calls (trace s)
                               = [ev; ChatCompletion prompt 2000])
    (fun _ _ => True).
Proof.
  unfold Tasks.process_episode_try.
  eapply hoare_bind;
    [apply (hoare_silent (fun t => cycle_calls t = [])), silent_query
    | intros found].
  destruct found as [episode|]; [|intros s _ i Hi; discriminate Hi].
  destruct (status_eqb (ep_status episode) COMPLETED);
    [intros s _ i Hi; discriminate Hi|].
  eapply hoare_bind;
    [apply (hoare_silent (fun t => cycle_calls t = [])); intros ?; reflexivity
    | intros ?; cbv beta].
  eapply hoare_bind;
    [apply (hoare_silent (fun t => cycle_calls t = [])), silent_commit
    | intros ?; cbv beta].
  eapply hoare_bind;
    [apply (hoare_silent (fun t => cycle_calls t = [])),
       silent_determine_source_type
    | intros source_type].
  eapply hoare_bind; [apply transcribe_one_call | intros transcript].
  intros s (ev & Hev & Hs). revert s Hs.
  change (hoare (fun s => cycle_calls (trace s) = [ev])
            (bind (write (update_episode id (set_transcript (Some transcript))))
               (fun _ =>
                  bind (Summarization.summarize_transcript env transcript
                          Summarization.default_max_chars)
                    (fun summary =>
                       bind (write (update_episode id
                                      (fun e => set_processed_at (Some (utcnow env))
                                                  (set_status COMPLETED
                                                     (set_summary (Some summary) e)))))
                         (fun _ => bind commit
                            (fun _ => bind (Tasks.queue_for_subscribers env episode)
                               (fun _ => ret (Tasks.Completed id)))))))
            (fun r s => forall i, r = Tasks.Completed i ->
                                  exists ev0 prompt,
                                    is_transcription ev0 = true
                                    /\ cycle_calls (trace s)
                                       = [ev0; ChatCompletion prompt 2000])
            (fun _ _ => True)).
  eapply hoare_bind;
    [apply (hoare_silent (fun t => cycle_calls t = [ev])); intros ?; reflexivity
    | intros ?; cbv beta].
  eapply hoare_bind; [apply summarize_one_call | intros summary].
  intros s (prompt & Hs). revert s Hs.
  change (hoare (fun s => cycle_calls (trace s) = [ev; ChatCompletion prompt 2000])
            (bind (write (update_episode id
                            (fun e => set_processed_at (Some (utcnow env))
                                        (set_status COMPLETED
                                           (set_summary (Some summary) e)))))
               (fun _ => bind commit
                  (fun _ => bind (Tasks.queue_for_subscribers env episode)
                     (fun _ => ret (Tasks.Completed id)))))
            (fun r s => forall i, r = Tasks.Completed i ->
                                  exists ev0 prompt0,
                                    is_transcription ev0 = true
                                    /\ cycle_calls (trace s)
                                       = [ev0; ChatCompletion prompt0 2000])
            (fun _ _ => True)).
  eapply hoare_weaken;
    [apply (hoare_silent (fun t => cycle_calls t = [ev; ChatCompletion prompt 2000]));
     repeat silent_step
    | auto | | auto].
  intros r s Hs i _. exists ev, prompt. split; [exact Hev | exact Hs].
Qed.

(** C2, as first stated, fails: an invocation that finds its episode in
    PROCESSING is not a no-op.  Episode 2 is in PROCESSING; the processor
    fetches its captions, calls the language model and leaves it
    COMPLETED. *)
Lemma processing_episode_is_processed :
  let o := run (Tasks.process_episode_task Fixtures.env_ok 0 2) Fixtures.db_mixed in
  status_in 2 Fixtures.db_mixed = Some PROCESSING
  /\ List.filter is_cycle_call (trace_of o)
     = [FetchCaptions "xyz12345678";
        ChatCompletion "<summary prompt>transcript text</summary prompt>" 2000]
  /\ status_in 2 (db_of o) = Some COMPLETED
  /\ ~ (List.filter is_cycle_call (trace_of o) = [] /\ db_of o = Fixtures.db_mixed).
Proof.
  cbv zeta. split; [reflexivity|]. split; [reflexivity|]. split; [reflexivity|].
  intros [H _]. vm_compute in H. discriminate H.
Qed.

(** C2, amended.  An invocation that finds its episode COMPLETED makes no
    call and leaves the database as it was.  An invocation that returns
    [Completed] has made one transcription call and one summarisation call
    and leaves the episode COMPLETED, so that any invocation that starts
    after it is such a no-op: the two together make exactly one
    transcription and summarisation cycle. *)
Theorem completed_episode_short_circuits
  (env env' : Env) (retries retries' : nat) (episode_id : Z) (d : DB) :
  (forall ep,
     find_episode episode_id d = Some ep ->
     ep_status ep = COMPLETED ->
     run (Tasks.process_episode_task env retries episode_id) d
     = (inr Tasks.AlreadyCompleted, d, []))
  /\ (forall i,
        result_of (run (Tasks.process_episode_task env retries episode_id) d)
        = inr (Tasks.Completed i) ->
        let o := run (Tasks.process_episode_task env retries episode_id) d in
        (exists ev prompt,
           is_transcription ev = true
           /\ cycle_calls (trace_of o) = [ev; ChatCompletion prompt 2000])
        /\ status_in episode_id (db_of o) = Some COMPLETED
        /\ run (Tasks.process_episode_task env' retries' episode_id) (db_of o)
           = (inr Tasks.AlreadyCompleted, db_of o, [])).
Proof.
  assert (Hnoop : forall world n d0 ep,
             find_episode episode_id d0 = Some ep ->
             ep_status ep = COMPLETED ->
             run (Tasks.process_episode_task world n episode_id) d0
             = (inr Tasks.AlreadyCompleted, d0, [])).
  { intros world n d0 ep Hf Hst.
    eapply run_is;
      [unfold Tasks.process_episode_task, try_except, Tasks.process_episode_try;
       erewrite bind_inr by (apply query_clean; reflexivity);
       cbn [view]; rewrite Hf, Hst; reflexivity
      | reflexivity ..]. }
  split; [apply Hnoop|].
  intros i Hres o.
  assert (Hfirst : (exists ev prompt,
                      is_transcription ev = true
                      /\ cycle_calls (trace_of o) = [ev; ChatCompletion prompt 2000])
                   /\ status_in episode_id (db_of o) = Some COMPLETED).
  { subst o.
    destruct (Tasks.process_episode_try env episode_id (start d))
      as [[e|r] s'] eqn:Htry.
    - rewrite (process_episode_task_raises env retries episode_id d e s' Htry)
        in Hres.
      destruct e; try destruct (retries <? Tasks.max_retries)%nat;
        discriminate Hres.
    - destruct (find_episode episode_id d) as [ep|] eqn:F.
      + pose proof (process_episode_try_completed env episode_id (start d)
                      (known_start episode_id d ep F)) as Hdone.
        pose proof (process_episode_try_one_cycle env episode_id (start d) eq_refl)
          as Hcycle.
        rewrite Htry in Hdone, Hcycle.
        unfold start in Htry.
        unfold run, Tasks.process_episode_task, try_except in Hres |- *.
        rewrite Htry in Hres |- *.
        unfold result_of in Hres; cbn [fst] in Hres.
        unfold db_of, trace_of; cbn [fst snd].
        injection Hres as ->.
        split; [apply (Hcycle i eq_refl) | apply (Hdone i eq_refl)].
      + unfold Tasks.process_episode_try, start in Htry.
        erewrite bind_inr in Htry by (apply query_clean; reflexivity).
        cbn [view] in Htry. rewrite F in Htry.
        unfold run, Tasks.process_episode_task, try_except,
          Tasks.process_episode_try in Hres.
        erewrite bind_inr in Hres by (apply query_clean; reflexivity).
        cbn [view] in Hres. rewrite F in Hres. discriminate Hres. }
  destruct Hfirst as [Hcycle Hst].
  split; [exact Hcycle|]. split; [exact Hst|].
  unfold status_in in Hst.
  destruct (find_episode episode_id (db_of o)) as [ep1|] eqn:F1;
    [|discriminate Hst].
  apply (Hnoop env' retries' (db_of o) ep1 F1). simpl in Hst. congruence.
Qed.

(** Episode 1 is COMPLETED: its processing job is a no-op.  Episode 2 is
    completed by a first job; a second job for it is a no-op. *)
Lemma completed_episode_short_circuits_witness :
  (find_episode 1 Fixtures.db_mixed = Some Fixtures.ep_done
   /\ ep_status Fixtures.ep_done = COMPLETED
   /\ run (Tasks.process_episode_task Fixtures.env_ok 0 1) Fixtures.db_mixed
      = (inr Tasks.AlreadyCompleted, Fixtures.db_mixed, []))
  /\ (let o := run (Tasks.process_episode_task Fixtures.env_ok 0 2)
                 Fixtures.db_mixed in
      result_of o = inr (Tasks.Completed 2)
      /\ run (Tasks.process_episode_task Fixtures.env_ok 1 2) (db_of o)
         = (inr Tasks.AlreadyCompleted, db_of o, [])).
Proof.
  split.
  - split; [reflexivity|]. split; [reflexivity|].
    exact (proj1 (completed_episode_short_circuits Fixtures.env_ok Fixtures.env_ok
                    0 0 1 Fixtures.db_mixed)
             Fixtures.ep_done eq_refl eq_refl).
  - cbv zeta. split; [reflexivity|].
    exact (proj2 (proj2 (proj2 (completed_episode_short_circuits Fixtures.env_ok
                                  Fixtures.env_ok 0 1 2 Fixtures.db_mixed)
                           2 eq_refl))).
Defined.

(** ** The fan-out keeps the queue free of duplicates *)



Lemma NoDup_snoc {A : Type} (l : list A) (a : A) :
  NoDup l -> ~ In a l -> NoDup (l ++ [a]).
Proof.
  induction l as [|x l IH]; intros Hnd Hnin; simpl.
  - constructor; [intros [] | constructor].
  - inversion Hnd as [|y l' Hx Hl]; subst. constructor.
    + intros Hin. apply List.in_app_or in Hin. destruct Hin as [Hin|[Hin|[]]].
      * exact (Hx Hin).
      * apply Hnin. left. symmetry. exact Hin.
    + apply IH; [exact Hl | intros Hin; apply Hnin; right; exact Hin].
Qed.




(** * Further properties *)

(** ** Strings *)

Lemma length_app (a b : string) :
  String.length (a ++ b) = (String.length a + String.length b)%nat.
Proof. induction a as [|c a IH]; simpl; [reflexivity | rewrite IH; reflexivity]. Qed.

Lemma len_app (a b : string) : PyStr.len (a ++ b) = PyStr.len a + PyStr.len b.
Proof. unfold PyStr.len. rewrite length_app. lia. Qed.

Lemma app_assoc_str (a b c : string) : (a ++ b) ++ c = a ++ b ++ c.
Proof. induction a as [|x a IH]; simpl; [reflexivity | rewrite IH; reflexivity]. Qed.

Lemma app_empty_r (a : string) : a ++ EmptyString = a.
Proof. induction a as [|x a IH]; simpl; [reflexivity | rewrite IH; reflexivity]. Qed.

Lemma of_rev_app (cur : list ascii) (a b : string) :
  PyStr.of_rev cur (a ++ b) = PyStr.of_rev cur a ++ b.
Proof.
  revert a. induction cur as [|c cur IH]; intros a; simpl; [reflexivity|].
  rewrite <- IH. reflexivity.
Qed.

Lemma occurs_app (c : ascii) (a b : string) :
  occurs c (a ++ b) = occurs c a || occurs c b.
Proof.
  induction a as [|x a IH]; simpl; [reflexivity|].
  rewrite IH, orb_assoc. reflexivity.
Qed.

(** A text without the separator is not split. *)
Lemma contains_tail (sep : string) (x : ascii) (s : string) :
  PyStr.contains sep (String x s) = false ->
  String.prefix sep (String x s) = false /\ PyStr.contains sep s = false.
Proof.
  cbn [PyStr.contains]. intros H. apply orb_false_elim in H. exact H.
Qed.

Lemma split_without (sep s : string) :
  PyStr.contains sep s = false ->
  forall cur, PyStr.split_aux sep O cur s = [PyStr.of_rev cur s].
Proof.
  induction s as [|x s IH]; intros H cur; [reflexivity|].
  apply contains_tail in H. destruct H as [Hp Hs].
  cbn [PyStr.split_aux]. rewrite Hp. rewrite IH by exact Hs. reflexivity.
Qed.

(** A separator that lacks the character [c] cannot reach across it. *)
Lemma prefix_app_char (sep a b : string) (c : ascii) :
  occurs c sep = false ->
  String.prefix sep (a ++ String c b) = String.prefix sep a.
Proof.
  revert a. induction sep as [|x sep IH]; intros a Hc.
  - rewrite !prefix_empty. reflexivity.
  - simpl in Hc. apply orb_false_elim in Hc. destruct Hc as [Hx Hsep].
    destruct a as [|y a]; cbn [String.append String.prefix].
    + destruct (ascii_dec x c) as [->|]; [|reflexivity].
      rewrite Ascii.eqb_refl in Hx. discriminate Hx.
    + destruct (ascii_dec x y); [apply IH, Hsep | reflexivity].
Qed.

Lemma contains_app_char (sep a b : string) (c x : ascii) (sep' : string) :
  sep = String x sep' ->
  occurs c sep = false ->
  PyStr.contains sep (a ++ String c b) = PyStr.contains sep a || PyStr.contains sep b.
Proof.
  intros Hsep Hc. induction a as [|y a IH].
  - cbn [String.append PyStr.contains].
    replace (String.prefix sep EmptyString) with false by (subst sep; reflexivity).
    replace (String.prefix sep (String c b)) with false.
    + reflexivity.
    + subst sep. cbn [String.prefix]. simpl in Hc.
      apply orb_false_elim in Hc. destruct Hc as [Hx _].
      destruct (ascii_dec x c) as [->|]; [|reflexivity].
      rewrite Ascii.eqb_refl in Hx. discriminate Hx.
  - cbn [String.append PyStr.contains].
    change (String y (a ++ String c b)) with (String y a ++ String c b).
    rewrite (prefix_app_char sep (String y a) b c Hc), IH, orb_assoc. reflexivity.
Qed.

(** Splitting at the first occurrence of a one-character separator. *)
Lemma split_char_first (c : ascii) (a b : string) :
  occurs c a = false ->
  forall cur,
    PyStr.split_aux (String c EmptyString) O cur (a ++ String c b)
    = PyStr.of_rev cur a :: PyStr.split_aux (String c EmptyString) O [] b.
Proof.
  induction a as [|y a IH]; intros Ha cur.
  - cbn [String.append PyStr.split_aux String.prefix].
    destruct (ascii_dec c c) as [_|N]; [|contradiction N; reflexivity].
    rewrite prefix_empty. reflexivity.
  - simpl in Ha. apply orb_false_elim in Ha. destruct Ha as [Hy Ha].
    cbn [String.append PyStr.split_aux String.prefix].
    destruct (ascii_dec c y) as [->|].
    + rewrite Ascii.eqb_refl in Hy. discriminate Hy.
    + rewrite IH by exact Ha. reflexivity.
Qed.

Lemma split_aux_nonempty (sep : string) (s : string) :
  forall skip cur, PyStr.split_aux sep skip cur s <> [].
Proof.
  induction s as [|x s IH]; intros skip cur; cbn [PyStr.split_aux].
  - discriminate.
  - destruct skip; [|apply IH].
    destruct (String.prefix sep (String x s)); [discriminate | apply IH].
Qed.

(** The first piece of a split at a one-character separator: a prefix of
    the text without the separator, followed by nothing or by the
    separator. *)
Lemma split_char_head (c : ascii) (s : string) :
  forall cur,
  exists a pieces,
    PyStr.split_aux (String c EmptyString) O cur s = PyStr.of_rev cur a :: pieces
    /\ occurs c a = false
    /\ (s = a \/ exists t, s = a ++ String c t).
Proof.
  induction s as [|y s IH]; intros cur.
  - exists EmptyString, []. repeat split; [left; reflexivity].
  - destruct (Ascii.eqb c y) eqn:E.
    + apply Ascii.eqb_eq in E. subst y.
      exists EmptyString, (PyStr.split_aux (String c EmptyString) O [] s).
      split; [|split; [reflexivity | right; exists s; reflexivity]].
      exact (split_char_first c EmptyString s eq_refl cur).
    + destruct (IH (y :: cur)) as (a & pieces & Hs & Ha & Hrest).
      exists (String y a), pieces. split; [|split].
      * cbn [PyStr.split_aux String.prefix].
        destruct (ascii_dec c y) as [->|]; [rewrite Ascii.eqb_refl in E; discriminate E|].
        exact Hs.
      * simpl. rewrite E, Ha. reflexivity.
      * destruct Hrest as [->|(t & ->)]; [left; reflexivity | right; exists t; reflexivity].
Qed.

Lemma id_chars_contains (id sep : string) (c : ascii) :
  all_chars Transcription.is_id_char id = true ->
  Transcription.is_id_char c = false ->
  occurs c sep = true ->
  PyStr.contains sep id = false.
Proof.
  intros Hid Hc Hsep.
  apply (contains_missing_char sep id c Hsep), id_chars_lack; assumption.
Qed.

(** ** Identity of submitted URLs, continued *)



Lemma alnum_run_app (id rest : string) (c : ascii) :
  all_chars Transcription.is_alnum id = true ->
  Transcription.is_alnum c = false ->
  Transcription.alnum_run (id ++ String c rest) = id.
Proof.
  intros Hid Hc. induction id as [|x id IH]; simpl.
  - rewrite Hc. reflexivity.
  - simpl in Hid. apply andb_prop in Hid. destruct Hid as [Hx Hid].
    rewrite Hx, (IH Hid). reflexivity.
Qed.

Lemma alnum_lack (id : string) (c : ascii) :
  all_chars Transcription.is_alnum id = true ->
  Transcription.is_alnum c = false ->
  occurs c id = false.
Proof.
  intros Hid Hc. induction id as [|x id IH]; [reflexivity|].
  simpl in *. apply andb_prop in Hid. destruct Hid as [Hx Hid].
  rewrite (IH Hid), orb_false_r.
  destruct (Ascii.eqb c x) eqn:E; [|reflexivity].
  apply Ascii.eqb_eq in E. subst x. congruence.
Qed.

(** X2.  The [twitter.com] and [x.com] addresses of one recording, with
    or without a query string, normalise to the same [x.com] URL: for
    every non-empty alphanumeric id and every query string that names no
    YouTube host. *)
Theorem spaces_hosts_agree (id query : string) :
  id <> EmptyString ->
  all_chars Transcription.is_alnum id = true ->
  PyStr.contains "youtube.com" query = false ->
  PyStr.contains "youtu.be" query = false ->
  Identity.normalize_url ("https://twitter.com/i/spaces/" ++ id ++ "?" ++ query)
  = "https://x.com/i/spaces/" ++ id
  /\ Identity.normalize_url ("https://x.com/i/spaces/" ++ id ++ "?" ++ query)
     = "https://x.com/i/spaces/" ++ id.
Proof.
  intros Hne Hid Hq1 Hq2.
  change ("?" ++ query) with (String "?"%char query).
  pose proof (alnum_lack id "."%char Hid eq_refl) as Hdot.
  assert (Hyt : PyStr.contains "youtube.com" (id ++ String "?"%char query) = false).
  { rewrite (contains_app_char "youtube.com" id query "?"%char "y"%char "outube.com"
               eq_refl eq_refl).
    rewrite (contains_missing_char "youtube.com" id "."%char eq_refl Hdot), Hq1.
    reflexivity. }
  assert (Hbe : PyStr.contains "youtu.be" (id ++ String "?"%char query) = false).
  { rewrite (contains_app_char "youtu.be" id query "?"%char "y"%char "outu.be"
               eq_refl eq_refl).
    rewrite (contains_missing_char "youtu.be" id "."%char eq_refl Hdot), Hq2.
    reflexivity. }
  pose proof (alnum_run_app id query "?"%char Hid eq_refl) as Hrun.
  revert Hyt Hbe Hrun. generalize (id ++ String "?"%char query).
  intros tail Hyt Hbe Hrun.
  destruct id as [|c0 id0]; [contradiction Hne; reflexivity|].
  split.
  - unfold Identity.normalize_url.
    replace (PyStr.contains "youtube.com" ("https://twitter.com/i/spaces/" ++ tail))
      with false by (simpl; rewrite Hyt; reflexivity).
    replace (PyStr.contains "youtu.be" ("https://twitter.com/i/spaces/" ++ tail))
      with false by (simpl; rewrite Hbe; reflexivity).
    cbn [orb].
    assert (Hs : Transcription.search_spaces ("https://twitter.com/i/spaces/" ++ tail)
                 = Some (String c0 id0)).
    { simpl. unfold Transcription.spaces_at. simpl. rewrite Hrun. reflexivity. }
    unfold Transcription.is_x_spaces_url. rewrite Hs. reflexivity.
  - unfold Identity.normalize_url.
    replace (PyStr.contains "youtube.com" ("https://x.com/i/spaces/" ++ tail))
      with false by (simpl; rewrite Hyt; reflexivity).
    replace (PyStr.contains "youtu.be" ("https://x.com/i/spaces/" ++ tail))
      with false by (simpl; rewrite Hbe; reflexivity).
    cbn [orb].
    assert (Hs : Transcription.search_spaces ("https://x.com/i/spaces/" ++ tail)
                 = Some (String c0 id0)).
    { simpl. unfold Transcription.spaces_at. simpl. rewrite Hrun. reflexivity. }
    unfold Transcription.is_x_spaces_url. rewrite Hs. reflexivity.
Qed.

Lemma spaces_hosts_agree_witness :
  Identity.normalize_url "https://twitter.com/i/spaces/1AbCdEfGh?s=20"
  = "https://x.com/i/spaces/1AbCdEfGh"
  /\ Identity.normalize_url "https://x.com/i/spaces/1AbCdEfGh?s=20"
     = "https://x.com/i/spaces/1AbCdEfGh".
Proof.
  exact (spaces_hosts_agree "1AbCdEfGh" "s=20" ltac:(discriminate) eq_refl
           eq_refl eq_refl).
Defined.

Lemma prefix_app_mono (p a b : string) :
  String.prefix p a = true -> String.prefix p (a ++ b) = true.
Proof.
  revert a. induction p as [|x p IH]; intros a H.
  - apply prefix_empty.
  - destruct a as [|y a]; [discriminate H|].
    cbn [String.append String.prefix] in *.
    destruct (ascii_dec x y); [apply IH, H | discriminate H].
Qed.

Lemma contains_head (sep s : string) :
  String.prefix sep s = true -> PyStr.contains sep s = true.
Proof. intros H. destruct s; cbn [PyStr.contains]; rewrite H; reflexivity. Qed.

(** What a text lacks, its beginnings lack. *)
Lemma contains_app_false (sep a b : string) :
  PyStr.contains sep (a ++ b) = false -> PyStr.contains sep a = false.
Proof.
  induction a as [|y a IH]; intros H.
  - destruct (String.prefix sep EmptyString) eqn:P.
    + apply (prefix_app_mono sep EmptyString b) in P.
      apply contains_head in P. congruence.
    + cbn [PyStr.contains]. rewrite P. reflexivity.
  - cbn [String.append] in H. apply contains_tail in H. destruct H as [Hp Hs].
    cbn [PyStr.contains]. rewrite (IH Hs), orb_false_r.
    destruct (String.prefix sep (String y a)) eqn:P; [|reflexivity].
    apply (prefix_app_mono sep (String y a) b) in P.
    cbn [String.append] in P. congruence.
Qed.

Lemma strip_prefix_app (p a b r : string) :
  Transcription.strip_prefix p a = Some r ->
  Transcription.strip_prefix p (a ++ b) = Some (r ++ b).
Proof.
  revert a. induction p as [|x p IH]; intros a H.
  - simpl in H. injection H as <-. reflexivity.
  - destruct a as [|y a]; [discriminate H|].
    cbn [String.append Transcription.strip_prefix] in *.
    destruct (Ascii.eqb x y); [apply IH, H | discriminate H].
Qed.

Lemma alnum_run_app_nonempty (r b : string) :
  Transcription.alnum_run r <> EmptyString ->
  Transcription.alnum_run (r ++ b) <> EmptyString.
Proof.
  destruct r as [|c r]; simpl; [congruence|].
  destruct (Transcription.is_alnum c); [discriminate | congruence].
Qed.

Lemma spaces_at_app (a b : string) :
  Transcription.spaces_at (a ++ b) = None -> Transcription.spaces_at a = None.
Proof.
  unfold Transcription.spaces_at. intros H.
  destruct (Transcription.strip_prefix "twitter.com/i/spaces/" a) as [r|] eqn:T.
  - rewrite (strip_prefix_app _ a b r T) in H.
    destruct (Transcription.alnum_run r) eqn:R; [reflexivity|].
    assert (N : Transcription.alnum_run (r ++ b) <> EmptyString)
      by (apply alnum_run_app_nonempty; rewrite R; discriminate).
    cbv beta iota zeta in H.
    destruct (Transcription.alnum_run (r ++ b)); [contradiction N; reflexivity|].
    discriminate H.
  - destruct (Transcription.strip_prefix "x.com/i/spaces/" a) as [r|] eqn:X;
      [|reflexivity].
    destruct (Transcription.alnum_run r) eqn:R; [reflexivity|].
    exfalso.
    assert (N : Transcription.alnum_run (r ++ b) <> EmptyString)
      by (apply alnum_run_app_nonempty; rewrite R; discriminate).
    rewrite (strip_prefix_app _ a b r X) in H.
    destruct a as [|y a]; [discriminate X|].
    cbn [Transcription.strip_prefix] in X, T.
    destruct (Ascii.eqb "x" y) eqn:E; [|discriminate X].
    apply Ascii.eqb_eq in E. subst y.
    cbn [String.append Transcription.strip_prefix] in H.
    change (Ascii.eqb "t" "x") with false in H.
    cbv beta iota zeta in H.
    destruct (Transcription.alnum_run (r ++ b)); [contradiction N; reflexivity|].
    discriminate H.
Qed.

Lemma search_spaces_app (a b : string) :
  Transcription.search_spaces (a ++ b) = None ->
  Transcription.search_spaces a = None.
Proof.
  induction a as [|y a IH]; intros H.
  - destruct (Transcription.spaces_at EmptyString) eqn:S; [discriminate S|].
    reflexivity.
  - cbn [String.append Transcription.search_spaces] in *.
    destruct (Transcription.spaces_at (String y (a ++ b))) eqn:S; [discriminate H|].
    rewrite (spaces_at_app (String y a) b S). apply IH, H.
Qed.

(** X3.  For a URL that names no YouTube host and is no X Spaces
    address, the canonical form is the part of the URL before its first
    question mark: it holds no question mark, the URL is the canonical
    form alone or followed by a query string, and normalising the
    canonical form gives it back. *)
Theorem other_url_query_stripped (url : string) :
  PyStr.contains "youtube.com" url = false ->
  PyStr.contains "youtu.be" url = false ->
  Transcription.is_x_spaces_url url = false ->
  occurs "?" (Identity.normalize_url url) = false
  /\ (url = Identity.normalize_url url
      \/ exists query, url = Identity.normalize_url url ++ "?" ++ query)
  /\ Identity.normalize_url (Identity.normalize_url url) = Identity.normalize_url url.
Proof.
  intros Hyt Hbe Hsp.
  assert (Hn : Identity.normalize_url url = PyStr.first (PyStr.split "?" url)).
  { unfold Identity.normalize_url. rewrite Hyt, Hbe, Hsp. reflexivity. }
  unfold PyStr.split in Hn.
  destruct (split_char_head "?"%char url []) as (a & pieces & Hs & Ha & Hrest).
  rewrite Hs in Hn. cbn [PyStr.first List.hd PyStr.of_rev] in Hn.
  rewrite Hn. split; [exact Ha|]. split.
  - destruct Hrest as [->|(t & ->)]; [left; reflexivity | right; exists t; reflexivity].
  - assert (Hpre : exists rest, url = a ++ rest).
    { destruct Hrest as [->|(t & ->)];
        [exists EmptyString; rewrite app_empty_r; reflexivity
        | exists (String "?"%char t); reflexivity]. }
    destruct Hpre as (rest & ->).
    unfold Identity.normalize_url.
    rewrite (contains_app_false _ a rest Hyt), (contains_app_false _ a rest Hbe).
    cbn [orb].
    assert (Hsa : Transcription.is_x_spaces_url a = false).
    { unfold Transcription.is_x_spaces_url in *.
      destruct (Transcription.search_spaces (a ++ rest)) eqn:S; [discriminate Hsp|].
      rewrite (search_spaces_app a rest S). reflexivity. }
    rewrite Hsa. unfold PyStr.split.
    rewrite (split_missing_char "?" a "?"%char eq_refl Ha). reflexivity.
Qed.

Lemma other_url_query_stripped_witness :
  occurs "?" (Identity.normalize_url "https://pod.example/ep1.mp3?token=abc") = false
  /\ ("https://pod.example/ep1.mp3?token=abc"
      = Identity.normalize_url "https://pod.example/ep1.mp3?token=abc"
      \/ exists query,
           "https://pod.example/ep1.mp3?token=abc"
           = Identity.normalize_url "https://pod.example/ep1.mp3?token=abc"
               ++ "?" ++ query)
  /\ Identity.normalize_url (Identity.normalize_url "https://pod.example/ep1.mp3?token=abc")
     = Identity.normalize_url "https://pod.example/ep1.mp3?token=abc".
Proof.
  exact (other_url_query_stripped "https://pod.example/ep1.mp3?token=abc"
           eq_refl eq_refl eq_refl).
Defined.

(** ** Video ids *)

Lemma strip_prefix_occurs (p s r : string) (c : ascii) :
  Transcription.strip_prefix p s = Some r -> occurs c p = true -> occurs c s = true.
Proof.
  revert s. induction p as [|x p IH]; intros s H Hc; [discriminate Hc|].
  destruct s as [|y s]; [discriminate H|].
  cbn [Transcription.strip_prefix] in H.
  destruct (Ascii.eqb x y) eqn:E; [|discriminate H].
  apply Ascii.eqb_eq in E. subst y.
  cbn [occurs] in *. destruct (Ascii.eqb c x); [reflexivity|].
  simpl in *. apply (IH s H Hc).
Qed.

Lemma spaces_at_needs_dot (s : string) :
  occurs "." s = false -> Transcription.spaces_at s = None.
Proof.
  intros Hs. unfold Transcription.spaces_at.
  destruct (Transcription.strip_prefix "twitter.com/i/spaces/" s) as [r|] eqn:T.
  - rewrite (strip_prefix_occurs _ s r "."%char T eq_refl) in Hs. discriminate Hs.
  - destruct (Transcription.strip_prefix "x.com/i/spaces/" s) as [r|] eqn:X;
      [|reflexivity].
    rewrite (strip_prefix_occurs _ s r "."%char X eq_refl) in Hs. discriminate Hs.
Qed.

Lemma search_spaces_needs_dot (s : string) :
  occurs "." s = false -> Transcription.search_spaces s = None.
Proof.
  induction s as [|y s IH]; intros Hs; cbn [Transcription.search_spaces];
    rewrite (spaces_at_needs_dot _ Hs); [reflexivity|].
  simpl in Hs. apply orb_false_elim in Hs. apply IH, Hs.
Qed.

Lemma take_id_app (id rest : string) :
  all_chars Transcription.is_id_char id = true ->
  Transcription.take_id (String.length id) (id ++ rest) = Some id.
Proof.
  intros Hid. induction id as [|x id IH]; [reflexivity|].
  simpl in Hid. apply andb_prop in Hid. destruct Hid as [Hx Hid].
  cbn [String.length String.append Transcription.take_id].
  rewrite Hx, (IH Hid). reflexivity.
Qed.

(** A literal of the pattern followed by an id. *)
Lemma id_after_literal (lit id rest : string) :
  String.length id = 11%nat ->
  all_chars Transcription.is_id_char id = true ->
  Transcription.id_after lit (lit ++ id ++ rest) = Some id.
Proof.
  intros Hlen Hid. unfold Transcription.id_after.
  assert (Hs : Transcription.strip_prefix lit (lit ++ id ++ rest) = Some (id ++ rest)).
  { induction lit as [|x lit IH]; [reflexivity|].
    cbn [String.append Transcription.strip_prefix].
    rewrite Ascii.eqb_refl. exact IH. }
  rewrite Hs, <- Hlen. apply take_id_app, Hid.
Qed.

(** One step of [re.search]: no alternative matches here. *)
Lemma search_id_skip (lits : list string) (c : ascii) (s : string) :
  List.fold_right
    (fun lit acc => Transcription.first_some (Transcription.id_after lit (String c s)) acc)
    None lits = None ->
  Transcription.search_id lits (String c s) = Transcription.search_id lits s.
Proof. intros H. cbn [Transcription.search_id]. rewrite H. reflexivity. Qed.

(** One step of [re.search]: an alternative matches here. *)
Lemma search_id_hit (lits : list string) (s id : string) :
  List.fold_right
    (fun lit acc => Transcription.first_some (Transcription.id_after lit s) acc)
    None lits = Some id ->
  Transcription.search_id lits s = Some id.
Proof. intros H. destruct s; cbn [Transcription.search_id]; rewrite H; reflexivity. Qed.

Ltac search_id_walk :=
  cbn [String.append];
  repeat (rewrite search_id_skip by reflexivity);
  apply search_id_hit; cbn [List.fold_right].

(** The id is found in each of the three shapes and in the URL stored for
    an [/embed/] address. *)
Lemma video_id_shapes (id rest : string) :
  String.length id = 11%nat ->
  all_chars Transcription.is_id_char id = true ->
  Transcription.extract_youtube_video_id
    ("https://www.youtube.com/watch?v=" ++ id ++ rest) = Some id
  /\ Transcription.extract_youtube_video_id ("https://youtu.be/" ++ id ++ rest)
     = Some id
  /\ Transcription.extract_youtube_video_id
       ("https://www.youtube.com/embed/" ++ id ++ rest) = Some id
  /\ Transcription.extract_youtube_video_id
       (Identity.normalize_url ("https://www.youtube.com/embed/" ++ id))
     = Some id.
Proof.
  intros Hlen Hid.
  pose proof (id_after_literal "youtube.com/watch?v=" id rest Hlen Hid) as Hw.
  pose proof (id_after_literal "youtu.be/" id rest Hlen Hid) as Hs.
  pose proof (id_after_literal "youtube.com/embed/" id rest Hlen Hid) as He.
  pose proof (id_after_literal "youtube.com/embed/" id EmptyString Hlen Hid) as He0.
  rewrite app_empty_r in He0.
  cbn [String.append] in Hw, Hs, He, He0.
  assert (Hnorm : Identity.normalize_url ("https://www.youtube.com/embed/" ++ id)
                  = "https://youtube.com/watch?v=https://www.youtube.com/embed/" ++ id).
  { unfold Identity.normalize_url.
    replace (PyStr.contains "youtube.com" ("https://www.youtube.com/embed/" ++ id))
      with true by reflexivity.
    cbn [orb].
    replace (PyStr.contains "youtu.be/" ("https://www.youtube.com/embed/" ++ id))
      with false
      by (simpl;
          rewrite (id_chars_contains id "youtu.be/" "/"%char Hid eq_refl eq_refl);
          reflexivity).
    replace (PyStr.contains "v=" ("https://www.youtube.com/embed/" ++ id))
      with false
      by (simpl; rewrite (id_chars_contains id "v=" "="%char Hid eq_refl eq_refl);
          reflexivity).
    reflexivity. }
  rewrite Hnorm. clear Hnorm.
  unfold Transcription.extract_youtube_video_id.
  repeat split.
  - assert (H : Transcription.search_id
                  ["youtube.com/watch?v="; "youtu.be/"; "youtube.com/embed/"]
                  ("https://www.youtube.com/watch?v=" ++ id ++ rest) = Some id)
      by (search_id_walk; rewrite Hw; reflexivity).
    rewrite H. reflexivity.
  - assert (H : Transcription.search_id
                  ["youtube.com/watch?v="; "youtu.be/"; "youtube.com/embed/"]
                  ("https://youtu.be/" ++ id ++ rest) = Some id)
      by (search_id_walk; rewrite Hs; reflexivity).
    rewrite H. reflexivity.
  - assert (H : Transcription.search_id
                  ["youtube.com/watch?v="; "youtu.be/"; "youtube.com/embed/"]
                  ("https://www.youtube.com/embed/" ++ id ++ rest) = Some id)
      by (search_id_walk; rewrite He; reflexivity).
    rewrite H. reflexivity.
  - assert (H : Transcription.search_id
                  ["youtube.com/watch?v="; "youtu.be/"; "youtube.com/embed/"]
                  ("https://youtube.com/watch?v=https://www.youtube.com/embed/" ++ id)
                = Some id)
      by (search_id_walk; rewrite He0; reflexivity).
    rewrite H. reflexivity.
Qed.

(** X4.  [extract_youtube_video_id] finds an eleven-character id in each
    of the three URL shapes, whatever follows the id, and in the URL that
    [normalize_url] stores for an [/embed/] address. *)
Theorem video_id_found_in_every_shape (id rest : string) :
  String.length id = 11%nat ->
  all_chars Transcription.is_id_char id = true ->
  Transcription.extract_youtube_video_id
    ("https://www.youtube.com/watch?v=" ++ id ++ rest) = Some id
  /\ Transcription.extract_youtube_video_id ("https://youtu.be/" ++ id ++ rest)
     = Some id
  /\ Transcription.extract_youtube_video_id
       ("https://www.youtube.com/embed/" ++ id ++ rest) = Some id
  /\ Transcription.extract_youtube_video_id
       (Identity.normalize_url ("https://www.youtube.com/embed/" ++ id))
     = Some id.
Proof. exact (video_id_shapes id rest). Qed.

Lemma video_id_found_in_every_shape_witness :
  Transcription.extract_youtube_video_id
    "https://www.youtube.com/watch?v=dQw4w9WgXcQ&t=42" = Some "dQw4w9WgXcQ"
  /\ Transcription.extract_youtube_video_id "https://youtu.be/dQw4w9WgXcQ?t=42"
     = Some "dQw4w9WgXcQ"
  /\ Transcription.extract_youtube_video_id
       "https://www.youtube.com/embed/dQw4w9WgXcQ?t=42" = Some "dQw4w9WgXcQ"
  /\ Transcription.extract_youtube_video_id
       (Identity.normalize_url "https://www.youtube.com/embed/dQw4w9WgXcQ")
     = Some "dQw4w9WgXcQ".
Proof.
  exact (video_id_found_in_every_shape "dQw4w9WgXcQ" "?t=42" eq_refl eq_refl).
Defined.

Lemma search_spaces_skip (c : ascii) (s : string) :
  Transcription.spaces_at (String c s) = None ->
  Transcription.search_spaces (String c s) = Transcription.search_spaces s.
Proof. intros H. cbn [Transcription.search_spaces]. rewrite H. reflexivity. Qed.

(** A YouTube address followed by an id is no X Spaces address. *)
Ltac no_spaces Hdot :=
  unfold Transcription.is_x_spaces_url; cbn [String.append];
  repeat (rewrite search_spaces_skip by reflexivity);
  rewrite (search_spaces_needs_dot _ Hdot); reflexivity.

(** X5.  The bot and the API give a pasted YouTube address the same
    identity in the [watch?v=] and [youtu.be/] shapes, for every
    eleven-character id; in the [/embed/] shape the bot still reaches the
    canonical URL of the id and the API does not. *)
Theorem bot_and_api_identities (id : string) :
  String.length id = 11%nat ->
  all_chars Transcription.is_id_char id = true ->
  Bot.normalize_url ("https://www.youtube.com/watch?v=" ++ id)
  = inr (Identity.normalize_url ("https://www.youtube.com/watch?v=" ++ id))
  /\ Bot.normalize_url ("https://youtu.be/" ++ id)
     = inr (Identity.normalize_url ("https://youtu.be/" ++ id))
  /\ (forall sha,
        Bot.get_url_hash sha ("https://www.youtube.com/watch?v=" ++ id)
        = inr (Identity.get_url_hash sha ("https://youtu.be/" ++ id)))
  /\ Bot.normalize_url ("https://www.youtube.com/embed/" ++ id)
     = inr ("https://youtube.com/watch?v=" ++ id)
  /\ Identity.normalize_url ("https://www.youtube.com/embed/" ++ id)
     <> "https://youtube.com/watch?v=" ++ id.
Proof.
  intros Hlen Hid.
  pose proof (id_chars_lack id "."%char Hid eq_refl) as Hdot.
  destruct (watch_and_short_shapes_agree id Hid) as (Hw & Hs & Hh).
  destruct (video_id_shapes id EmptyString Hlen Hid) as (Ew & Es & Ee & En).
  rewrite !app_empty_r in Ew, Es, Ee.
  assert (Sw : Transcription.is_x_spaces_url ("https://www.youtube.com/watch?v=" ++ id)
               = false) by no_spaces Hdot.
  assert (Ss : Transcription.is_x_spaces_url ("https://youtu.be/" ++ id) = false)
    by no_spaces Hdot.
  assert (Se : Transcription.is_x_spaces_url ("https://www.youtube.com/embed/" ++ id)
               = false) by no_spaces Hdot.
  assert (Bw : Bot.normalize_url ("https://www.youtube.com/watch?v=" ++ id)
               = inr ("https://youtube.com/watch?v=" ++ id))
    by (unfold Bot.normalize_url; rewrite Sw, Ew; reflexivity).
  assert (Bs : Bot.normalize_url ("https://youtu.be/" ++ id)
               = inr ("https://youtube.com/watch?v=" ++ id))
    by (unfold Bot.normalize_url; rewrite Ss, Es; reflexivity).
  split; [rewrite Bw, Hw; reflexivity|].
  split; [rewrite Bs, Hs; reflexivity|].
  split.
  { intros sha. unfold Bot.get_url_hash, Identity.get_url_hash.
    rewrite Bw, Hs. reflexivity. }
  split; [unfold Bot.normalize_url; rewrite Se, Ee; reflexivity|].
  intros Habs.
  assert (Hl : String.length (Identity.normalize_url
                                ("https://www.youtube.com/embed/" ++ id))
               = String.length ("https://youtube.com/watch?v=" ++ id))
    by (rewrite Habs; reflexivity).
  clear Habs. revert Hl.
  unfold Identity.normalize_url.
  replace (PyStr.contains "youtube.com" ("https://www.youtube.com/embed/" ++ id))
    with true by reflexivity.
  cbn [orb].
  replace (PyStr.contains "youtu.be/" ("https://www.youtube.com/embed/" ++ id))
    with false
    by (simpl; rewrite (id_chars_contains id "youtu.be/" "/"%char Hid eq_refl eq_refl);
        reflexivity).
  replace (PyStr.contains "v=" ("https://www.youtube.com/embed/" ++ id))
    with false
    by (simpl; rewrite (id_chars_contains id "v=" "="%char Hid eq_refl eq_refl);
        reflexivity).
  rewrite !length_app. simpl. lia.
Qed.

Lemma bot_and_api_identities_witness :
  Bot.normalize_url "https://www.youtube.com/watch?v=dQw4w9WgXcQ"
  = inr (Identity.normalize_url "https://www.youtube.com/watch?v=dQw4w9WgXcQ")
  /\ Bot.normalize_url "https://www.youtube.com/embed/dQw4w9WgXcQ"
     = inr "https://youtube.com/watch?v=dQw4w9WgXcQ".
Proof.
  destruct (bot_and_api_identities "dQw4w9WgXcQ" eq_refl eq_refl)
    as (H1 & _ & _ & H4 & _).
  split; [exact H1 | exact H4].
Defined.

(** ** Channel ids *)




(** ** Long messages *)

Lemma take_drop (n : nat) (s : string) : PyText.take n s ++ PyText.drop n s = s.
Proof.
  revert s. induction n as [|n IH]; intros s; [reflexivity|].
  destruct s as [|c s]; [reflexivity|]. simpl. rewrite IH. reflexivity.
Qed.

Lemma length_take (n : nat) (s : string) :
  String.length (PyText.take n s) = Nat.min n (String.length s).
Proof.
  revert s. induction n as [|n IH]; intros s; [reflexivity|].
  destruct s as [|c s]; [reflexivity|]. simpl. rewrite IH. reflexivity.
Qed.

Lemma length_drop (n : nat) (s : string) :
  String.length (PyText.drop n s) = (String.length s - n)%nat.
Proof.
  revert s. induction n as [|n IH]; intros s; [simpl; lia|].
  destruct s as [|c s]; [reflexivity|]. simpl. apply IH.
Qed.

Lemma join_empty_cons (x : string) (l : list string) :
  PyStr.join EmptyString (x :: l) = x ++ PyStr.join EmptyString l.
Proof.
  destruct l; [simpl; rewrite app_empty_r; reflexivity | reflexivity].
Qed.

(** The slices of a text, for a step of at least one: joined they give
    the text back, and each holds between one and [n] characters. *)
Lemma slices_aux_spec (n : nat) :
  (1 <= n)%nat ->
  forall (fuel : nat) (s : string),
    (String.length s <= fuel)%nat ->
    PyStr.join EmptyString (PyText.slices_aux fuel n s) = s
    /\ Forall (fun c => (1 <= String.length c <= n)%nat) (PyText.slices_aux fuel n s).
Proof.
  intros Hn. induction fuel as [|fuel IH]; intros s Hs.
  - destruct s; [split; [reflexivity | constructor] | simpl in Hs; lia].
  - destruct s as [|c s]; [split; [reflexivity | constructor]|].
    cbn [PyText.slices_aux].
    destruct (IH (PyText.drop n (String c s))) as [Hj Hf].
    { rewrite length_drop. cbn [String.length] in *. lia. }
    split.
    + rewrite join_empty_cons, Hj. apply take_drop.
    + constructor; [|exact Hf].
      rewrite length_take. simpl String.length. lia.
Qed.

Lemma lstrip_length (s : string) :
  (String.length (PyText.lstrip s) <= String.length s)%nat.
Proof.
  induction s as [|c s IH]; simpl; [lia|].
  destruct (PyText.is_space c); simpl; lia.
Qed.

Lemma rstrip_length (s : string) :
  (String.length (PyText.rstrip s) <= String.length s)%nat.
Proof.
  induction s as [|c s IH]; simpl; [lia|].
  destruct (PyText.rstrip s); [destruct (PyText.is_space c)|]; simpl in *; lia.
Qed.

Lemma strip_length (s : string) : PyStr.len (PyText.strip s) <= PyStr.len s.
Proof.
  unfold PyText.strip, PyStr.len.
  pose proof (lstrip_length (PyText.rstrip s)). pose proof (rstrip_length s). lia.
Qed.

(** Stripping forgets the blank line that closes a paragraph. *)
Lemma rstrip_paragraph (para : string) :
  PyText.rstrip (para ++ PyStr.nl ++ PyStr.nl) = PyText.rstrip para.
Proof.
  induction para as [|c para IH]; [reflexivity|].
  cbn [String.append PyText.rstrip]. rewrite IH. reflexivity.
Qed.

Lemma strip_paragraph_length (para : string) :
  PyStr.len (PyText.strip (para ++ PyStr.nl ++ PyStr.nl)) <= PyStr.len para.
Proof.
  unfold PyText.strip. rewrite rstrip_paragraph. apply strip_length.
Qed.

Lemma split_loop_bounded (max_length : Z) :
  1 <= max_length ->
  forall (paragraphs chunks : list string) (current_chunk : string),
    Forall (fun c => PyStr.len c <= max_length) chunks ->
    PyStr.len (PyText.strip current_chunk) <= max_length ->
    exists chunks' current',
      Delivery.split_loop paragraphs max_length chunks current_chunk
      = Some (chunks', current')
      /\ Forall (fun c => PyStr.len c <= max_length) chunks'
      /\ PyStr.len (PyText.strip current') <= max_length.
Proof.
  intros Hmax.
  induction paragraphs as [|para rest IH]; intros chunks current Hchunks Hcur.
  - exists chunks, current. repeat split; assumption.
  - cbn [Delivery.split_loop].
    destruct (PyStr.len current + PyStr.len para + 2 <=? max_length) eqn:Hfit.
    + apply IH; [exact Hchunks|].
      apply Z.leb_le in Hfit.
      pose proof (strip_length (current ++ para ++ PyStr.nl ++ PyStr.nl)) as Hs.
      rewrite !len_app in Hs. change (PyStr.len PyStr.nl) with 1 in Hs. lia.
    + assert (Hchunks' : Forall (fun c => PyStr.len c <= max_length)
                           (if PyText.nonempty current
                            then (chunks ++ [PyText.strip current])%list
                            else chunks)).
      { destruct (PyText.nonempty current); [|exact Hchunks].
        apply List.Forall_app. split; [exact Hchunks|].
        constructor; [exact Hcur | constructor]. }
      destruct (max_length <? PyStr.len para) eqn:Hlong.
      * unfold Delivery.force_split.
        replace (max_length =? 0) with false by (symmetry; apply Z.eqb_neq; lia).
        replace (max_length <? 0) with false by (symmetry; apply Z.ltb_ge; lia).
        apply IH.
        -- apply List.Forall_app. split; [exact Hchunks'|].
           destruct (slices_aux_spec (Z.to_nat max_length) ltac:(lia)
                       (String.length para) para (Nat.le_refl _)) as [_ Hf].
           unfold PyText.slices.
           eapply List.Forall_impl; [|exact Hf].
           intros c Hc. unfold PyStr.len. simpl in Hc. lia.
        -- change (PyStr.len (PyText.strip EmptyString)) with 0. lia.
      * apply IH; [exact Hchunks'|].
        apply Z.ltb_ge in Hlong.
        pose proof (strip_paragraph_length para). lia.
Qed.

(** X7.  [send_telegram] never hands [bot.send_message] a text longer
    than 4096 characters; more generally, for every limit of at least one
    character [split_message] returns chunks that each fit the limit. *)
Theorem telegram_texts_fit_the_limit (message : string) :
  (exists texts,
     Delivery.telegram_texts message = Some texts
     /\ Forall (fun c => PyStr.len c <= 4096) texts)
  /\ (forall max_length,
        1 <= max_length ->
        exists chunks,
          Delivery.split_message message max_length = Some chunks
          /\ Forall (fun c => PyStr.len c <= max_length) chunks).
Proof.
  assert (Hsplit : forall max_length,
             1 <= max_length ->
             exists chunks,
               Delivery.split_message message max_length = Some chunks
               /\ Forall (fun c => PyStr.len c <= max_length) chunks).
  { intros max_length Hmax. unfold Delivery.split_message.
    destruct (PyStr.len message <=? max_length) eqn:Hshort.
    - exists [message]. split; [reflexivity|].
      constructor; [apply Z.leb_le, Hshort | constructor].
    - destruct (split_loop_bounded max_length Hmax
                  (PyStr.split (PyStr.nl ++ PyStr.nl) message) [] EmptyString
                  (List.Forall_nil _)
                  ltac:(change (PyStr.len (PyText.strip EmptyString)) with 0; lia))
        as (chunks & current & Hrun & Hchunks & Hcur).
      rewrite Hrun. eexists. split; [reflexivity|].
      destruct (PyText.nonempty (PyText.strip current)); [|exact Hchunks].
      apply List.Forall_app. split; [exact Hchunks|].
      constructor; [exact Hcur | constructor]. }
  split; [|exact Hsplit].
  unfold Delivery.telegram_texts, Delivery.TELEGRAM_MAX_LENGTH.
  destruct (PyStr.len message <=? 4096) eqn:Hshort.
  - exists [message]. split; [reflexivity|].
    constructor; [apply Z.leb_le, Hshort | constructor].
  - apply Hsplit. lia.
Qed.


(** X9.  The text that [summarize_transcript] puts in its prompt is never
    longer than the transcript plus the marker of 41 characters, and for a
    non-negative cap never longer than the cap plus the marker: with the
    default cap the prompt holds at most 100041 characters of transcript
    text. *)
Theorem capped_transcript_bounded (transcript : string) (max_chars : Z) :
  PyStr.len Summarization.truncation_marker = 41
  /\ PyStr.len (Summarization.capped_transcript transcript max_chars)
     <= PyStr.len transcript + 41
  /\ (0 <= max_chars ->
      PyStr.len (Summarization.capped_transcript transcript max_chars)
      <= max_chars + 41)
  /\ PyStr.len (Summarization.capped_transcript transcript
                  Summarization.default_max_chars) <= 100041.
Proof.
  assert (Hm : PyStr.len Summarization.truncation_marker = 41) by reflexivity.
  assert (Hsub : forall n s, (String.length (String.substring 0 n s) <= n)%nat
                             /\ (String.length (String.substring 0 n s)
                                 <= String.length s)%nat).
  { induction n as [|n IH]; intros s; destruct s as [|c s]; simpl;
      try (split; lia).
    destruct (IH s). split; lia. }
  assert (Hgen : PyStr.len (Summarization.capped_transcript transcript max_chars)
                 <= PyStr.len transcript + 41).
  { unfold Summarization.capped_transcript.
    destruct (max_chars <? PyStr.len transcript); [|lia].
    rewrite len_app, Hm. unfold PyStr.slice_to.
    destruct (0 <=? max_chars); unfold PyStr.len;
      match goal with
      | |- context [String.substring 0 ?n transcript] =>
          destruct (Hsub n transcript)
      end; lia. }
  assert (Hcap : forall m, 0 <= m ->
             PyStr.len (Summarization.capped_transcript transcript m) <= m + 41).
  { intros m Hpos. unfold Summarization.capped_transcript.
    destruct (m <? PyStr.len transcript) eqn:Hlong.
    - rewrite len_app, Hm. unfold PyStr.slice_to.
      replace (0 <=? m) with true by (symmetry; apply Z.leb_le; exact Hpos).
      unfold PyStr.len. destruct (Hsub (Z.to_nat m) transcript). lia.
    - apply Z.ltb_ge in Hlong. lia. }
  split; [exact Hm|]. split; [exact Hgen|]. split; [apply Hcap|].
  apply (Hcap Summarization.default_max_chars). unfold Summarization.default_max_chars.
  lia.
Qed.

(** X10.  [split_message] can return an empty chunk: for a message that
    opens with a blank line, followed by a single paragraph that does not
    fit, the first chunk is the empty text. *)
Theorem split_message_may_emit_empty_chunk (para : string) (max_length : Z) :
  PyStr.contains (PyStr.nl ++ PyStr.nl) para = false ->
  2 <= max_length ->
  max_length < PyStr.len para + 2 ->
  exists rest,
    Delivery.split_message (PyStr.nl ++ PyStr.nl ++ para) max_length
    = Some (EmptyString :: rest).
Proof.
  intros Hpara Hmin Hlong.
  assert (Hsplit : PyStr.split (PyStr.nl ++ PyStr.nl) (PyStr.nl ++ PyStr.nl ++ para)
                   = [EmptyString; para]).
  { unfold PyStr.split.
    change (PyStr.nl ++ PyStr.nl ++ para)
      with (String (ascii_of_nat 10) (String (ascii_of_nat 10) para)).
    change (PyStr.nl ++ PyStr.nl)
      with (String (ascii_of_nat 10) (String (ascii_of_nat 10) EmptyString)) in *.
    cbn [PyStr.split_aux String.prefix].
    destruct (ascii_dec (ascii_of_nat 10) (ascii_of_nat 10)) as [_|N];
      [|contradiction N; reflexivity].
    rewrite prefix_empty.
    cbn [String.length Nat.pred PyStr.split_aux PyStr.of_rev].
    rewrite (split_without _ para Hpara). reflexivity. }
  unfold Delivery.split_message.
  rewrite !len_app. change (PyStr.len PyStr.nl) with 1.
  replace (1 + (1 + PyStr.len para) <=? max_length) with false
    by (symmetry; apply Z.leb_gt; lia).
  rewrite Hsplit. cbn [Delivery.split_loop].
  change (PyStr.len EmptyString) with 0.
  replace (0 + 0 + 2 <=? max_length) with true by (symmetry; apply Z.leb_le; lia).
  change (EmptyString ++ EmptyString ++ PyStr.nl ++ PyStr.nl)
    with (String (ascii_of_nat 10) (String (ascii_of_nat 10) EmptyString)).
  change (PyStr.len (String (ascii_of_nat 10) (String (ascii_of_nat 10) EmptyString)))
    with 2.
  replace (2 + PyStr.len para + 2 <=? max_length) with false
    by (symmetry; apply Z.leb_gt; lia).
  cbn [PyText.nonempty].
  change (PyText.strip (String (ascii_of_nat 10) (String (ascii_of_nat 10) EmptyString)))
    with EmptyString.
  cbn [List.app].
  destruct (max_length <? PyStr.len para).
  - destruct (Delivery.force_split para max_length) as [pieces|] eqn:Hforce.
    + cbn [List.app]. eexists. reflexivity.
    + unfold Delivery.force_split in Hforce.
      replace (max_length =? 0) with false in Hforce
        by (symmetry; apply Z.eqb_neq; lia).
      destruct (max_length <? 0); discriminate Hforce.
  - destruct (PyText.nonempty (PyText.strip (para ++ PyStr.nl ++ PyStr.nl)));
      cbn [List.app]; eexists; reflexivity.
Qed.

Lemma split_message_may_emit_empty_chunk_witness :
  exists rest,
    Delivery.split_message (PyStr.nl ++ PyStr.nl ++ "abc") 4
    = Some (EmptyString :: rest).
Proof.
  apply (split_message_may_emit_empty_chunk "abc" 4); [reflexivity | lia | simpl; lia].
Defined.

(** ** Subscriptions *)

Lemma next_id_above (ids : list Z) (i : Z) : In i ids -> i < next_id ids.
Proof.
  unfold next_id. induction ids as [|x ids IH]; cbn [List.fold_right List.In]; [tauto|].
  intros [->|H]; [lia | specialize (IH H); lia].
Qed.

Lemma find_snoc {A : Type} (p : A -> bool) (l : list A) (x : A) :
  List.find p l = None ->
  List.find p (l ++ [x]) = if p x then Some x else None.
Proof.
  induction l as [|y l IH]; simpl; [reflexivity|].
  destruct (p y); [discriminate | exact IH].
Qed.

Lemma filter_all {A : Type} (p : A -> bool) (l : list A) :
  (forall x, In x l -> p x = true) -> List.filter p l = l.
Proof.
  induction l as [|y l IH]; intros H; simpl; [reflexivity|].
  rewrite (H y (or_introl eq_refl)), IH; [reflexivity|].
  intros x Hx. apply H. right. exact Hx.
Qed.

Lemma with_subscriptions_id (d : DB) :
  Users.with_subscriptions (subscriptions d) d = d.
Proof. destruct d; reflexivity. Qed.

Lemma find_subscription_none (u s : Z) (d : DB) :
  Users.find_subscription u s d = None -> ~ In (u, s) (Users.subscription_pairs d).
Proof.
  unfold Users.find_subscription, Users.subscription_pairs, first_where.
  intros Hnone Hin.
  apply List.in_map_iff in Hin. destruct Hin as (x & Hx & Hin).
  apply (List.find_none _ _ Hnone) in Hin.
  injection Hx as Hu Hs. rewrite Hu, Hs, !Z.eqb_refl in Hin. discriminate Hin.
Qed.

(** The subscribe route, evaluated. *)
Lemma subscribe_to_source_eval (env : Env) (u s : Z) (d : DB) :
  run (Users.subscribe_to_source env u s) d
  = match find_user u d with
    | None => (inl (HTTPException 404 "User not found"), d, [])
    | Some _ =>
        match find_source s d with
        | None => (inl (HTTPException 404 "Source not found"), d, [])
        | Some _ =>
            match Users.find_subscription u s d with
            | Some ex => (inr (Users.AlreadySubscribed (sub_id ex)), d, [])
            | None =>
                (inr (Users.Subscribed (next_id (List.map sub_id (subscriptions d)))),
                 Users.with_subscriptions
                   (subscriptions d ++
                      [mkSubscription (next_id (List.map sub_id (subscriptions d))) u s])
                   d,
                 [])
            end
        end
    end.
Proof.
  unfold run, Users.subscribe_to_source.
  erewrite bind_inr by (apply query_clean; reflexivity). cbn [view].
  destruct (find_user u d); [|reflexivity].
  erewrite bind_inr by (apply query_clean; reflexivity). cbn [view].
  destruct (find_source s d); [|reflexivity].
  erewrite bind_inr by (apply query_clean; reflexivity). cbn [view].
  destruct (Users.find_subscription u s d); [reflexivity|].
  unfold bind, read, write, ret. cbn [view pending saved trace].
  rewrite commit_clean by reflexivity. reflexivity.
Qed.

Lemma unsubscribe_from_source_eval (env : Env) (u s : Z) (d : DB) :
  run (Users.unsubscribe_from_source env u s) d
  = match Users.find_subscription u s d with
    | None => (inl (HTTPException 404 "Subscription not found"), d, [])
    | Some found =>
        (inr Users.Unsubscribed,
         Users.with_subscriptions
           (List.filter (fun x => negb (sub_id x =? sub_id found)) (subscriptions d)) d,
         [])
    end.
Proof.
  unfold run, Users.unsubscribe_from_source.
  erewrite bind_inr by (apply query_clean; reflexivity). cbn [view].
  destruct (Users.find_subscription u s d); [|reflexivity].
  unfold bind, write, ret. cbn [view pending saved trace].
  rewrite commit_clean by reflexivity. reflexivity.
Qed.

(** X11.  Subscribing keeps the (user, source) pairs of the subscription
    table distinct, and is idempotent: a request that returned a
    subscription id, repeated, returns the same id and changes nothing; a
    request that was refused changed nothing. *)
Theorem subscribe_to_source_idempotent (env : Env) (user_id source_id : Z) (d : DB) :
  NoDup (Users.subscription_pairs d) ->
  let o := run (Users.subscribe_to_source env user_id source_id) d in
  NoDup (Users.subscription_pairs (db_of o))
  /\ match result_of o with
     | inr (Users.Subscribed i) | inr (Users.AlreadySubscribed i) =>
         run (Users.subscribe_to_source env user_id source_id) (db_of o)
         = (inr (Users.AlreadySubscribed i), db_of o, [])
     | inr Users.Unsubscribed => False
     | inl _ => db_of o = d
     end.
Proof.
  intros Hnd o. subst o. rewrite subscribe_to_source_eval.
  destruct (find_user user_id d) as [user|] eqn:Hu; [|split; [exact Hnd | reflexivity]].
  destruct (find_source source_id d) as [source|] eqn:Hs;
    [|split; [exact Hnd | reflexivity]].
  destruct (Users.find_subscription user_id source_id d) as [ex|] eqn:Hx;
    cbn [db_of result_of fst snd].
  - split; [exact Hnd|].
    rewrite subscribe_to_source_eval, Hu, Hs, Hx. reflexivity.
  - split.
    + unfold Users.subscription_pairs, Users.with_subscriptions. cbn [subscriptions].
      rewrite List.map_app. apply NoDup_snoc; [exact Hnd|].
      apply find_subscription_none, Hx.
    + rewrite subscribe_to_source_eval.
      unfold Users.find_subscription, find_user, find_source, Users.with_subscriptions
        in *.
      cbn [users sources subscriptions]. rewrite Hu, Hs.
      unfold first_where in *. rewrite (find_snoc _ _ _ Hx).
      cbn [sub_user_id sub_source_id sub_id]. rewrite !Z.eqb_refl. reflexivity.
Qed.

Lemma subscribe_to_source_idempotent_witness :
  let d := mkDB [mkSource 7 "https://pod.example/feed" None (Some "podcast") None]
             [] [Fixtures.user1] [] [] in
  let o := run (Users.subscribe_to_source Fixtures.env_ok 1 7) d in
  NoDup (Users.subscription_pairs (db_of o))
  /\ match result_of o with
     | inr (Users.Subscribed i) | inr (Users.AlreadySubscribed i) =>
         run (Users.subscribe_to_source Fixtures.env_ok 1 7) (db_of o)
         = (inr (Users.AlreadySubscribed i), db_of o, [])
     | inr Users.Unsubscribed => False
     | inl _ => db_of o = d
     end.
Proof.
  apply (subscribe_to_source_idempotent Fixtures.env_ok 1 7). constructor.
Defined.

(** X12.  Subscribing and then unsubscribing gives the database back. *)
Theorem subscribe_unsubscribe_round_trip (env : Env) (user_id source_id : Z) (d : DB) :
  find_user user_id d <> None ->
  find_source source_id d <> None ->
  Users.find_subscription user_id source_id d = None ->
  run (Users.unsubscribe_from_source env user_id source_id)
    (db_of (run (Users.subscribe_to_source env user_id source_id) d))
  = (inr Users.Unsubscribed, d, []).
Proof.
  intros Hu Hs Hx. rewrite subscribe_to_source_eval.
  destruct (find_user user_id d); [|contradiction Hu; reflexivity].
  destruct (find_source source_id d); [|contradiction Hs; reflexivity].
  rewrite Hx. cbn [db_of fst snd]. rewrite unsubscribe_from_source_eval.
  unfold Users.find_subscription, Users.with_subscriptions, first_where in *.
  cbn [subscriptions sources episodes users digest_queue].
  rewrite (find_snoc _ _ _ Hx).
  cbn [sub_user_id sub_source_id sub_id]. rewrite !Z.eqb_refl. cbn [andb].
  rewrite List.filter_app. cbn [List.filter sub_id]. rewrite Z.eqb_refl. cbn [negb].
  rewrite List.app_nil_r, filter_all.
  - destruct d; reflexivity.
  - intros x Hin.
    pose proof (next_id_above (List.map sub_id (subscriptions d)) (sub_id x)
                  (List.in_map sub_id _ _ Hin)) as Hlt.
    apply Bool.negb_true_iff, Z.eqb_neq. lia.
Qed.

Lemma subscribe_unsubscribe_round_trip_witness :
  let d := mkDB [mkSource 7 "https://pod.example/feed" None (Some "podcast") None]
             [] [Fixtures.user1] [mkSubscription 1 2 7] [] in
  run (Users.unsubscribe_from_source Fixtures.env_ok 1 7)
    (db_of (run (Users.subscribe_to_source Fixtures.env_ok 1 7) d))
  = (inr Users.Unsubscribed, d, []).
Proof.
  apply (subscribe_unsubscribe_round_trip Fixtures.env_ok 1 7);
    [discriminate | discriminate | reflexivity].
Defined.




(** ** Reading an episode *)

Lemma reprocess_episode_eval (env : Env) (episode_id : Z) (d : DB) (episode : Episode) :
  find_episode episode_id d = Some episode ->
  ep_status episode <> PROCESSING ->
  run (Routes.reprocess_episode env episode_id) d
  = (inr (Routes.Message "Reprocessing started"),
     update_episode episode_id (set_status PENDING) d,
     [Enqueue (ProcessEpisode episode_id) 0 O]).
Proof.
  intros Hf Hs. unfold run, Routes.reprocess_episode.
  erewrite bind_inr by (apply query_clean; reflexivity). cbn [view]. rewrite Hf.
  replace (status_eqb (ep_status episode) PROCESSING) with false
    by (destruct (ep_status episode); try reflexivity; contradiction Hs; reflexivity).
  unfold bind, write, delay, emit, ret. cbn [view pending saved trace].
  rewrite commit_clean by reflexivity. reflexivity.
Qed.

(** X14.  After the reprocess action on an episode that has a summary, the
    episode reads as pending: [get_episode] no longer shows the summary,
    while [get_episode_status] still reports that there is one. *)
Theorem reprocess_hides_summary
  (env : Env) (episode_id : Z) (d : DB) (episode : Episode) (summary : string) :
  find_episode episode_id d = Some episode ->
  ep_summary episode = Some summary ->
  ep_status episode <> PROCESSING ->
  let d' := db_of (run (Routes.reprocess_episode env episode_id) d) in
  (exists details,
     run (Details.get_episode env episode_id) d' = (inr details, d', [])
     /\ Details.det_status details = "pending"
     /\ Details.det_summary details = None)
  /\ run (Details.get_episode_status env episode_id) d'
     = (inr (Details.mkState episode_id "pending" true), d', []).
Proof.
  intros Hf Hsum Hs d'. subst d'.
  rewrite (reprocess_episode_eval env episode_id d episode Hf Hs).
  cbn [db_of fst snd].
  assert (Hf' : find_episode episode_id (update_episode episode_id (set_status PENDING) d)
                = Some (set_status PENDING episode)).
  { rewrite find_update_episode by reflexivity. rewrite Hf. reflexivity. }
  pose proof (find_episode_id episode_id d episode Hf) as Hid.
  split.
  - eexists. split; [|split].
    + unfold run, Details.get_episode.
      erewrite bind_inr by (apply query_clean; reflexivity). cbn [view].
      rewrite Hf'. reflexivity.
    + reflexivity.
    + reflexivity.
  - unfold run, Details.get_episode_status.
    erewrite bind_inr by (apply query_clean; reflexivity). cbn [view].
    rewrite Hf'. cbn [set_status ep_summary ep_id ep_status status_value].
    rewrite Hsum, Hid. reflexivity.
Qed.

Lemma reprocess_hides_summary_witness :
  let d' := db_of (run (Routes.reprocess_episode Fixtures.env_ok 1) Fixtures.db_mixed) in
  (exists details,
     run (Details.get_episode Fixtures.env_ok 1) d' = (inr details, d', [])
     /\ Details.det_status details = "pending"
     /\ Details.det_summary details = None)
  /\ run (Details.get_episode_status Fixtures.env_ok 1) d'
     = (inr (Details.mkState 1 "pending" true), d', []).
Proof.
  apply (reprocess_hides_summary Fixtures.env_ok 1 Fixtures.db_mixed Fixtures.ep_done "S1");
    [reflexivity | reflexivity | discriminate].
Defined.

(** ** Scheduled and immediate digests *)

Lemma prefix_split (p s : string) :
  String.prefix p s = true <-> exists rest, s = p ++ rest.
Proof.
  revert s. induction p as [|a p IH]; intros s.
  - rewrite prefix_empty. split; [intros _; exists s; reflexivity | reflexivity].
  - destruct s as [|b s]; cbn [String.prefix String.append].
    + split; [discriminate | intros (rest & H); discriminate H].
    + destruct (ascii_dec a b) as [->|N].
      * rewrite IH. split; intros (rest & H); exists rest; congruence.
      * split; [discriminate | intros (rest & H); congruence].
Qed.

Lemma for_each_delay {A : Type} (job : A -> Job) (l : list A) (s : Session) :
  for_each l (fun x => delay (job x)) s
  = (inr tt,
     mkSession (view s) (pending s) (saved s)
       (trace s ++ List.map (fun x => Enqueue (job x) 0 O) l)).
Proof.
  revert s. induction l as [|x l IH]; intros s.
  - simpl. rewrite List.app_nil_r. destruct s; reflexivity.
  - cbn [for_each List.map]. unfold bind at 1. unfold delay at 1, emit.
    rewrite IH. cbn [view pending saved trace].
    rewrite <- List.app_assoc. reflexivity.
Qed.

(** X15.  The scheduled dispatch changes nothing in the database and
    enqueues one digest job for each user row whose preferred time starts
    with the current hour and a colon, whatever the minutes and the time
    zone of the user are, and for no other user; it reports their
    number. *)
Theorem scheduled_digests_go_by_the_hour (env : Env) (current_hour : string) (d : DB) :
  db_of (run (Digests.send_scheduled_digests env current_hour) d) = d
  /\ result_of (run (Digests.send_scheduled_digests env current_hour) d)
     = inr (Digests.UsersQueued
              (Z.of_nat
                 (List.length
                    (trace_of (run (Digests.send_scheduled_digests env current_hour) d)))))
  /\ forall ev,
       In ev (trace_of (run (Digests.send_scheduled_digests env current_hour) d))
       <-> exists user minutes,
             In user (users d)
             /\ usr_preferred_digest_time user = current_hour ++ ":" ++ minutes
             /\ ev = Enqueue (SendUserDigest (usr_id user)) 0 O.
Proof.
  assert (Hrun : run (Digests.send_scheduled_digests env current_hour) d
                 = (inr (Digests.UsersQueued
                           (Z.of_nat
                              (List.length
                                 (List.filter (Digests.wants_digest_at current_hour)
                                    (users d))))),
                    d,
                    List.map (fun u => Enqueue (SendUserDigest (usr_id u)) 0 O)
                      (List.filter (Digests.wants_digest_at current_hour) (users d)))).
  { unfold run, Digests.send_scheduled_digests.
    erewrite bind_inr by (apply query_clean; reflexivity). cbn [view].
    unfold bind. rewrite for_each_delay. reflexivity. }
  rewrite Hrun. cbn [db_of result_of trace_of fst snd].
  split; [reflexivity|]. split; [rewrite List.length_map; reflexivity|].
  intros ev. rewrite List.in_map_iff. split.
  - intros (user & Hev & Hin). apply List.filter_In in Hin.
    destruct Hin as [Hin Hw]. unfold Digests.wants_digest_at in Hw.
    apply prefix_split in Hw. destruct Hw as (rest & Hrest).
    exists user, rest. rewrite app_assoc_str in Hrest. auto.
  - intros (user & minutes & Hin & Htime & Hev). exists user. split; [auto|].
    apply List.filter_In. split; [exact Hin|].
    unfold Digests.wants_digest_at. apply prefix_split. exists minutes.
    rewrite app_assoc_str. exact Htime.
Qed.

(** X16.  The immediate digest never changes the database and never
    enqueues anything, so a send that fails is not tried again; it sends
    nothing for an episode that is not COMPLETED; for a COMPLETED one
    every Telegram text is the title as a heading, a blank line and the
    stored summary, and when the Telegram send fails the job ends with the
    exception before any e-mail is attempted. *)
Theorem immediate_digest_stops_at_first_failure
  (env : Env) (user_id episode_id : Z) (d : DB) (user : User) (episode : Episode) :
  find_user user_id d = Some user ->
  find_episode episode_id d = Some episode ->
  let message := single_message (ep_title episode, PyStr.fmt (ep_summary episode)) in
  let o := run (Digests.send_immediate_digest env user_id episode_id) d in
  db_of o = d
  /\ List.filter is_enqueue (trace_of o) = []
  /\ (ep_status episode <> COMPLETED ->
      result_of o = inr Digests.NotYetProcessed /\ trace_of o = [])
  /\ (ep_status episode = COMPLETED ->
      (forall chat text, In (SendTelegram chat text) (trace_of o) -> text = message)
      /\ (telegram_attempt user message <> [] ->
          telegram_ok env user message = false ->
          result_of o = inl ExternalError
          /\ trace_of o = telegram_attempt user message)).
Proof.
  intros Hu He message o. subst o.
  unfold run, Digests.send_immediate_digest.
  erewrite bind_inr by (apply query_clean; reflexivity). cbn [view].
  erewrite bind_inr by (apply query_clean; reflexivity). cbn [view].
  rewrite Hu, He.
  change ("# " ++ PyStr.fmt (ep_title episode) ++ PyStr.nl ++ PyStr.nl
            ++ PyStr.fmt (ep_summary episode)) with message.
  unfold telegram_attempt, telegram_ok.
  destruct (ep_status episode) eqn:Hst; cbn [status_eqb negb].
  1,2,4: (split; [reflexivity|]; split; [reflexivity|];
          split; [intros _; split; reflexivity | intros H; discriminate H]).
  generalize message; intros msg.
  unfold Digests.send_telegram, Digests.send_email, bind, emit, ret, raise.
  cbn [view pending saved trace].
  destruct (usr_telegram_chat_id user) as [[|c1 t1]|];
    destruct (usr_email user) as [[|c2 t2]|];
    cbn [view pending saved trace List.app];
    repeat match goal with
      | |- context [telegram_send env ?a ?b] =>
          destruct (telegram_send env a b) eqn:?
      | |- context [email_send env ?a ?b ?c] =>
          destruct (email_send env a b c) eqn:?
      end;
    cbn [db_of result_of trace_of fst snd saved trace List.filter is_enqueue List.app];
    (split; [reflexivity|]); (split; [reflexivity|]);
    (split; [intros H; contradiction H; reflexivity|]);
    intros _;
    (split;
     [ intros chat text Hin; cbn [In] in Hin;
       repeat match goal with
         | H : _ \/ _ |- _ => destruct H
         | H : False |- _ => destruct H
         | H : SendTelegram _ _ = SendTelegram _ _ |- _ =>
             injection H; intros; subst; reflexivity
         | H : SendEmail _ _ _ = SendTelegram _ _ |- _ => discriminate H
         end
     | intros Hne Hok;
       try (contradiction Hne; reflexivity);
       try discriminate Hok;
       split; reflexivity ]).
Qed.

(** User 2 has both channels; with both of them down the Telegram send
    fails and the e-mail is not attempted. *)
Lemma immediate_digest_stops_at_first_failure_witness :
  let message := single_message (Some "T1", "S1") in
  let o := run (Digests.send_immediate_digest Fixtures.env_no_delivery 2 1)
             Fixtures.db_mixed in
  db_of o = Fixtures.db_mixed
  /\ List.filter is_enqueue (trace_of o) = []
  /\ (COMPLETED <> COMPLETED ->
      result_of o = inr Digests.NotYetProcessed /\ trace_of o = [])
  /\ (COMPLETED = COMPLETED ->
      (forall chat text, In (SendTelegram chat text) (trace_of o) -> text = message)
      /\ (telegram_attempt Fixtures.user2 message <> [] ->
          telegram_ok Fixtures.env_no_delivery Fixtures.user2 message = false ->
          result_of o = inl ExternalError
          /\ trace_of o = telegram_attempt Fixtures.user2 message)).
Proof.
  exact (immediate_digest_stops_at_first_failure Fixtures.env_no_delivery 2 1
           Fixtures.db_mixed Fixtures.user2 Fixtures.ep_done eq_refl eq_refl).
Defined.

Lemma immediate_digest_quiet (env : Env) (user_id episode_id : Z) (d : DB) :
  cycle_calls (trace_of (run (Digests.send_immediate_digest env user_id episode_id) d))
  = [].
Proof.
  unfold run, Digests.send_immediate_digest.
  erewrite bind_inr by (apply query_clean; reflexivity). cbn [view].
  erewrite bind_inr by (apply query_clean; reflexivity). cbn [view].
  destruct (find_user user_id d) as [user|]; [|reflexivity].
  destruct (find_episode episode_id d) as [episode|]; [|reflexivity].
  destruct (negb (status_eqb (ep_status episode) COMPLETED)); [reflexivity|].
  unfold Digests.send_telegram, Digests.send_email, bind, emit, ret, raise.
  cbn [view pending saved trace].
  destruct (usr_telegram_chat_id user) as [[|c1 t1]|];
    destruct (usr_email user) as [[|c2 t2]|];
    cbn [view pending saved trace List.app];
    repeat match goal with
      | |- context [telegram_send env ?a ?b] => destruct (telegram_send env a b)
      | |- context [email_send env ?a ?b ?c] => destruct (email_send env a b c)
      end;
    reflexivity.
Qed.

(** X17.  A URL whose episode is already COMPLETED, submitted with a
    user: the request changes nothing in the database (no queue row is
    added), enqueues the immediate digest for that user and episode and
    nothing else, and that job makes no transcription or summarisation
    call. *)
Theorem finished_episode_is_sent_at_once
  (env : Env) (u : string) (uid : Z) (d : DB) (ex : Episode) :
  find_episode_by_unique_id (Routes.get_url_hash env u) d = Some ex ->
  ep_status ex = COMPLETED ->
  uid <> 0 ->
  run (Routes.submit_url env (Routes.mkSubmit u (Some uid))) d
  = (inr (Routes.Accepted "Summary already available, sending now" (ep_id ex)
            "completed"),
     d, [Enqueue (SendImmediateDigest uid (ep_id ex)) 0 O])
  /\ cycle_calls
       (trace_of (run (Digests.send_immediate_digest env uid (ep_id ex)) d)) = [].
Proof.
  intros Hex Hst Huid. split; [|apply immediate_digest_quiet].
  unfold run, Routes.submit_url. cbn [Routes.url Routes.user_id].
  erewrite bind_inr by (apply query_clean; reflexivity). cbn [view].
  rewrite Hex, Hst. cbn [status_eqb andb PyStr.truthy_int].
  replace (uid =? 0) with false by (symmetry; apply Z.eqb_neq; exact Huid).
  reflexivity.
Qed.

Lemma finished_episode_is_sent_at_once_witness :
  run (Routes.submit_url Fixtures.env_ok (Routes.mkSubmit "h1" (Some 2)))
    (mkDB [] [Fixtures.ep_done] [Fixtures.user2] [] [])
  = (inr (Routes.Accepted "Summary already available, sending now" 1 "completed"),
     mkDB [] [Fixtures.ep_done] [Fixtures.user2] [] [],
     [Enqueue (SendImmediateDigest 2 1) 0 O])
  /\ cycle_calls
       (trace_of (run (Digests.send_immediate_digest Fixtures.env_ok 2 1)
                    (mkDB [] [Fixtures.ep_done] [Fixtures.user2] [] []))) = [].
Proof.
  apply (finished_episode_is_sent_at_once Fixtures.env_ok "h1" 2
           (mkDB [] [Fixtures.ep_done] [Fixtures.user2] [] []) Fixtures.ep_done);
    [reflexivity | reflexivity | lia].
Defined.

(** X18.  A URL whose episode is FAILED: the outcome of the submission
    does not depend on the user given with it.  The episode is reset and
    one processing job enqueued, and no queue row is added for the
    requester. *)
Theorem retry_of_failed_ignores_requester
  (env : Env) (u : string) (requester other : option Z) (d : DB) (ex : Episode) :
  find_episode_by_unique_id (Routes.get_url_hash env u) d = Some ex ->
  ep_status ex = FAILED ->
  run (Routes.submit_url env (Routes.mkSubmit u requester)) d
  = run (Routes.submit_url env (Routes.mkSubmit u other)) d
  /\ digest_queue (db_of (run (Routes.submit_url env (Routes.mkSubmit u requester)) d))
     = digest_queue d
  /\ trace_of (run (Routes.submit_url env (Routes.mkSubmit u requester)) d)
     = [Enqueue (ProcessEpisode (ep_id ex)) 0 O].
Proof.
  intros Hex Hst.
  assert (Hrun : forall who,
             run (Routes.submit_url env (Routes.mkSubmit u who)) d
             = (inr (Routes.Accepted "Retrying failed episode" (ep_id ex) "pending"),
                update_episode (ep_id ex)
                  (fun e => set_url (Identity.normalize_url u)
                              (set_error_message None (set_status PENDING e))) d,
                [Enqueue (ProcessEpisode (ep_id ex)) 0 O])).
  { intros who. unfold run, Routes.submit_url. cbn [Routes.url Routes.user_id].
    erewrite bind_inr by (apply query_clean; reflexivity). cbn [view].
    rewrite Hex, Hst. cbn [status_eqb andb].
    unfold bind, write, delay, emit, ret. cbn [view pending saved trace].
    rewrite commit_clean by reflexivity. reflexivity. }
  rewrite !Hrun. repeat split.
Qed.

Lemma retry_of_failed_ignores_requester_witness :
  run (Routes.submit_url Fixtures.env_ok
         (Routes.mkSubmit "https://youtube.com/watch?v=def1" (Some 1)))
    Fixtures.db_mixed
  = run (Routes.submit_url Fixtures.env_ok
           (Routes.mkSubmit "https://youtube.com/watch?v=def1" None))
      Fixtures.db_mixed
  /\ digest_queue
       (db_of (run (Routes.submit_url Fixtures.env_ok
                      (Routes.mkSubmit "https://youtube.com/watch?v=def1" (Some 1)))
                 Fixtures.db_mixed))
     = digest_queue Fixtures.db_mixed
  /\ trace_of (run (Routes.submit_url Fixtures.env_ok
                      (Routes.mkSubmit "https://youtube.com/watch?v=def1" (Some 1)))
                 Fixtures.db_mixed)
     = [Enqueue (ProcessEpisode 3) 0 O].
Proof.
  apply (retry_of_failed_ignores_requester Fixtures.env_ok
           "https://youtube.com/watch?v=def1" (Some 1) None Fixtures.db_mixed
           Fixtures.ep_failed);
    reflexivity.
Defined.

(** ** Polling a source *)

Lemma with_episodes_twice (l1 l2 : list Episode) (d : DB) :
  with_episodes l1 (with_episodes l2 d) = with_episodes l1 d.
Proof. reflexivity. Qed.

Lemma find_app_some {A : Type} (p : A -> bool) (l l' : list A) :
  List.find p l <> None -> List.find p (l ++ l') <> None.
Proof.
  induction l as [|x l IH]; simpl; [intros H; contradiction H; reflexivity|].
  destruct (p x); [discriminate | exact IH].
Qed.

Lemma unique_id_absent (uid : string) (l : list Episode) :
  List.find (fun e => String.eqb (ep_unique_id e) uid) l = None ->
  ~ In uid (List.map ep_unique_id l).
Proof.
  intros Hnone Hin. apply List.in_map_iff in Hin. destruct Hin as (e & He & Hin).
  apply (List.find_none _ _ Hnone) in Hin. rewrite He, String.eqb_refl in Hin.
  discriminate Hin.
Qed.

(** The loop of the poll from a session with nothing uncommitted: the
    entries it inserts, in feed order. *)
Lemma poll_loop_spec (env : Env) (source : Source) (episodes_data : list Polling.EpisodeData) :
  forall (d : DB) (t : list Event) (n : Z),
  exists news,
    Polling.poll_loop env source episodes_data n (mkSession d [] d t)
    = (inr (n + Z.of_nat (List.length news)),
       mkSession (with_episodes (episodes d ++ news) d) []
         (with_episodes (episodes d ++ news) d)
         (t ++ List.map (fun e => Enqueue (ProcessEpisode (ep_id e)) 0 O) news))
    /\ Forall (fun e => exists ep_data,
                 In ep_data episodes_data
                 /\ e = Polling.new_episode (ep_id e) source ep_data
                 /\ ~ In (Polling.ed_unique_id ep_data) (List.map ep_unique_id (episodes d)))
         news
    /\ (NoDup (List.map ep_unique_id (episodes d)) ->
        NoDup (List.map ep_unique_id (episodes d ++ news)))
    /\ (NoDup (List.map ep_id (episodes d)) ->
        NoDup (List.map ep_id (episodes d ++ news)))
    /\ (forall ep_data, In ep_data episodes_data ->
        List.find (fun e => String.eqb (ep_unique_id e) (Polling.ed_unique_id ep_data))
          (episodes d ++ news) <> None).
Proof.
  induction episodes_data as [|ep_data rest IH]; intros d t n.
  - exists []. cbn [Polling.poll_loop List.length List.map].
    rewrite !List.app_nil_r, with_episodes_id, Z.add_0_r.
    repeat split; auto.
  - cbn [Polling.poll_loop].
    erewrite bind_inr by (apply query_clean; reflexivity). cbn [view].
    unfold find_episode_by_unique_id, first_where.
    destruct (List.find (fun e => String.eqb (ep_unique_id e)
                                    (Polling.ed_unique_id ep_data)) (episodes d))
      as [ex|] eqn:Hex.
    + destruct (IH d t n) as (news & Hrun & Hnew & Huid & Hid & Hknown).
      exists news. split; [exact Hrun|]. split; [|split; [exact Huid|split; [exact Hid|]]].
      * eapply List.Forall_impl; [|exact Hnew].
        intros e (x & Hx & He). exists x. split; [right; exact Hx | exact He].
      * intros x [<-|Hx]; [|apply Hknown, Hx].
        apply find_app_some. rewrite Hex. discriminate.
    + set (e0 := Polling.new_episode (next_id (List.map ep_id (episodes d))) source
                   ep_data).
      set (d1 := with_episodes (episodes d ++ [e0]) d).
      assert (Hadd : Polling.add_episode source ep_data (mkSession d [] d t)
                     = (inr (ep_id e0), mkSession d1 [] d1 t)).
      { unfold Polling.add_episode, bind, read, write, ret.
        cbn [view pending saved trace]. rewrite commit_clean by reflexivity.
        reflexivity. }
      erewrite bind_inr by exact Hadd.
      unfold bind at 1. unfold delay at 1, emit. cbn [view pending saved trace].
      destruct (IH d1 (t ++ [Enqueue (ProcessEpisode (ep_id e0)) 0 O])%list (n + 1))
        as (news & Hrun & Hnew & Huid & Hid & Hknown).
      exists (e0 :: news). rewrite Hrun.
      subst d1. cbn [episodes with_episodes] in *.
      rewrite with_episodes_twice, <- !List.app_assoc in *.
      cbn [List.app List.map List.length] in *.
      split; [|split; [|split; [|split]]].
      * rewrite Nat2Z.inj_succ.
        replace (n + Z.succ (Z.of_nat (List.length news)))
          with (n + 1 + Z.of_nat (List.length news)) by lia.
        reflexivity.
      * constructor.
        -- exists ep_data. split; [left; reflexivity|]. split; [reflexivity|].
           apply unique_id_absent, Hex.
        -- eapply List.Forall_impl; [|exact Hnew].
           intros e (x & Hx & He & Hfresh). exists x.
           split; [right; exact Hx|]. split; [exact He|].
           intros Hin. apply Hfresh. rewrite List.map_app.
           apply List.in_or_app. left. exact Hin.
      * intros Hnd. apply Huid. rewrite List.map_app. apply NoDup_snoc; [exact Hnd|].
        apply unique_id_absent, Hex.
      * intros Hnd. apply Hid. rewrite List.map_app. apply NoDup_snoc; [exact Hnd|].
        intros Hin. apply next_id_above in Hin. cbn [e0 Polling.new_episode ep_id] in Hin.
        lia.
      * intros x [<-|Hx]; [|apply Hknown, Hx].
        change (episodes d ++ e0 :: news)%list with (episodes d ++ [e0] ++ news)%list.
        rewrite List.app_assoc. apply find_app_some.
        rewrite (find_snoc _ _ _ Hex). cbn [e0 Polling.new_episode ep_unique_id].
        rewrite String.eqb_refl. discriminate.
Qed.

(** The poll of a source that exists and whose feed answers. *)
Lemma poll_source_try_eval (env : Env) (feeds : Polling.Feeds) (source_id : Z) (d : DB)
  (source : Source) (episodes_data : list Polling.EpisodeData) (news : list Episode) :
  find_source source_id d = Some source ->
  Polling.feed_of feeds source = Some episodes_data ->
  Polling.poll_loop env source episodes_data 0 (mkSession d [] d [])
  = (inr (0 + Z.of_nat (List.length news)),
     mkSession (with_episodes (episodes d ++ news) d) []
       (with_episodes (episodes d ++ news) d)
       ([] ++ List.map (fun e => Enqueue (ProcessEpisode (ep_id e)) 0 O) news)) ->
  run (Polling.poll_source_try env feeds source_id) d
  = (inr (Polling.Polled source_id (Z.of_nat (List.length news))),
     Polling.update_source source_id
       (Polling.set_last_checked_at (Some (utcnow env)))
       (with_episodes (episodes d ++ news) d),
     List.map (fun e => Enqueue (ProcessEpisode (ep_id e)) 0 O) news).
Proof.
  intros Hs Hfeed Hloop. unfold run, Polling.poll_source_try.
  erewrite bind_inr by (apply query_clean; reflexivity). cbn [view]. rewrite Hs.
  unfold Polling.fetch. rewrite Hfeed. unfold bind at 1. unfold ret at 1.
  erewrite bind_inr by exact Hloop.
  unfold bind, write, ret. cbn [view pending saved trace].
  rewrite commit_clean by reflexivity. reflexivity.
Qed.



Lemma poll_loop_known (env : Env) (source : Source)
  (episodes_data : list Polling.EpisodeData) (d : DB) (t : list Event) (n : Z) :
  (forall ep_data, In ep_data episodes_data ->
   In (Polling.ed_unique_id ep_data) (List.map ep_unique_id (episodes d))) ->
  Polling.poll_loop env source episodes_data n (mkSession d [] d t)
  = (inr n, mkSession d [] d t).
Proof.
  induction episodes_data as [|ep_data rest IH]; intros Hknown; [reflexivity|].
  cbn [Polling.poll_loop].
  erewrite bind_inr by (apply query_clean; reflexivity). cbn [view].
  unfold find_episode_by_unique_id, first_where.
  destruct (List.find _ (episodes d)) as [ex|] eqn:Hex.
  - apply IH. intros x Hx. apply Hknown. right. exact Hx.
  - apply unique_id_absent in Hex. contradiction Hex. apply Hknown. left. reflexivity.
Qed.

Lemma find_update_source (id : Z) (f : Source -> Source) (d : DB) :
  (forall s, src_id (f s) = src_id s) ->
  find_source id (Polling.update_source id f d) = option_map f (find_source id d).
Proof.
  intros Hf. unfold find_source, Polling.update_source, first_where; simpl.
  induction (sources d) as [|s l IH]; simpl; [reflexivity|].
  destruct (src_id s =? id) eqn:E.
  - rewrite Hf, E. reflexivity.
  - rewrite E. exact IH.
Qed.

Lemma update_source_twice (id : Z) (f : Source -> Source) (d : DB) :
  (forall s, src_id (f s) = src_id s) ->
  (forall s, f (f s) = f s) ->
  Polling.update_source id f (Polling.update_source id f d)
  = Polling.update_source id f d.
Proof.
  intros Hid Hf. unfold Polling.update_source, Polling.with_sources.
  cbn [sources episodes users subscriptions digest_queue]. f_equal.
  rewrite List.map_map. apply List.map_ext. intros s.
  destruct (src_id s =? id) eqn:E; [|rewrite E; reflexivity].
  rewrite Hid, E. apply Hf.
Qed.

(** X20.  Polling a source again, with the feed and the clock unchanged,
    finds nothing new: no episode is added, no job enqueued and the
    database stays as the first poll left it. *)
Theorem second_poll_adds_nothing
  (env : Env) (feeds : Polling.Feeds) (source_id : Z) (d : DB) (source : Source)
  (episodes_data : list Polling.EpisodeData) :
  find_source source_id d = Some source ->
  Polling.feed_of feeds source = Some episodes_data ->
  let d1 := db_of (run (Polling.poll_source_try env feeds source_id) d) in
  run (Polling.poll_source_try env feeds source_id) d1
  = (inr (Polling.Polled source_id 0), d1, []).
Proof.
  intros Hs Hfeed d1. subst d1.
  destruct (poll_loop_spec env source episodes_data d [] 0)
    as (news & Hrun & _ & _ & _ & Hknown).
  rewrite (poll_source_try_eval env feeds source_id d source episodes_data news Hs
             Hfeed Hrun).
  cbn [db_of fst snd].
  set (f := Polling.set_last_checked_at (Some (utcnow env))).
  set (d1 := Polling.update_source source_id f (with_episodes (episodes d ++ news) d)).
  assert (Hs1 : find_source source_id d1 = Some (f source)).
  { subst d1. rewrite find_update_source by reflexivity.
    change (find_source source_id (with_episodes ?l d)) with (find_source source_id d).
    rewrite Hs. reflexivity. }
  assert (Hloop : Polling.poll_loop env (f source) episodes_data 0 (mkSession d1 [] d1 [])
                  = (inr 0, mkSession d1 [] d1 [])).
  { apply poll_loop_known. intros x Hx. specialize (Hknown x Hx).
    change (episodes d1) with (episodes d ++ news)%list.
    destruct (List.find _ _) as [e|] eqn:He in Hknown;
      [|contradiction Hknown; reflexivity].
    apply List.find_some in He. destruct He as [Hin Heq].
    apply String.eqb_eq in Heq. rewrite <- Heq. apply List.in_map, Hin. }
  unfold run, Polling.poll_source_try.
  erewrite bind_inr by (apply query_clean; reflexivity). cbn [view]. rewrite Hs1.
  unfold Polling.fetch.
  change (Polling.feed_of feeds (f source)) with (Polling.feed_of feeds source).
  rewrite Hfeed. unfold bind at 1. unfold ret at 1.
  erewrite bind_inr by exact Hloop.
  unfold bind, write, ret. cbn [view pending saved trace].
  rewrite commit_clean by reflexivity. cbn [view pending saved trace].
  fold f. subst d1. rewrite update_source_twice by reflexivity. reflexivity.
Qed.

Lemma second_poll_adds_nothing_witness :
  let source := mkSource 7 "https://pod.example/feed" None (Some "podcast") None in
  let d := mkDB [source] [] [] [] [] in
  let feeds := Polling.mkFeeds (fun _ => None)
                 (fun _ => Some [Polling.mkEpisodeData "guid-1" "One"
                                   "https://pod.example/1"
                                   (Some "https://pod.example/1.mp3") None]) in
  let d1 := db_of (run (Polling.poll_source_try Fixtures.env_ok feeds 7) d) in
  run (Polling.poll_source_try Fixtures.env_ok feeds 7) d1
  = (inr (Polling.Polled 7 0), d1, []).
Proof.
  intros source d feeds.
  exact (second_poll_adds_nothing Fixtures.env_ok feeds 7 d source _ eq_refl eq_refl).
Defined.

(** ** What a digest leaves alone *)

(** The dispatch job for a user who is unknown or has nothing to be sent. *)
Lemma send_user_digest_nothing (env : Env) (retries : nat) (uid : Z) (d : DB) :
  find_user uid d = None \/ qualifying_items uid d = [] ->
  run (Tasks.send_user_digest_task env retries uid) d
  = (inr match find_user uid d with
         | None => Tasks.UserNotFound
         | Some _ =>
             match queue_of uid d with
             | [] => Tasks.NoPendingItems
             | _ => Tasks.NoCompletedSummaries
             end
         end, d, []).
Proof.
  intros H.
  unfold run, Tasks.send_user_digest_task, try_except, Tasks.send_user_digest_try.
  erewrite bind_inr by (apply query_clean; reflexivity). cbn [view].
  destruct (find_user uid d) as [user|]; [|reflexivity].
  destruct H as [H|H]; [discriminate H|].
  erewrite bind_inr by (apply query_clean; reflexivity). cbn [view].
  unfold qualifying_items in H.
  destruct (queue_of uid d) as [|item items]; [reflexivity|].
  cbv beta iota. remember (item :: items) as qi eqn:Hqi.
  erewrite bind_inr by (apply gather_summaries_clean; reflexivity).
  cbn [view]. rewrite List.app_nil_l, H. reflexivity.
Qed.

(** The committed database after the dispatch job: as it was, or without
    the queue rows of the user. *)
Lemma send_user_digest_db (env : Env) (retries : nat) (uid : Z) (d : DB) :
  let o := run (Tasks.send_user_digest_task env retries uid) d in
  (db_of o = d /\ forall n, result_of o <> inr (Tasks.Delivered n))
  \/ (db_of o = delete_all (queue_of uid d) d /\ find_user uid d <> None).
Proof.
  intros o. subst o.
  destruct (find_user uid d) as [user|] eqn:Hu.
  2:{ left. rewrite send_user_digest_nothing by (left; exact Hu). rewrite Hu.
      split; [reflexivity | discriminate]. }
  destruct (qualifying_items uid d) as [|s0 rest] eqn:Hq.
  { left. rewrite send_user_digest_nothing by (right; exact Hq). rewrite Hu.
    split; [reflexivity|]. destruct (queue_of uid d); discriminate. }
  destruct (digest_text env (s0 :: rest)) as [digest|] eqn:Hd.
  - pose proof (send_user_digest_outcome env retries uid d user (s0 :: rest) digest
                  Hu Hq ltac:(discriminate) Hd) as Ho.
    cbv zeta in Ho. rewrite Ho.
    destruct (telegram_ok env user digest || email_ok env user digest).
    + right. split; [reflexivity | discriminate].
    + left. destruct (retries <? 3)%nat; split; try reflexivity; discriminate.
  - left. rewrite (send_user_digest_llm_down env retries uid d user (s0 :: rest) Hu Hq Hd).
    destruct (retries <? 3)%nat; split; try reflexivity; discriminate.
Qed.

(** X21.  The digest dispatch for a user with nothing to be sent (no
    queue row whose episode is COMPLETED with a summary): nobody is
    contacted, nothing is enqueued, and the database, with the rows of
    unfinished episodes, stays as it was. *)
Theorem digest_with_nothing_to_send (env : Env) (retries : nat) (user_id : Z) (d : DB) :
  qualifying_items user_id d = [] ->
  run (Tasks.send_user_digest_task env retries user_id) d
  = (inr match find_user user_id d with
         | None => Tasks.UserNotFound
         | Some _ =>
             match queue_of user_id d with
             | [] => Tasks.NoPendingItems
             | _ => Tasks.NoCompletedSummaries
             end
         end, d, []).
Proof.
  intros H. apply send_user_digest_nothing. right. exact H.
Qed.

(** User 1 of a database in which only the running episode is queued. *)
Lemma digest_with_nothing_to_send_witness :
  run (Tasks.send_user_digest_task Fixtures.env_ok 0 1)
    (mkDB [] [Fixtures.ep_running] [Fixtures.user1] [] [mkQueueItem 1 1 2])
  = (inr Tasks.NoCompletedSummaries,
     mkDB [] [Fixtures.ep_running] [Fixtures.user1] [] [mkQueueItem 1 1 2], []).
Proof.
  exact (digest_with_nothing_to_send Fixtures.env_ok 0 1
           (mkDB [] [Fixtures.ep_running] [Fixtures.user1] [] [mkQueueItem 1 1 2])
           eq_refl).
Defined.

Lemma same_key_same_row {A B : Type} (f : A -> B) (l : list A) (a b : A) :
  NoDup (List.map f l) -> In a l -> In b l -> f a = f b -> a = b.
Proof.
  induction l as [|x l IH]; intros Hnd Ha Hb Hf; [destruct Ha|].
  simpl in Hnd. inversion Hnd as [|y l' Hx Hl]; subst.
  destruct Ha as [->|Ha], Hb as [->|Hb].
  - reflexivity.
  - contradiction Hx. rewrite Hf. apply List.in_map, Hb.
  - contradiction Hx. rewrite <- Hf. apply List.in_map, Ha.
  - apply IH; assumption.
Qed.

Lemma filter_filter_all {A : Type} (p q : A -> bool) (l : list A) :
  (forall x, In x l -> p x = true -> q x = true) ->
  List.filter p (List.filter q l) = List.filter p l.
Proof.
  induction l as [|x l IH]; intros H; simpl; [reflexivity|].
  assert (Hl : forall y, In y l -> p y = true -> q y = true)
    by (intros y Hy; apply H; right; exact Hy).
  destruct (q x) eqn:Q; simpl.
  - rewrite IH by exact Hl. reflexivity.
  - destruct (p x) eqn:P.
    + rewrite (H x (or_introl eq_refl) P) in Q. discriminate Q.
    + apply IH, Hl.
Qed.

Lemma queue_of_other_delete_all (uid other : Z) (d : DB) :
  NoDup (Frames.queue_ids d) ->
  other <> uid ->
  queue_of other (delete_all (queue_of uid d) d) = queue_of other d.
Proof.
  intros Hnd Hne. unfold queue_of at 1 3, delete_all. cbn [digest_queue with_digest_queue].
  apply filter_filter_all. intros x Hx Hu.
  apply Bool.negb_true_iff. apply Bool.not_true_is_false. intros Hex.
  apply List.existsb_exists in Hex. destruct Hex as (i & Hi & Hid).
  unfold queue_of in Hi. apply List.filter_In in Hi. destruct Hi as [Hi Hiu].
  apply Z.eqb_eq in Hid, Hu, Hiu.
  pose proof (same_key_same_row dq_id (digest_queue d) x i Hnd Hx Hi Hid) as E.
  subst i. apply Hne. congruence.
Qed.

(** X22.  The digest dispatch for one user leaves the queue rows of every
    other user in place, and the episodes, users, subscriptions and
    sources as they were, whatever the outcome of the deliveries: the
    precondition is that queue rows have distinct primary keys. *)
Theorem digest_leaves_other_users_rows
  (env : Env) (retries : nat) (user_id other : Z) (d : DB) :
  NoDup (Frames.queue_ids d) ->
  other <> user_id ->
  let d' := db_of (run (Tasks.send_user_digest_task env retries user_id) d) in
  queue_of other d' = queue_of other d
  /\ episodes d' = episodes d
  /\ users d' = users d
  /\ subscriptions d' = subscriptions d
  /\ sources d' = sources d.
Proof.
  intros Hnd Hne d'. subst d'.
  destruct (send_user_digest_db env retries user_id d) as [[-> _]|[-> _]].
  - repeat split.
  - split; [apply queue_of_other_delete_all; assumption | repeat split].
Qed.

Lemma digest_leaves_other_users_rows_witness :
  let d' := db_of (run (Tasks.send_user_digest_task Fixtures.env_ok 0 1)
                     Fixtures.db_mixed) in
  queue_of 2 d' = queue_of 2 Fixtures.db_mixed
  /\ episodes d' = episodes Fixtures.db_mixed
  /\ users d' = users Fixtures.db_mixed
  /\ subscriptions d' = subscriptions Fixtures.db_mixed
  /\ sources d' = sources Fixtures.db_mixed.
Proof.
  apply (digest_leaves_other_users_rows Fixtures.env_ok 0 1 2 Fixtures.db_mixed).
  - repeat constructor; simpl; intuition discriminate.
  - discriminate.
Defined.

(** X23.  A digest that was delivered is not sent again: the dispatch job
    run once more for the same user finds no pending item, contacts nobody
    and changes nothing. *)
Theorem delivered_digest_is_not_sent_again
  (env : Env) (retries retries' : nat) (user_id : Z) (d : DB) (items_count : Z) :
  result_of (run (Tasks.send_user_digest_task env retries user_id) d)
  = inr (Tasks.Delivered items_count) ->
  let d' := db_of (run (Tasks.send_user_digest_task env retries user_id) d) in
  run (Tasks.send_user_digest_task env retries' user_id) d'
  = (inr Tasks.NoPendingItems, d', []).
Proof.
  intros Hres d'. subst d'.
  destruct (send_user_digest_db env retries user_id d) as [[_ Hno]|[-> Hu]].
  - contradiction (Hno items_count).
  - rewrite send_user_digest_nothing.
    + change (find_user user_id (delete_all (queue_of user_id d) d))
        with (find_user user_id d).
      destruct (find_user user_id d); [|contradiction Hu; reflexivity].
      rewrite queue_of_delete_all. reflexivity.
    + right. unfold qualifying_items. rewrite queue_of_delete_all. reflexivity.
Qed.

Lemma delivered_digest_is_not_sent_again_witness :
  let d' := db_of (run (Tasks.send_user_digest_task Fixtures.env_ok 0 1)
                     Fixtures.db_mixed) in
  run (Tasks.send_user_digest_task Fixtures.env_ok 2 1) d'
  = (inr Tasks.NoPendingItems, d', []).
Proof.
  exact (delivered_digest_is_not_sent_again Fixtures.env_ok 0 2 1 Fixtures.db_mixed 1
           eq_refl).
Defined.

(** ** What an attempt on an episode leaves alone *)

Lemma Forall2_same {A : Type} (R : A -> A -> Prop) (l : list A) :
  (forall x, R x x) -> Forall2 R l l.
Proof. intros H. induction l; constructor; auto. Qed.

Lemma Forall2_map_right {A B : Type} (R : A -> B -> Prop) (g : B -> B)
  (l0 : list A) (l : list B) :
  (forall a b, R a b -> R a (g b)) -> Forall2 R l0 l -> Forall2 R l0 (List.map g l).
Proof.
  intros H F. induction F; simpl; constructor; auto.
Qed.

Lemma bookkeeping_same (id : Z) (d : DB) : Frames.bookkeeping_only id d d.
Proof.
  repeat split. apply Forall2_same. intros x. split; reflexivity.
Qed.

Lemma bookkeeping_touches (id : Z) (d0 d : DB) :
  Frames.bookkeeping_only id d0 d -> Frames.touches_only id d0 d.
Proof.
  intros (H1 & H2 & H3 & H4 & H5). repeat split; try assumption.
  - eapply List.Forall2_impl; [|exact H4].
    intros a b [Hc Hq]. split; [|exact Hq].
    unfold Frames.content in Hc. congruence.
  - exists []. rewrite List.app_nil_r. exact H5.
Qed.

Lemma bookkeeping_update (id : Z) (d0 d : DB) (f : Episode -> Episode) :
  (forall e, Frames.content (f e) = Frames.content e) ->
  Frames.bookkeeping_only id d0 d ->
  Frames.bookkeeping_only id d0 (update_episode id f d).
Proof.
  intros Hf (H1 & H2 & H3 & H4 & H5). repeat split; try assumption.
  unfold update_episode. cbn [episodes with_episodes].
  apply Forall2_map_right; [|exact H4].
  intros a b [Hc Hq]. destruct (ep_id b =? id) eqn:E; [|split; assumption].
  apply Z.eqb_eq in E. split.
  - rewrite Hf. exact Hc.
  - intros Hne. contradiction Hne. unfold Frames.content in Hc. congruence.
Qed.

Lemma touches_update (id : Z) (d0 d : DB) (f : Episode -> Episode) :
  (forall e, ep_id (f e) = ep_id e) ->
  Frames.touches_only id d0 d ->
  Frames.touches_only id d0 (update_episode id f d).
Proof.
  intros Hf (H1 & H2 & H3 & H4 & H5). repeat split; try assumption.
  unfold update_episode. cbn [episodes with_episodes].
  apply Forall2_map_right; [|exact H4].
  intros a b [Hi Hq]. destruct (ep_id b =? id) eqn:E; [|split; assumption].
  apply Z.eqb_eq in E. split.
  - rewrite Hf. exact Hi.
  - intros Hne. contradiction Hne. congruence.
Qed.

Lemma touches_queue (id : Z) (d0 d : DB) (added : list DailyDigestQueue) :
  Frames.touches_only id d0 d ->
  Frames.touches_only id d0 (with_digest_queue (digest_queue d ++ added) d).
Proof.
  intros (H1 & H2 & H3 & H4 & (a0 & H5)). repeat split; try assumption.
  exists (a0 ++ added)%list. cbn [digest_queue with_digest_queue].
  rewrite H5, List.app_assoc. reflexivity.
Qed.

(** Flushing appends to the queue. *)
Lemma insert_rows_appends (rows : list (Z * Z)) :
  forall q, exists added, insert_rows rows q = (q ++ added)%list.
Proof.
  induction rows as [|[u e] rest IH]; intros q; cbn [insert_rows].
  - exists []. rewrite List.app_nil_r. reflexivity.
  - destruct (IH (q ++ [mkQueueItem (next_id (List.map dq_id q)) u e])%list)
      as (added & H).
    rewrite H, <- List.app_assoc. eexists. reflexivity.
Qed.

Lemma query_appends (env : Env) {A : Type} (f : DB -> A) (s : Session) :
  exists a added p,
    query env f s
    = (inr a,
       mkSession (with_digest_queue (digest_queue (view s) ++ added) (view s)) p
         (saved s) (trace s)).
Proof.
  unfold query, bind, flush, read, ret. destruct (autoflush env).
  - destruct (insert_rows_appends (pending s) (digest_queue (view s))) as (added & H).
    cbn [view pending saved trace]. rewrite H. eexists _, added, _. reflexivity.
  - exists (f (view s)), [], (pending s).
    rewrite List.app_nil_r, with_digest_queue_id. destruct s; reflexivity.
Qed.

Lemma fan_out_appends (env : Env) (episode : Episode) (subs : list Subscription) :
  forall s : Session,
  exists added p,
    for_each subs (fan_out_body env episode) s
    = (inr tt,
       mkSession (with_digest_queue (digest_queue (view s) ++ added) (view s)) p
         (saved s) (trace s)).
Proof.
  induction subs as [|sub rest IH]; intros s.
  - exists [], (pending s). cbn [for_each]. unfold ret.
    rewrite List.app_nil_r, with_digest_queue_id. destruct s; reflexivity.
  - cbn [for_each]. unfold bind at 1. unfold fan_out_body at 1. unfold bind at 1.
    match goal with
    | |- context [query env ?f s] =>
        destruct (query_appends env f s) as (existing & a1 & p1 & Hq); rewrite Hq
    end.
    assert (Hstep : exists p2,
               match existing with
               | Some _ => ret tt
               | None => add_queue_item (sub_user_id sub) (ep_id episode)
               end
                 (mkSession (with_digest_queue (digest_queue (view s) ++ a1) (view s)) p1
                    (saved s) (trace s))
               = (inr tt,
                  mkSession (with_digest_queue (digest_queue (view s) ++ a1) (view s)) p2
                    (saved s) (trace s))).
    { destruct existing; eexists; reflexivity. }
    destruct Hstep as (p2 & Hstep). rewrite Hstep.
    match goal with
    | |- context [for_each rest _ ?s1] => destruct (IH s1) as (a2 & p3 & H2)
    end.
    rewrite H2. cbn [view pending saved trace digest_queue with_digest_queue].
    exists (a1 ++ a2)%list, p3. rewrite List.app_assoc. reflexivity.
Qed.

(** The fan-out on completion only appends to the queue. *)
Lemma queue_for_subscribers_appends (env : Env) (episode : Episode) (s : Session) :
  exists added,
    Tasks.queue_for_subscribers env episode s
    = (inr tt,
       mkSession (with_digest_queue (digest_queue (view s) ++ added) (view s)) []
         (with_digest_queue (digest_queue (view s) ++ added) (view s)) (trace s)).
Proof.
  unfold Tasks.queue_for_subscribers. unfold bind at 1.
  match goal with
  | |- context [query env ?f s] =>
      destruct (query_appends env f s) as (subs & a1 & p1 & Hq); rewrite Hq
  end.
  unfold bind at 1.
  match goal with
  | |- context [for_each subs ?body ?s1] =>
      change body with (fan_out_body env episode);
      destruct (fan_out_appends env episode subs s1) as (a2 & p2 & H2)
  end.
  rewrite H2. cbn [view pending saved trace digest_queue with_digest_queue].
  unfold commit, bind, flush. cbn [view pending saved trace digest_queue with_digest_queue].
  destruct (insert_rows_appends p2 ((digest_queue (view s) ++ a1) ++ a2)%list)
    as (a3 & H3).
  rewrite H3. exists (a1 ++ a2 ++ a3)%list.
  rewrite <- !List.app_assoc. reflexivity.
Qed.

Lemma inv_emit (V S : DB -> Prop) (ev : Event) :
  keeps (Frames.session_inv V S) (emit ev).
Proof. intros s H. exact H. Qed.

Lemma inv_query (env : Env) {A : Type} (V S : DB -> Prop) (f : DB -> A) :
  keeps (Frames.session_inv V S) (query env f).
Proof. intros s H. rewrite query_clean by apply H. exact H. Qed.

Lemma inv_write (V S : DB -> Prop) (g : DB -> DB) :
  (forall d, V d -> V (g d)) -> keeps (Frames.session_inv V S) (write g).
Proof.
  intros Hg s (Hp & Hv & Hs). repeat split; cbn [write view pending saved]; auto.
Qed.

Lemma inv_commit (V S : DB -> Prop) :
  (forall d, V d -> S d) -> keeps (Frames.session_inv V S) commit.
Proof.
  intros HVS s (Hp & Hv & Hs). rewrite commit_clean by exact Hp.
  repeat split; cbn [view pending saved]; auto.
Qed.

Ltac inv_step :=
  first
    [ apply keeps_ret
    | apply keeps_raise; reflexivity
    | apply inv_emit
    | apply inv_query
    | apply keeps_bind; [|intro]
    | match goal with
      | |- keeps _ (if ?b then _ else _) => destruct b
      | |- keeps _ (match ?x with _ => _ end) => destruct x
      end ].

Lemma inv_determine_source_type (env : Env) (V S : DB -> Prop) (id : Z) (ep : Episode) :
  keeps (Frames.session_inv V S) (Tasks.determine_source_type env id ep).
Proof. unfold Tasks.determine_source_type. repeat inv_step. Qed.

Lemma inv_summarize (env : Env) (V S : DB -> Prop) (transcript : string) (n : Z) :
  keeps (Frames.session_inv V S) (Summarization.summarize_transcript env transcript n).
Proof.
  unfold Summarization.summarize_transcript, Summarization.chat. repeat inv_step.
Qed.

Lemma inv_transcribe (env : Env) (id : Z) (d0 : DB) (ep : Episode)
  (source_type : option string) :
  keeps (Frames.session_inv (Frames.bookkeeping_only id d0)
           (Frames.bookkeeping_only id d0))
    (Tasks.transcribe env id ep source_type).
Proof.
  unfold Tasks.transcribe, Tasks.fill_title, Transcription.get_video_title,
    Transcription.process_youtube_episode, Transcription.process_x_spaces,
    Transcription.process_podcast_episode.
  repeat first
    [ apply inv_commit; solve [auto]
    | apply inv_write; intros d H; apply bookkeeping_update;
      [intros ?; reflexivity | exact H]
    | inv_step ].
Qed.

(** The handlers see a committed state that differs from the start in
    bookkeeping only. *)
Lemma keeps_saved {A : Type} (V : DB -> Prop) (id : Z) (d0 : DB) (c : M A) :
  keeps (Frames.session_inv V (Frames.bookkeeping_only id d0)) c ->
  hoare (Frames.session_inv V (Frames.bookkeeping_only id d0)) c
    (fun _ => Frames.session_inv V (Frames.bookkeeping_only id d0))
    (fun e s => Frames.bookkeeping_only id d0 (saved s) /\ is_retry e = false).
Proof.
  intros K. eapply hoare_weaken; [exact K | auto | auto |].
  intros e s [(_ & _ & Hs) He]. split; assumption.
Qed.

Lemma process_episode_try_frame (env : Env) (id : Z) (d0 : DB) :
  hoare (Frames.session_inv (Frames.bookkeeping_only id d0)
           (Frames.bookkeeping_only id d0))
    (Tasks.process_episode_try env id)
    (fun r s =>
       Frames.touches_only id d0 (saved s)
       /\ ((forall i, r <> Tasks.Completed i) ->
           Frames.bookkeeping_only id d0 (saved s)))
    (fun e s => Frames.bookkeeping_only id d0 (saved s) /\ is_retry e = false).
Proof.
  set (BK := Frames.bookkeeping_only id d0).
  set (TO := Frames.touches_only id d0).
  assert (Hret : forall r : Tasks.Result,
             hoare (Frames.session_inv BK BK) (ret r)
               (fun r s => TO (saved s)
                           /\ ((forall i, r <> Tasks.Completed i) -> BK (saved s)))
               (fun e s => BK (saved s) /\ is_retry e = false)).
  { intros r s (_ & _ & Hs). split; [apply bookkeeping_touches, Hs | intros _; exact Hs]. }
  unfold Tasks.process_episode_try.
  eapply hoare_bind; [apply keeps_saved, inv_query | intros found; cbv beta].
  destruct found as [episode|]; [|apply Hret].
  destruct (status_eqb (ep_status episode) COMPLETED); [apply Hret|].
  eapply hoare_bind;
    [apply keeps_saved, inv_write; intros d H; apply bookkeeping_update;
     [intros ?; reflexivity | exact H]
    | intros ?; cbv beta].
  eapply hoare_bind; [apply keeps_saved, inv_commit; auto | intros ?; cbv beta].
  eapply hoare_bind;
    [apply keeps_saved, inv_determine_source_type | intros source_type; cbv beta].
  eapply hoare_bind; [apply keeps_saved, inv_transcribe | intros transcript; cbv beta].
  apply (hoare_bind _ _ _ (fun _ => Frames.session_inv TO BK)).
  { intros s (Hp & Hv & Hs). unfold write.
    split; [exact Hp|]. split; [|exact Hs]. cbn [view].
    apply touches_update; [intros ?; reflexivity | apply bookkeeping_touches, Hv]. }
  intros ?.
  eapply hoare_bind; [apply keeps_saved, inv_summarize | intros summary; cbv beta].
  intros s (Hp & Hv & Hs).
  unfold bind at 1. unfold write. unfold bind at 1.
  rewrite commit_clean by exact Hp. cbn [view pending saved trace].
  unfold bind at 1.
  match goal with
  | |- context [Tasks.queue_for_subscribers env episode ?s1] =>
      destruct (queue_for_subscribers_appends env episode s1) as (added & H); rewrite H
  end.
  unfold ret. cbn [view pending saved trace]. split.
  - apply touches_queue, touches_update; [intros ?; reflexivity | exact Hv].
  - intros Hi. contradiction (Hi id). reflexivity.
Qed.

Lemma mark_failed_frame (env : Env) (id : Z) (d0 : DB) (f : Episode -> Episode) :
  (forall e, Frames.content (f e) = Frames.content e) ->
  forall s, Frames.bookkeeping_only id d0 (saved s) ->
            exists s', Tasks.mark_failed env id f s = (inr tt, s')
                       /\ Frames.bookkeeping_only id d0 (saved s')
                       /\ trace s' = trace s.
Proof.
  intros Hf s Hs. unfold Tasks.mark_failed, rollback. unfold bind at 1.
  erewrite bind_inr by (apply query_clean; reflexivity). cbn [view].
  destruct (find_episode id (saved s)).
  - unfold bind, write. cbn [view pending saved trace].
    rewrite commit_clean by reflexivity. cbn [view pending saved trace].
    eexists. split; [reflexivity|]. split; [|reflexivity].
    apply bookkeeping_update; assumption.
  - eexists. split; [reflexivity|]. split; [exact Hs | reflexivity].
Qed.

(** X24.  An attempt on an episode leaves every other episode row and
    every user, subscription and source as they were, and keeps the queue
    rows that were there, adding rows only at the end.  An attempt that
    does not complete changes nothing but the status, the title and the
    error message of its episode: it stores no transcript and no summary
    and adds no queue row. *)
Theorem attempt_touches_one_episode
  (env : Env) (retries : nat) (episode_id : Z) (d : DB) :
  Frames.touches_only episode_id d
    (db_of (run (Tasks.process_episode_task env retries episode_id) d))
  /\ ((forall i,
         result_of (run (Tasks.process_episode_task env retries episode_id) d)
         <> inr (Tasks.Completed i)) ->
      Frames.bookkeeping_only episode_id d
        (db_of (run (Tasks.process_episode_task env retries episode_id) d))).
Proof.
  pose proof (process_episode_try_frame env episode_id d (mkSession d [] d [])) as Htry.
  specialize (Htry ltac:(repeat split; apply bookkeeping_same)).
  unfold run, Tasks.process_episode_task, try_except.
  destruct (Tasks.process_episode_try env episode_id (mkSession d [] d []))
    as [[e|r] s'].
  - destruct Htry as [Hs He].
    assert (Hbk : Frames.bookkeeping_only episode_id d
                    (saved (snd
                       (match e with
                        | NoCaptionsError msg =>
                            bind (Tasks.mark_failed env episode_id
                                    (fun ep => set_error_message (Some msg)
                                                 (set_status FAILED ep)))
                              (fun _ => ret (Tasks.FailedNoCaptions msg))
                        | _ =>
                            bind (Tasks.mark_failed env episode_id (set_status FAILED))
                              (fun _ => retry (ProcessEpisode episode_id)
                                          Tasks.max_retries retries e
                                          (60 * 2 ^ Z.of_nat retries))
                        end s')))).
    { destruct e; cbv beta iota;
        match goal with
        | |- context [Tasks.mark_failed env episode_id ?f] =>
            destruct (mark_failed_frame env episode_id d f ltac:(intros ?; reflexivity) s' Hs)
              as (s1 & Hm & H1 & _)
        end;
        unfold bind; rewrite Hm; unfold retry, ret, raise, bind, emit;
        try destruct (Tasks.max_retries <? S retries)%nat;
        cbn [snd saved]; exact H1. }
    match type of Hbk with
    | context [snd ?x] => destruct x as [r1 s1]
    end.
    cbn [snd db_of fst] in *.
    split; [apply bookkeeping_touches, Hbk | intros _; exact Hbk].
  - cbn [db_of result_of fst snd]. destruct Htry as [Hto Hbk]. split; [exact Hto|].
    intros Hno. apply Hbk. intros i Hi. apply (Hno i). rewrite Hi. reflexivity.
Qed.

(** ** Episodes and their unique ids *)

Lemma unique_ids_update (id : Z) (f : Episode -> Episode) (d : DB) :
  (forall e, ep_unique_id (f e) = ep_unique_id e) ->
  List.map ep_unique_id (episodes (update_episode id f d))
  = List.map ep_unique_id (episodes d).
Proof.
  intros Hf. unfold update_episode. cbn [episodes with_episodes].
  rewrite List.map_map. apply List.map_ext.
  intros e. destruct (ep_id e =? id); [apply Hf | reflexivity].
Qed.

(** A submission whose hash is known leaves the unique ids as they are. *)
Lemma submit_url_known (env : Env) (submission : Routes.EpisodeSubmit) (d : DB)
  (ex : Episode) :
  find_episode_by_unique_id (Routes.get_url_hash env (Routes.url submission)) d
  = Some ex ->
  List.map ep_unique_id
    (episodes (db_of (run (Routes.submit_url env submission) d)))
  = List.map ep_unique_id (episodes d).
Proof.
  intros Hex. unfold db_of, run, Routes.submit_url.
  erewrite bind_inr by (apply query_clean; reflexivity). cbn [view]. rewrite Hex.
  destruct submission as [u [uid|]]; cbn [Routes.url Routes.user_id PyStr.truthy_int];
    [destruct (uid =? 0)|];
    destruct (ep_status ex); cbn [status_eqb andb negb];
    unfold bind, write, add_queue_item, commit, bind, flush, delay, emit, ret;
    cbn [view pending saved trace fst snd List.app insert_rows];
    try reflexivity;
    rewrite with_digest_queue_id; apply unique_ids_update; intros e; reflexivity.
Qed.

(** A submission whose hash is unknown appends one PENDING episode, which
    keeps the submitted URL as its audio URL unless it is a video or a
    recorded space, and enqueues its processing. *)
Lemma submit_url_creates (env : Env) (submission : Routes.EpisodeSubmit) (d : DB) :
  find_episode_by_unique_id (Routes.get_url_hash env (Routes.url submission)) d
  = None ->
  let normalized_url := Identity.normalize_url (Routes.url submission) in
  let ex :=
    mkEpisode (next_id (List.map ep_id (episodes d))) None
      (Routes.get_url_hash env (Routes.url submission)) None normalized_url
      (if PyStr.contains "youtube.com" normalized_url
          || PyStr.contains "youtu.be" normalized_url
          || Transcription.is_x_spaces_url normalized_url
       then None else Some (Routes.url submission))
      None None PENDING None None None in
  episodes (db_of (run (Routes.submit_url env submission) d))
  = (episodes d ++ [ex])%list
  /\ trace_of (run (Routes.submit_url env submission) d)
     = [Enqueue (ProcessEpisode (ep_id ex)) 0 O].
Proof.
  intros Hnone normalized_url ex. subst ex.
  unfold db_of, trace_of, run, Routes.submit_url.
  erewrite bind_inr by (apply query_clean; reflexivity). cbn [view]. rewrite Hnone.
  fold normalized_url.
  destruct (PyStr.contains "youtube.com" normalized_url
            || PyStr.contains "youtu.be" normalized_url);
    [|destruct (Transcription.is_x_spaces_url normalized_url)];
    cbn [orb String.eqb Ascii.eqb Bool.eqb];
    destruct submission as [u [uid|]]; cbn [Routes.url Routes.user_id PyStr.truthy_int];
    try destruct (uid =? 0); cbn [negb];
    unfold Routes.add_episode, bind, read, write, add_queue_item, commit, bind,
      flush, ret, delay, emit;
    cbn [view pending saved trace List.app insert_rows fst snd episodes
           with_episodes with_digest_queue ep_id];
    split; reflexivity.
Qed.

(** X25.  Submitting a URL keeps the unique ids of the episode table
    distinct: a URL whose hash is known never gets a second episode. *)
Theorem submit_url_keeps_unique_ids
  (env : Env) (submission : Routes.EpisodeSubmit) (d : DB) :
  NoDup (List.map ep_unique_id (episodes d)) ->
  NoDup (List.map ep_unique_id
           (episodes (db_of (run (Routes.submit_url env submission) d)))).
Proof.
  intros Hnd.
  destruct (find_episode_by_unique_id
              (Routes.get_url_hash env (Routes.url submission)) d) as [ex|] eqn:Hex.
  - rewrite (submit_url_known env submission d ex Hex). exact Hnd.
  - destruct (submit_url_creates env submission d Hex) as [Hep _].
    rewrite Hep, List.map_app. apply NoDup_snoc; [exact Hnd|].
    apply unique_id_absent, Hex.
Qed.

Lemma submit_url_keeps_unique_ids_witness :
  NoDup (List.map ep_unique_id
           (episodes
              (db_of (run (Routes.submit_url Fixtures.env_ok
                             (Routes.mkSubmit "https://pod.example/new.mp3" None))
                        Fixtures.db_empty)))).
Proof.
  apply (submit_url_keeps_unique_ids Fixtures.env_ok). constructor.
Defined.



(** ** Users of the bot *)

(** X27.  [get_or_create_user] returns a user with the given chat id,
    creating the row only when no row has that chat id, and is idempotent:
    called again it returns the same user and changes nothing. *)
Theorem get_or_create_user_idempotent (env : Env) (chat_id : string) (d : DB) :
  exists user,
    result_of (run (Bot.get_or_create_user env chat_id) d) = inr user
    /\ usr_telegram_chat_id user = Some chat_id
    /\ trace_of (run (Bot.get_or_create_user env chat_id) d) = []
    /\ (Bot.find_user_by_chat chat_id d <> None ->
        db_of (run (Bot.get_or_create_user env chat_id) d) = d)
    /\ run (Bot.get_or_create_user env chat_id)
         (db_of (run (Bot.get_or_create_user env chat_id) d))
       = (inr user, db_of (run (Bot.get_or_create_user env chat_id) d), []).
Proof.
  assert (Hrun : forall d0,
             run (Bot.get_or_create_user env chat_id) d0
             = match Bot.find_user_by_chat chat_id d0 with
               | Some found => (inr found, d0, [])
               | None =>
                   (inr (mkUser (next_id (List.map usr_id (users d0))) None
                           (Some chat_id) "08:00" "UTC"),
                    Bot.with_users
                      (users d0 ++
                         [mkUser (next_id (List.map usr_id (users d0))) None
                            (Some chat_id) "08:00" "UTC"]) d0,
                    [])
               end).
  { intros d0. unfold run, Bot.get_or_create_user.
    erewrite bind_inr by (apply query_clean; reflexivity). cbn [view].
    destruct (Bot.find_user_by_chat chat_id d0); [reflexivity|].
    unfold bind, read, write, ret. cbn [view pending saved trace].
    rewrite commit_clean by reflexivity. reflexivity. }
  rewrite (Hrun d).
  destruct (Bot.find_user_by_chat chat_id d) as [found|] eqn:Hf.
  - exists found. cbn [result_of db_of trace_of fst snd].
    split; [reflexivity|]. split.
    + unfold Bot.find_user_by_chat, first_where in Hf.
      apply List.find_some in Hf. destruct Hf as [_ Hf].
      unfold Tasks.str_eq in Hf.
      destruct (usr_telegram_chat_id found) as [x|]; [|discriminate Hf].
      apply String.eqb_eq in Hf. rewrite Hf. reflexivity.
    + split; [reflexivity|]. split; [reflexivity|].
      rewrite (Hrun d), Hf. reflexivity.
  - eexists. cbn [result_of db_of trace_of fst snd].
    split; [reflexivity|]. split; [reflexivity|]. split; [reflexivity|].
    split; [intros H; contradiction H; reflexivity|].
    rewrite Hrun.
    unfold Bot.find_user_by_chat, Bot.with_users, first_where in *.
    cbn [users]. rewrite (find_snoc _ _ _ Hf).
    cbn [Tasks.str_eq usr_telegram_chat_id]. rewrite String.eqb_refl. reflexivity.
Qed.
